(** * cloudsplaining: the authorization-details scan

    A shallow embedding of [cloudsplaining/scan/authorization_details.py]:
    the classes [AuthorizationDetails], [PrincipalPolicyMapping] and
    [PrincipalPolicyMappingEntry], with the Python primitives they rely on
    ([str.lower], [x in s], [dict.fromkeys], [sorted] with an [itemgetter]
    key, [list.sort]).

    Conventions.
    - IAM names and ARNs are ASCII, so a Python [str] is a [string] and
      [str.lower] acts on the letters [A-Z] only.
    - A method that can raise is a computation in the monad [M]: it takes
      the object it is called on and returns an outcome together with the
      object as the call leaves it.
    - [print] writes to the terminal and is not part of any value; it is
      left out. *)

From Stdlib Require Import List String Ascii Bool Arith Lia.
From Stdlib Require Import Permutation Sorted RelationClasses.
From Stdlib Require Import Orders OrdersEx.
Import ListNotations.
Open Scope string_scope.
Open Scope list_scope.

Set Implicit Arguments.

(* ================================================================= *)
(** ** Python primitives *)

Module Py.

(** [c.lower()] for one character. *)
Definition lower_ascii (c : ascii) : ascii :=
  let n := nat_of_ascii c in
  if ((65 <=? n) && (n <=? 90))%nat then ascii_of_nat (n + 32) else c.

(** [s.lower()] *)
Fixpoint lower (s : string) : string :=
  match s with
  | EmptyString => EmptyString
  | String c s' => String (lower_ascii c) (lower s')
  end.

(** [needle in hay], for two strings. *)
Fixpoint contains (needle hay : string) : bool :=
  String.prefix needle hay ||
  match hay with
  | EmptyString => false
  | String _ hay' => contains needle hay'
  end.

(** [x in l], for a list of strings. *)
Definition in_list (x : string) (l : list string) : bool :=
  existsb (String.eqb x) l.

(** [list(dict.fromkeys(l))]: the keys of an insertion-ordered dict; a key
    already present keeps its place. *)
Definition dict_fromkeys (l : list string) : list string :=
  fold_left (fun keys k => if in_list k keys then keys else keys ++ [k]) l [].

(** Truthiness of a list: [if l:]. *)
Definition truthy {A} (l : list A) : bool :=
  match l with [] => false | _ :: _ => true end.

(** *** [sorted] and [list.sort]: a stable sort.

    Python's sort is stable and uses [<] only; the result of a stable
    sort is determined by the input, so a stable insertion sort gives the
    same list. *)
Section Sort.
Variables (A K : Type) (ltb : K -> K -> bool) (key : A -> K).

(** [x] precedes every element of [l] in the input: it stays in front
    of the elements that are not smaller. *)
Fixpoint insert (x : A) (l : list A) : list A :=
  match l with
  | [] => [x]
  | y :: l' => if ltb (key y) (key x) then y :: insert x l' else x :: l
  end.

Definition sorted (l : list A) : list A := fold_right insert [] l.
End Sort.

(** Comparison of strings, by code points. *)
Definition str_ltb (a b : string) : bool :=
  match String_as_OT.compare a b with Lt => true | _ => false end.

(** [l.sort()] on a list of strings. *)
Definition list_sort (l : list string) : list string :=
  sorted str_ltb (fun s => s) l.

(** Exceptions and the outcome of a call. *)
Inductive exn : Type := Exception (msg : string).

Inductive outcome (A : Type) : Type :=
| Returned (a : A)
| Raised (e : exn).
Arguments Returned {A} a.
Arguments Raised {A} e.

(** A method of an object of type [S]. *)
Definition M (S A : Type) : Type := S -> outcome A * S.

Definition ret {S A} (a : A) : M S A := fun s => (Returned a, s).
Definition raise {S A} (e : exn) : M S A := fun s => (Raised e, s).
Definition bind {S A B} (c : M S A) (k : A -> M S B) : M S B :=
  fun s => match c s with
           | (Returned a, s') => k a s'
           | (Raised e, s') => (Raised e, s')
           end.
Definition get {S} : M S S := fun s => (Returned s, s).
Definition modify {S} (f : S -> S) : M S unit := fun s => (Returned tt, f s).

End Py.

Import Py.

Notation "x <- c ;; k" := (bind c (fun x => k))
  (at level 61, c at next level, right associativity).
Notation "c ;;; k" := (bind c (fun _ => k))
  (at level 61, right associativity).

(** The tuple that [itemgetter("Type", "Principal", "PolicyType",
    "PolicyName")] returns, compared as Python compares tuples: left to
    right, strings by code points. *)
Module StrPair := PairOrderedType String_as_OT String_as_OT.
Module Key := PairOrderedType StrPair StrPair.

Definition key_ltb (a b : Key.t) : bool :=
  match Key.compare a b with Lt => true | _ => false end.

Definition itemgetter4 (ty principal policy_type policy_name : string) : Key.t :=
  ((ty, principal), (policy_type, policy_name)).

(* ================================================================= *)
(** ** The entity model *)

(** The literal AWS-managed path segment. *)
Definition AWS_SEGMENT : string := "arn:aws:iam::aws:".

Record Statement : Type := {
  effect : string;
  actions : list string;
  resources : list string
}.

Record PolicyDocument : Type := { statements : list Statement }.

(** An entry of [inline_principal_policies] and of [policy_list]. *)
Record PolicyEntry : Type := {
  pe_PolicyName : string;
  pe_PolicyDocument : PolicyDocument
}.

(** An entry of [attached_managed_policies]. *)
Record AttachedManagedPolicy : Type := {
  amp_PolicyName : string;
  amp_PolicyArn : string
}.

(** A standalone policy, an element of [PolicyDetails.policy_details]. *)
Record PolicyDetail : Type := {
  policy_name : string;
  policy_arn : string;
  full_policy_path : string;
  policy_document : PolicyDocument
}.

(** A principal, an element of [PrincipalTypeDetails.principals]. The
    type tag is the string the code compares it with. *)
Record PrincipalDetail : Type := {
  name : string;
  arn : string;
  principal_type : string;
  inline_principal_policies : list PolicyEntry;
  attached_managed_policies : list AttachedManagedPolicy;
  policy_list : list PolicyEntry;
  group_member : list string;
  members : list string;
  assume_role_policy_document : option PolicyDocument
}.

Definition set_members (p : PrincipalDetail) (m : list string) : PrincipalDetail :=
  {| name := name p; arn := arn p; principal_type := principal_type p;
     inline_principal_policies := inline_principal_policies p;
     attached_managed_policies := attached_managed_policies p;
     policy_list := policy_list p; group_member := group_member p;
     members := m;
     assume_role_policy_document := assume_role_policy_document p |}.

(** The [Exclusions] object: four lists of lower-cased names. *)
Module Exclusions.
Record t : Type := {
  users : list string;
  groups : list string;
  roles : list string;
  policies : list string
}.
End Exclusions.

(** A value a caller may pass where an [Exclusions] object is expected. *)
Inductive pyobj : Type :=
| PyNone
| PyStr (s : string)
| PyDict (items : list (string * list string))
| PyExclusions (e : Exclusions.t).

Definition isinstance_Exclusions (x : pyobj) : bool :=
  match x with PyExclusions _ => true | _ => false end.

(** The message of the exception raised on an argument that is not an
    [Exclusions] object, by the methods of [AuthorizationDetails]. *)
Definition NOT_EXCLUSIONS_MSG : string :=
  "The provided exclusions is not the Exclusions object type. Please use the Exclusions object.".

(** The external collaborators the scan calls: the two evaluations of a
    statement, [Exclusions.is_policy_excluded] and
    [PrincipalDetail.is_principal_excluded]. Their code is outside this
    file; the scan is parametrised by them. *)
Record Collaborators : Type := {
  stmt_missing_resource_constraints_for_modify_actions :
    Statement -> Exclusions.t -> list string;
  stmt_missing_resource_constraints : Statement -> Exclusions.t -> list string;
  is_policy_excluded : Exclusions.t -> string -> bool;
  is_principal_excluded : PrincipalDetail -> Exclusions.t -> bool
}.

(** One dict of the list [AuthorizationDetails.principal_policy_mapping]. *)
Record MappingRow : Type := {
  row_Principal : string;
  row_Type : string;
  row_PolicyType : string;
  row_ManagedBy : string;
  row_PolicyName : string;
  row_GroupMembership : option (list string)
}.

Definition row_key (r : MappingRow) : Key.t :=
  itemgetter4 (row_Type r) (row_Principal r) (row_PolicyType r) (row_PolicyName r).

(* ================================================================= *)
(** ** The findings aggregator *)

(** The arguments each finding is constructed with. *)
Inductive Finding : Type :=
| PolicyFinding (f_policy_name f_arn : string) (f_actions : list string)
    (f_policy_document : PolicyDocument) (f_exclusions : Exclusions.t)
| UserFinding (f_policy_name f_arn : string) (f_actions : list string)
    (f_policy_document : PolicyDocument) (f_exclusions : Exclusions.t)
    (f_attached_managed_policies : list AttachedManagedPolicy)
    (f_group_membership : list string)
| GroupFinding (f_policy_name f_arn : string) (f_actions : list string)
    (f_policy_document : PolicyDocument) (f_exclusions : Exclusions.t)
    (f_members : list string)
    (f_attached_managed_policies : list AttachedManagedPolicy)
| RoleFinding (f_policy_name f_arn : string) (f_actions : list string)
    (f_policy_document : PolicyDocument) (f_exclusions : Exclusions.t)
    (f_assume_role_policy_document : option PolicyDocument)
    (f_attached_managed_policies : list AttachedManagedPolicy).

Definition finding_actions (f : Finding) : list string :=
  match f with
  | PolicyFinding _ _ a _ _ => a
  | UserFinding _ _ a _ _ _ _ => a
  | GroupFinding _ _ a _ _ _ _ => a
  | RoleFinding _ _ a _ _ _ _ => a
  end.

Module Findings.

(** Modelled from the spec: the class [Findings] of
    [cloudsplaining/output/findings.py] is not in this file. The spec
    describes it as a typed container accumulating Policy, User, Group and
    Role findings, with the serializable result [{policies, users, groups,
    roles, principal_policy_mapping}]. *)
Record t : Type := {
  exclusions : Exclusions.t;
  policies : list Finding;
  users : list Finding;
  groups : list Finding;
  roles : list Finding;
  principal_policy_mapping : list MappingRow
}.

(** [Findings(exclusions)] *)
Definition new (ex : Exclusions.t) : t :=
  {| exclusions := ex; policies := []; users := []; groups := []; roles := [];
     principal_policy_mapping := [] |}.

Definition add_policy_finding (f : t) (x : Finding) : t :=
  {| exclusions := exclusions f; policies := policies f ++ [x];
     users := users f; groups := groups f; roles := roles f;
     principal_policy_mapping := principal_policy_mapping f |}.

Definition add_user_finding (f : t) (x : Finding) : t :=
  {| exclusions := exclusions f; policies := policies f;
     users := users f ++ [x]; groups := groups f; roles := roles f;
     principal_policy_mapping := principal_policy_mapping f |}.

Definition add_group_finding (f : t) (x : Finding) : t :=
  {| exclusions := exclusions f; policies := policies f;
     users := users f; groups := groups f ++ [x]; roles := roles f;
     principal_policy_mapping := principal_policy_mapping f |}.

Definition add_role_finding (f : t) (x : Finding) : t :=
  {| exclusions := exclusions f; policies := policies f;
     users := users f; groups := groups f; roles := roles f ++ [x];
     principal_policy_mapping := principal_policy_mapping f |}.

Definition set_principal_policy_mapping (f : t) (m : list MappingRow) : t :=
  {| exclusions := exclusions f; policies := policies f;
     users := users f; groups := groups f; roles := roles f;
     principal_policy_mapping := m |}.

(** The serializable snapshot, [Findings.json]. *)
Record Json : Type := {
  json_policies : list Finding;
  json_users : list Finding;
  json_groups : list Finding;
  json_roles : list Finding;
  json_principal_policy_mapping : list MappingRow
}.

Definition json (f : t) : Json :=
  {| json_policies := policies f; json_users := users f;
     json_groups := groups f; json_roles := roles f;
     json_principal_policy_mapping := principal_policy_mapping f |}.

End Findings.

(* ================================================================= *)
(** ** class AuthorizationDetails *)

Module AuthorizationDetails.

Record t : Type := {
  policies : list PolicyDetail;
  user_detail_list : list PrincipalDetail;
  group_detail_list : list PrincipalDetail;
  role_detail_list : list PrincipalDetail;
  findings : Findings.t
}.

Definition set_findings (f : Findings.t) (self : t) : t :=
  {| policies := policies self; user_detail_list := user_detail_list self;
     group_detail_list := group_detail_list self;
     role_detail_list := role_detail_list self; findings := f |}.

(** The [PrincipalTypeDetails] object handed to
    [scan_principal_type_details] is one of the object's own three lists,
    passed by reference: what the method writes into a principal of the
    list is written into the object. *)
Inductive detail_list_ref : Type :=
| UserDetailList
| GroupDetailList
| RoleDetailList.

Definition deref (r : detail_list_ref) (self : t) : list PrincipalDetail :=
  match r with
  | UserDetailList => user_detail_list self
  | GroupDetailList => group_detail_list self
  | RoleDetailList => role_detail_list self
  end.

Definition assign (r : detail_list_ref) (l : list PrincipalDetail) (self : t) : t :=
  match r with
  | UserDetailList =>
      {| policies := policies self; user_detail_list := l;
         group_detail_list := group_detail_list self;
         role_detail_list := role_detail_list self; findings := findings self |}
  | GroupDetailList =>
      {| policies := policies self; user_detail_list := user_detail_list self;
         group_detail_list := l;
         role_detail_list := role_detail_list self; findings := findings self |}
  | RoleDetailList =>
      {| policies := policies self; user_detail_list := user_detail_list self;
         group_detail_list := group_detail_list self;
         role_detail_list := l; findings := findings self |}
  end.

(** *** The managed-policy classifier *)

(** The loop over the attached managed policies of the principals of one
    list, appending the names that pass [test] on the ARN. *)
Definition append_attached (test : string -> bool)
    (principals : list PrincipalDetail) (acc : list string) : list string :=
  fold_left (fun acc principal =>
    fold_left (fun acc attached_managed_policy =>
      if test (amp_PolicyArn attached_managed_policy)
      then acc ++ [amp_PolicyName attached_managed_policy]
      else acc)
      (attached_managed_policies principal) acc)
    principals acc.

Definition is_aws (policy_arn : string) : bool := contains AWS_SEGMENT policy_arn.
Definition is_customer (policy_arn : string) : bool :=
  negb (contains AWS_SEGMENT policy_arn).

Definition _aws_managed_policies_in_use (self : t) : list string :=
  let aws_managed_policies := [] in
  let aws_managed_policies :=
    fold_left (fun acc policy =>
      if is_aws (policy_arn policy) then acc ++ [policy_name policy] else acc)
      (policies self) aws_managed_policies in
  (* Policies attached to groups *)
  let aws_managed_policies :=
    append_attached is_aws (group_detail_list self) aws_managed_policies in
  (* Policies attached to users *)
  let aws_managed_policies :=
    append_attached is_aws (user_detail_list self) aws_managed_policies in
  (* Policies attached to roles *)
  let aws_managed_policies :=
    append_attached is_aws (role_detail_list self) aws_managed_policies in
  dict_fromkeys aws_managed_policies.

Definition _customer_managed_policies_in_use (self : t) : list string :=
  let customer_managed_policies := [] in
  let customer_managed_policies :=
    fold_left (fun acc policy =>
      if is_customer (policy_arn policy) then acc ++ [policy_name policy] else acc)
      (policies self) customer_managed_policies in
  (* Policies attached to groups *)
  let customer_managed_policies :=
    append_attached is_customer (group_detail_list self) customer_managed_policies in
  (* Policies attached to users *)
  let customer_managed_policies :=
    append_attached is_customer (user_detail_list self) customer_managed_policies in
  (* Policies attached to roles *)
  let customer_managed_policies :=
    append_attached is_customer (role_detail_list self) customer_managed_policies in
  dict_fromkeys customer_managed_policies.

(** *** The properties [principals] and [principal_policy_mapping] *)

Definition principals (self : t) : list PrincipalDetail :=
  user_detail_list self ++ group_detail_list self ++ role_detail_list self.

Definition inline_row (principal : PrincipalDetail) (inline_policy : PolicyEntry)
    (group_membership : option (list string)) : MappingRow :=
  {| row_Principal := name principal;
     row_Type := principal_type principal;
     row_PolicyType := "Inline";
     row_ManagedBy := "Customer";
     row_PolicyName := pe_PolicyName inline_policy;
     row_GroupMembership := group_membership |}.

Definition managed_row (principal : PrincipalDetail)
    (attached_managed_policy : AttachedManagedPolicy)
    (group_membership : option (list string)) : MappingRow :=
  let managed_by :=
    if contains AWS_SEGMENT (amp_PolicyArn attached_managed_policy)
    then "AWS" else "Customer" in
  {| row_Principal := name principal;
     row_Type := principal_type principal;
     row_PolicyType := "Managed";
     row_ManagedBy := managed_by;
     row_PolicyName := amp_PolicyName attached_managed_policy;
     row_GroupMembership := group_membership |}.

(** The two loops that append the inline and the attached managed policies
    of [source] as rows of [principal]: [source] is the principal itself
    for its own policies and one of its groups for the inherited ones. *)
Definition append_policy_rows (principal source : PrincipalDetail)
    (group_membership : option (list string))
    (mapping : list MappingRow) : list MappingRow :=
  let mapping :=
    if truthy (inline_principal_policies source)
    then fold_left (fun mapping inline_policy =>
           mapping ++ [inline_row principal inline_policy group_membership])
           (inline_principal_policies source) mapping
    else mapping in
  if truthy (attached_managed_policies source)
  then fold_left (fun mapping attached_managed_policy =>
         mapping ++ [managed_row principal attached_managed_policy group_membership])
         (attached_managed_policies source) mapping
  else mapping.

(** The group loop of a user: every principal of the account whose type is
    ["Group"] and whose name equals the membership, compared with [==]. *)
Definition append_group_rows (all : list PrincipalDetail)
    (principal : PrincipalDetail) (mapping : list MappingRow) : list MappingRow :=
  if principal_type principal =? "User" then
    let group_memberships := group_member principal in
    fold_left (fun mapping group_membership =>
      fold_left (fun mapping some_principal =>
        if (principal_type some_principal =? "Group")
           && (name some_principal =? group_membership)
        then append_policy_rows principal some_principal
               (Some (group_member principal)) mapping
        else mapping)
        all mapping)
      group_memberships mapping
  else mapping.

Definition unsorted_principal_policy_mapping (self : t) : list MappingRow :=
  fold_left (fun mapping principal =>
    let mapping := append_policy_rows principal principal None mapping in
    append_group_rows (principals self) principal mapping)
    (principals self) [].

Definition principal_policy_mapping (self : t) : list MappingRow :=
  sorted key_ltb row_key (unsorted_principal_policy_mapping self).

Section Scan.

Variable X : Collaborators.

(** *** The scan *)

(** The statement loop of one policy document. *)
Definition collect_actions (exclusions : Exclusions.t) (modify_only : bool)
    (stmts : list Statement) : list string :=
  fold_left (fun actions_missing_resource_constraints statement =>
    if modify_only then
      if effect statement =? "Allow"
      then actions_missing_resource_constraints ++
           stmt_missing_resource_constraints_for_modify_actions X statement exclusions
      else actions_missing_resource_constraints
    else
      if effect statement =? "Allow"
      then actions_missing_resource_constraints ++
           stmt_missing_resource_constraints X statement exclusions
      else actions_missing_resource_constraints)
    stmts [].

Definition scan_policy (exclusions : Exclusions.t) (modify_only : bool)
    (self : t) (policy : PolicyDetail) : t :=
  if is_policy_excluded X exclusions (policy_name policy)
     || is_policy_excluded X exclusions (full_policy_path policy)
  then self
  else
    let actions_missing_resource_constraints :=
      collect_actions exclusions modify_only
        (statements (policy_document policy)) in
    if truthy actions_missing_resource_constraints then
      let actions_missing_resource_constraints :=
        dict_fromkeys actions_missing_resource_constraints in
      let actions_missing_resource_constraints :=
        list_sort actions_missing_resource_constraints in
      let policy_finding :=
        PolicyFinding (policy_name policy) (policy_arn policy)
          actions_missing_resource_constraints (policy_document policy)
          exclusions in
      set_findings (Findings.add_policy_finding (findings self) policy_finding) self
    else self.

Definition scan_policy_details (exclusions : pyobj) (modify_only : bool)
    : M t unit :=
  match exclusions with
  | PyExclusions ex =>
      modify (fun self => fold_left (scan_policy ex modify_only) (policies self) self)
  | _ => raise (Exception NOT_EXCLUSIONS_MSG)
  end.

(** The dict [groups] of the resolver: group name to the list of the names
    of its users, in insertion order. *)
Definition groups_dict : Type := list (string * list string).

Definition has_key (k : string) (d : groups_dict) : bool :=
  existsb (fun kv => fst kv =? k) d.

(** [if group not in groups: groups[group] = [x] else: groups[group].append(x)] *)
Definition groups_append (d : groups_dict) (group x : string) : groups_dict :=
  if negb (has_key group d)
  then d ++ [(group, [x])]
  else map (fun kv => if fst kv =? group then (fst kv, snd kv ++ [x]) else kv) d.

(** The first loop of [scan_principal_type_details]. *)
Definition collect_groups (principal_list : list PrincipalDetail) : groups_dict :=
  fold_left (fun groups principal =>
    if principal_type principal =? "Users" then
      if truthy (group_member principal) then
        fold_left (fun groups group => groups_append groups group (name principal))
          (group_member principal) groups
      else groups
    else groups)
    principal_list [].

(** The body of the second loop: what it does to one principal. *)
Definition resolve_members (groups : groups_dict) (principal : PrincipalDetail)
    : PrincipalDetail :=
  if principal_type principal =? "Groups" then
    fold_left (fun principal kv =>
      let group := fst kv in
      if lower group =? lower (name principal)
      then set_members principal (members principal ++ snd kv)
      else principal)
      groups principal
  else principal.

(** The body of the policy loop of the third loop. *)
Definition scan_principal_policy (exclusions : Exclusions.t) (modify_only : bool)
    (principal : PrincipalDetail) (self : t) (policy : PolicyEntry) : t :=
  if is_policy_excluded X exclusions (pe_PolicyName policy) then self
  else if is_principal_excluded X principal exclusions then self
  else
    let policy_document := pe_PolicyDocument policy in
    let actions_missing_resource_constraints :=
      collect_actions exclusions modify_only (statements policy_document) in
    if truthy actions_missing_resource_constraints then
      if principal_type principal =? "User" then
        let user_finding :=
          UserFinding (pe_PolicyName policy) (arn principal)
            actions_missing_resource_constraints (pe_PolicyDocument policy)
            exclusions (attached_managed_policies principal)
            (group_member principal) in
        set_findings (Findings.add_user_finding (findings self) user_finding) self
      else if principal_type principal =? "Group" then
        let group_finding :=
          GroupFinding (pe_PolicyName policy) (arn principal)
            actions_missing_resource_constraints (pe_PolicyDocument policy)
            exclusions (members principal)
            (attached_managed_policies principal) in
        set_findings (Findings.add_group_finding (findings self) group_finding) self
      else if principal_type principal =? "Role" then
        let role_finding :=
          RoleFinding (pe_PolicyName policy) (arn principal)
            actions_missing_resource_constraints (pe_PolicyDocument policy)
            exclusions (assume_role_policy_document principal)
            (attached_managed_policies principal) in
        set_findings (Findings.add_role_finding (findings self) role_finding) self
      else self
    else self.

Definition scan_principal (exclusions : Exclusions.t) (modify_only : bool)
    (self : t) (principal : PrincipalDetail) : t :=
  fold_left (scan_principal_policy exclusions modify_only principal)
    (policy_list principal) self.

Definition scan_principal_type_details
    (principal_type_detail_list : detail_list_ref)
    (exclusions : pyobj) (modify_only : bool) : M t unit :=
  match exclusions with
  | PyExclusions ex =>
      self <- get ;;
      let groups := collect_groups (deref principal_type_detail_list self) in
      modify (fun self =>
        assign principal_type_detail_list
          (map (resolve_members groups) (deref principal_type_detail_list self))
          self) ;;;
      modify (fun self =>
        fold_left (scan_principal ex modify_only)
          (deref principal_type_detail_list self) self)
  | _ => raise (Exception NOT_EXCLUSIONS_MSG)
  end.

Definition missing_resource_constraints (exclusions : pyobj) (modify_only : bool)
    : M t Findings.Json :=
  match exclusions with
  | PyExclusions ex =>
      modify (set_findings (Findings.new ex)) ;;;
      scan_principal_type_details UserDetailList exclusions modify_only ;;;
      scan_principal_type_details GroupDetailList exclusions modify_only ;;;
      scan_principal_type_details RoleDetailList exclusions modify_only ;;;
      modify (fun self =>
        set_findings
          (Findings.set_principal_policy_mapping (findings self)
             (principal_policy_mapping self))
          self) ;;;
      scan_policy_details exclusions modify_only ;;;
      self <- get ;;
      ret (Findings.json (findings self))
  | _ => raise (Exception NOT_EXCLUSIONS_MSG)
  end.

End Scan.

(** *** The properties [groups], [roles] and [users] *)

(** The loop that appends the name of every principal of a list. *)
Definition names_of (principal_list : list PrincipalDetail) : list string :=
  fold_left (fun names principal => names ++ [name principal]) principal_list [].

Definition groups (self : t) : list string := names_of (group_detail_list self).
Definition roles (self : t) : list string := names_of (role_detail_list self).
Definition users (self : t) : list string := names_of (user_detail_list self).

End AuthorizationDetails.

(* ================================================================= *)
(** ** class PrincipalPolicyMappingEntry *)

Module PrincipalPolicyMappingEntry.

Record t : Type := {
  principal_name : string;
  principal_type : string;
  policy_type : string;
  managed_by : string;
  policy_name : string;
  comment : option (list string)
}.

(** [if entry.comment:] is false on [None] and on the empty list. *)
Definition comment_truthy (e : t) : bool :=
  match comment e with
  | Some c => truthy c
  | None => false
  end.

(** The groups [for g in entry.comment] runs over, once the test above has
    passed. *)
Definition comment_list (e : t) : list string :=
  match comment e with
  | Some c => c
  | None => []
  end.

Definition json_key (e : t) : Key.t :=
  itemgetter4 (principal_type e) (principal_name e) (policy_type e) (policy_name e).

End PrincipalPolicyMappingEntry.

(* ================================================================= *)
(** ** class PrincipalPolicyMapping *)

Module PrincipalPolicyMapping.

Module Entry := PrincipalPolicyMappingEntry.

Record t : Type := { entries : list Entry.t }.

(** [PrincipalPolicyMapping()] *)
Definition new : t := {| entries := [] |}.

(** [add]: the argument is an entry by its type, the [isinstance] test of
    the source always passes. *)
Definition add (self : t) (principal_policy_mapping_entry : Entry.t) : t :=
  {| entries := entries self ++ [principal_policy_mapping_entry] |}.

Definition add_with_detail (self : t)
    (principal_name principal_type policy_type managed_by policy_name : string)
    (comment : option (list string)) : t :=
  add self
    {| Entry.principal_name := principal_name;
       Entry.principal_type := principal_type;
       Entry.policy_type := policy_type;
       Entry.managed_by := managed_by;
       Entry.policy_name := policy_name;
       Entry.comment := comment |}.

(** The entries are records already; [json] sorts them. *)
Definition json (self : t) : list Entry.t :=
  sorted key_ltb Entry.json_key (entries self).

Definition of_type (ty : string) (self : t) : list Entry.t :=
  fold_left (fun result entry =>
    if Entry.principal_type entry =? ty then result ++ [entry] else result)
    (entries self) [].

Definition users (self : t) : list Entry.t := of_type "User" self.
Definition groups (self : t) : list Entry.t := of_type "Group" self.
Definition roles (self : t) : list Entry.t := of_type "Role" self.

Definition FILTER_NOT_EXCLUSIONS_MSG : string :=
  "The exclusions provided is not an Exclusions type object. Please supply an Exclusions object and try again.".

(** The loop over [self.users]. *)
Definition filter_users (self : t) (exclusions : Exclusions.t)
    (filtered_principal_policy_mapping : t) : t :=
  fold_left (fun filtered user_entry =>
    if negb (in_list (lower (Entry.principal_name user_entry))
               (Exclusions.users exclusions)) then
      if negb (in_list (lower (Entry.policy_name user_entry))
                 (Exclusions.policies exclusions)) then
        if Entry.comment_truthy user_entry then
          fold_left (fun filtered group_name =>
            if negb (in_list (lower group_name) (Exclusions.groups exclusions))
            then add filtered user_entry
            else filtered)
            (Entry.comment_list user_entry) filtered
        else filtered
      else filtered
    else filtered)
    (users self) filtered_principal_policy_mapping.

(** The list [non_excluded_groups], rebuilt for every group entry from the
    entries the filtered mapping holds at that moment. *)
Definition non_excluded_groups (filtered : t) : list string :=
  fold_left (fun acc user_entry =>
    if Entry.comment_truthy user_entry then
      fold_left (fun acc user_group_membership =>
        acc ++ [lower user_group_membership])
        (Entry.comment_list user_entry) acc
    else acc)
    (entries filtered) [].

(** The loop over [self.groups], as a loop over the list [l] it runs
    over. *)
Definition group_loop (exclusions : Exclusions.t) (l : list Entry.t)
    (filtered_principal_policy_mapping : t) : t :=
  fold_left (fun filtered group_entry =>
    if negb (in_list (lower (Entry.principal_name group_entry))
               (Exclusions.groups exclusions)) then
      if negb (in_list (lower (Entry.policy_name group_entry))
                 (Exclusions.policies exclusions)) then
        if in_list (lower (Entry.principal_name group_entry))
             (non_excluded_groups filtered)
        then add filtered group_entry
        else filtered
      else filtered
    else filtered)
    l filtered_principal_policy_mapping.

Definition filter_groups (self : t) (exclusions : Exclusions.t)
    (filtered_principal_policy_mapping : t) : t :=
  group_loop exclusions (groups self) filtered_principal_policy_mapping.

(** The loop over [self.roles]. *)
Definition filter_roles (self : t) (exclusions : Exclusions.t)
    (filtered_principal_policy_mapping : t) : t :=
  fold_left (fun filtered role_entry =>
    if negb (in_list (lower (Entry.principal_name role_entry))
               (Exclusions.roles exclusions)) then
      if negb (in_list (lower (Entry.policy_name role_entry))
                 (Exclusions.policies exclusions))
      then add filtered role_entry
      else filtered
    else filtered)
    (roles self) filtered_principal_policy_mapping.

Definition get_post_exclusion_principal_policy_mapping (exclusions : pyobj)
    : M t t :=
  match exclusions with
  | PyExclusions ex =>
      self <- get ;;
      let filtered_principal_policy_mapping := new in
      let filtered_principal_policy_mapping :=
        filter_users self ex filtered_principal_policy_mapping in
      let filtered_principal_policy_mapping :=
        filter_groups self ex filtered_principal_policy_mapping in
      let filtered_principal_policy_mapping :=
        filter_roles self ex filtered_principal_policy_mapping in
      ret filtered_principal_policy_mapping
  | _ => raise (Exception FILTER_NOT_EXCLUSIONS_MSG)
  end.

(** *** [add], called with any object *)

(** What a caller may hand to [add]: an entry, or something else. *)
Inductive added_object : Type :=
| AnEntry (e : Entry.t)
| NotAnEntry (o : pyobj).

Definition ADD_NOT_ENTRY_MSG : string :=
  "This should be the object type PrincipalPolicyMappingEntry. Please try again".

(** [add], with its [isinstance] test. *)
Definition add_object (principal_policy_mapping_entry : added_object) : M t unit :=
  match principal_policy_mapping_entry with
  | AnEntry e => modify (fun self => add self e)
  | NotAnEntry _ => raise (Exception ADD_NOT_ENTRY_MSG)
  end.

End PrincipalPolicyMapping.

(* ================================================================= *)
(** ** Definitions the statements use *)

(** The list of the first occurrences of the elements of [l], in the
    order of [l]: the head stays, and is removed from what follows. *)
Fixpoint first_occurrences (l : list string) : list string :=
  match l with
  | [] => []
  | x :: l' => x :: filter (fun y => negb (y =? x)) (first_occurrences l')
  end.


(** *** The managed-policy classifier, as a specification *)

(** The (name, ARN) pairs of the standalone policies and of the attached
    managed policies of the principals of a list, in order. *)
Definition standalone_pairs (self : AuthorizationDetails.t) : list (string * string) :=
  map (fun policy => (policy_name policy, policy_arn policy))
    (AuthorizationDetails.policies self).

Definition attached_pairs (l : list PrincipalDetail) : list (string * string) :=
  flat_map (fun principal =>
    map (fun a => (amp_PolicyName a, amp_PolicyArn a))
      (attached_managed_policies principal)) l.

(** The names of the pairs whose ARN passes the test. *)
Definition classify (test : string -> bool) (pairs : list (string * string))
    : list string :=
  map fst (filter (fun na => test (snd na)) pairs).

(** Standalone policies, then groups, then users, then roles. *)
Definition observed_groups_first (self : AuthorizationDetails.t)
    : list (string * string) :=
  standalone_pairs self
  ++ attached_pairs (AuthorizationDetails.group_detail_list self)
  ++ attached_pairs (AuthorizationDetails.user_detail_list self)
  ++ attached_pairs (AuthorizationDetails.role_detail_list self).

(** Standalone policies, then users, then groups, then roles. *)
Definition observed_users_first (self : AuthorizationDetails.t)
    : list (string * string) :=
  standalone_pairs self
  ++ attached_pairs (AuthorizationDetails.user_detail_list self)
  ++ attached_pairs (AuthorizationDetails.group_detail_list self)
  ++ attached_pairs (AuthorizationDetails.role_detail_list self).

(** *** Sample data *)

Definition empty_document : PolicyDocument := {| statements := [] |}.

Definition principal (ty nm : string) (inline : list PolicyEntry)
    (attached : list AttachedManagedPolicy) (memberships : list string)
    : PrincipalDetail :=
  {| name := nm; arn := "arn:aws:iam::123456789012:" ++ lower ty ++ "/" ++ nm;
     principal_type := ty;
     inline_principal_policies := inline;
     attached_managed_policies := attached;
     policy_list := inline;
     group_member := memberships;
     members := [];
     assume_role_policy_document := None |}.

Definition no_exclusions : Exclusions.t :=
  {| Exclusions.users := []; Exclusions.groups := [];
     Exclusions.roles := []; Exclusions.policies := [] |}.

Definition account (policies : list PolicyDetail)
    (users groups roles : list PrincipalDetail) : AuthorizationDetails.t :=
  {| AuthorizationDetails.policies := policies;
     AuthorizationDetails.user_detail_list := users;
     AuthorizationDetails.group_detail_list := groups;
     AuthorizationDetails.role_detail_list := roles;
     AuthorizationDetails.findings := Findings.new no_exclusions |}.

Definition ReadOnlyAccess : AttachedManagedPolicy :=
  {| amp_PolicyName := "ReadOnlyAccess";
     amp_PolicyArn := "arn:aws:iam::aws:policy/ReadOnlyAccess" |}.

Definition AdministratorAccess : AttachedManagedPolicy :=
  {| amp_PolicyName := "AdministratorAccess";
     amp_PolicyArn := "arn:aws:iam::aws:policy/AdministratorAccess" |}.

(** A user with one AWS-managed policy and a group with another. *)
Definition account_user_and_group : AuthorizationDetails.t :=
  account []
    [principal "User" "alice" [] [ReadOnlyAccess] ["admins"]]
    [principal "Group" "admins" [] [AdministratorAccess] []]
    [].

(** *** The mapping filter, as a specification *)

Definition entry_eq_dec (a b : PrincipalPolicyMappingEntry.t) : {a = b} + {a <> b}.
Proof.
  decide equality; try apply string_dec.
  decide equality. apply list_eq_dec, string_dec.
Defined.

(** What [get_post_exclusion_principal_policy_mapping] returns on an
    [Exclusions] object. *)
Definition filtered_mapping (self : PrincipalPolicyMapping.t)
    (ex : Exclusions.t) : PrincipalPolicyMapping.t :=
  PrincipalPolicyMapping.filter_roles self ex
    (PrincipalPolicyMapping.filter_groups self ex
       (PrincipalPolicyMapping.filter_users self ex PrincipalPolicyMapping.new)).

(** The filtered mapping as it stands when the loop over the groups
    starts: the user entries that survived. *)
Definition surviving_users (self : PrincipalPolicyMapping.t)
    (ex : Exclusions.t) : list PrincipalPolicyMappingEntry.t :=
  PrincipalPolicyMapping.entries
    (PrincipalPolicyMapping.filter_users self ex PrincipalPolicyMapping.new).

(** The groups of the comment of an entry that are not excluded. *)
Definition non_excluded_comment_groups (ex : Exclusions.t)
    (e : PrincipalPolicyMappingEntry.t) : list string :=
  filter (fun g => negb (in_list (lower g) (Exclusions.groups ex)))
    (PrincipalPolicyMappingEntry.comment_list e).

Definition user_not_excluded (ex : Exclusions.t)
    (e : PrincipalPolicyMappingEntry.t) : bool :=
  negb (in_list (lower (PrincipalPolicyMappingEntry.principal_name e))
          (Exclusions.users ex)).

Definition group_not_excluded (ex : Exclusions.t)
    (e : PrincipalPolicyMappingEntry.t) : bool :=
  negb (in_list (lower (PrincipalPolicyMappingEntry.principal_name e))
          (Exclusions.groups ex)).

Definition role_not_excluded (ex : Exclusions.t)
    (e : PrincipalPolicyMappingEntry.t) : bool :=
  negb (in_list (lower (PrincipalPolicyMappingEntry.principal_name e))
          (Exclusions.roles ex)).

Definition policy_not_excluded (ex : Exclusions.t)
    (e : PrincipalPolicyMappingEntry.t) : bool :=
  negb (in_list (lower (PrincipalPolicyMappingEntry.policy_name e))
          (Exclusions.policies ex)).

(** The copies of a user entry the first loop appends. *)
Definition user_copies (ex : Exclusions.t) (e : PrincipalPolicyMappingEntry.t)
    : list PrincipalPolicyMappingEntry.t :=
  if user_not_excluded ex e && policy_not_excluded ex e
  then map (fun _ => e) (non_excluded_comment_groups ex e)
  else [].


(** The lower-cased comments of a list of entries. *)
Definition lowered_comments (l : list PrincipalPolicyMappingEntry.t)
    : list string :=
  flat_map (fun e => map lower (PrincipalPolicyMappingEntry.comment_list e)) l.

Definition mapping_entry (ty nm policy : string) (c : option (list string))
    : PrincipalPolicyMappingEntry.t :=
  {| PrincipalPolicyMappingEntry.principal_name := nm;
     PrincipalPolicyMappingEntry.principal_type := ty;
     PrincipalPolicyMappingEntry.policy_type := "Inline";
     PrincipalPolicyMappingEntry.managed_by := "Customer";
     PrincipalPolicyMappingEntry.policy_name := policy;
     PrincipalPolicyMappingEntry.comment := c |}.

(** alice inherits [AdminAccess] from two groups, bob has a policy of his
    own, and the group [admins] has its own entry. *)
Definition sample_mapping : PrincipalPolicyMapping.t :=
  {| PrincipalPolicyMapping.entries :=
       [ mapping_entry "User" "alice" "AdminAccess" (Some ["Admins"; "Ops"]);
         mapping_entry "User" "bob" "OwnPolicy" None;
         mapping_entry "Group" "admins" "AdminAccess" None;
         mapping_entry "Group" "auditors" "ReadAll" None;
         mapping_entry "Role" "deployer" "Deploy" None ] |}.

Definition exclude_ops : Exclusions.t :=
  {| Exclusions.users := []; Exclusions.groups := ["ops"];
     Exclusions.roles := []; Exclusions.policies := [] |}.

(** A group entry that carries a comment of its own. *)
Definition mapping_with_group_comment : PrincipalPolicyMapping.t :=
  {| PrincipalPolicyMapping.entries :=
       [ mapping_entry "User" "alice" "AdminAccess" (Some ["admins"]);
         mapping_entry "Group" "admins" "AdminAccess" (Some ["auditors"]);
         mapping_entry "Group" "auditors" "ReadAll" None ] |}.

(** *** The mapping builder, as a specification *)

(** The rows of [principal] for the policies of [source]. *)
Definition policy_rows (principal source : PrincipalDetail)
    (group_membership : option (list string)) : list MappingRow :=
  map (fun inline_policy =>
         AuthorizationDetails.inline_row principal inline_policy group_membership)
    (inline_principal_policies source)
  ++ map (fun attached_managed_policy =>
            AuthorizationDetails.managed_row principal attached_managed_policy
              group_membership)
       (attached_managed_policies source).

(** The rows a user inherits: for each of its memberships, the policies
    of every Group principal whose name is that membership exactly. *)
Definition group_rows (all : list PrincipalDetail) (principal : PrincipalDetail)
    : list MappingRow :=
  if principal_type principal =? "User" then
    flat_map (fun group_membership =>
      flat_map (fun some_principal =>
        if (principal_type some_principal =? "Group")
           && (name some_principal =? group_membership)
        then policy_rows principal some_principal (Some (group_member principal))
        else [])
        all)
      (group_member principal)
  else [].

Definition principal_rows (all : list PrincipalDetail) (principal : PrincipalDetail)
    : list MappingRow :=
  policy_rows principal principal None ++ group_rows all principal.

(** [a] does not come after [b]: [not (key b < key a)]. *)
Definition key_le (a b : Key.t) : Prop := key_ltb b a = false.

Definition rows_sorted (l : list MappingRow) : Prop :=
  StronglySorted (fun a b => key_le (row_key a) (row_key b)) l.

Definition entries_sorted (l : list PrincipalPolicyMappingEntry.t) : Prop :=
  StronglySorted (fun a b =>
    key_le (PrincipalPolicyMappingEntry.json_key a)
           (PrincipalPolicyMappingEntry.json_key b)) l.

(** *** Reordering a snapshot *)

(** The same principal with its policies in another order. *)
Definition principal_perm (p q : PrincipalDetail) : Prop :=
  name p = name q /\ arn p = arn q /\ principal_type p = principal_type q
  /\ group_member p = group_member q /\ members p = members q
  /\ assume_role_policy_document p = assume_role_policy_document q
  /\ Permutation (inline_principal_policies p) (inline_principal_policies q)
  /\ Permutation (attached_managed_policies p) (attached_managed_policies q)
  /\ Permutation (policy_list p) (policy_list q).

(** The same principals in another order, each with its policies in
    another order. *)
Definition principals_perm (l l' : list PrincipalDetail) : Prop :=
  exists m, Forall2 principal_perm l m /\ Permutation m l'.

Definition snapshot_perm (s s' : AuthorizationDetails.t) : Prop :=
  Permutation (AuthorizationDetails.policies s) (AuthorizationDetails.policies s')
  /\ principals_perm (AuthorizationDetails.user_detail_list s)
       (AuthorizationDetails.user_detail_list s')
  /\ principals_perm (AuthorizationDetails.group_detail_list s)
       (AuthorizationDetails.group_detail_list s')
  /\ principals_perm (AuthorizationDetails.role_detail_list s)
       (AuthorizationDetails.role_detail_list s').

(** No two different rows with the same sort key. *)
Definition keys_identify_rows (l : list MappingRow) : Prop :=
  forall a b, In a l -> In b l -> row_key a = row_key b -> a = b.

(** A customer-managed policy that has the name of an AWS-managed one. *)
Definition OwnAdministratorAccess : AttachedManagedPolicy :=
  {| amp_PolicyName := "AdministratorAccess";
     amp_PolicyArn := "arn:aws:iam::123456789012:policy/AdministratorAccess" |}.

Definition account_same_name_aws_first : AuthorizationDetails.t :=
  account []
    [principal "User" "alice" [] [AdministratorAccess; OwnAdministratorAccess] []]
    [] [].

Definition account_same_name_customer_first : AuthorizationDetails.t :=
  account []
    [principal "User" "alice" [] [OwnAdministratorAccess; AdministratorAccess] []]
    [] [].

Definition account_two_policies : AuthorizationDetails.t :=
  account []
    [principal "User" "alice" [] [ReadOnlyAccess; AdministratorAccess] []]
    [] [].

Definition account_two_policies_swapped : AuthorizationDetails.t :=
  account []
    [principal "User" "alice" [] [AdministratorAccess; ReadOnlyAccess] []]
    [] [].

Definition AdminAccess : PolicyEntry :=
  {| pe_PolicyName := "AdminAccess"; pe_PolicyDocument := empty_document |}.

(** alice declares the group ["Admins"]; the group principal is named
    ["admins"]. *)
Definition alice_in_Admins : PrincipalDetail :=
  principal "User" "alice" [] [] ["Admins"].

Definition account_case_mismatch : AuthorizationDetails.t :=
  account [] [alice_in_Admins]
    [principal "Group" "admins" [AdminAccess] [AdministratorAccess] []] [].

(** *** The scan: relations and sample data *)

(** [q] is [p], or [p] carries the tag ["Groups"] and [q] is [p] with
    other members: the principals the resolver may have written into. *)
Definition members_changed (p q : PrincipalDetail) : Prop :=
  q = p \/ (principal_type p = "Groups" /\ exists m, q = set_members p m).

(** Two states of the same account: the same policies, and principals
    that differ at most as [members_changed] allows. The findings are not
    compared. *)
Definition same_account (s s' : AuthorizationDetails.t) : Prop :=
  AuthorizationDetails.policies s = AuthorizationDetails.policies s'
  /\ Forall2 members_changed (AuthorizationDetails.user_detail_list s)
       (AuthorizationDetails.user_detail_list s')
  /\ Forall2 members_changed (AuthorizationDetails.group_detail_list s)
       (AuthorizationDetails.group_detail_list s')
  /\ Forall2 members_changed (AuthorizationDetails.role_detail_list s)
       (AuthorizationDetails.role_detail_list s').

(** The principals of a snapshot carry the tags ["User"], ["Group"] and
    ["Role"], the ones [scan_principal_type_details] and
    [principal_policy_mapping] dispatch on. *)
Definition singular_tag (p : PrincipalDetail) : Prop :=
  principal_type p = "User" \/ principal_type p = "Group"
  \/ principal_type p = "Role".

(** Collaborators for the examples: a statement is reported with all its
    actions, and a name is excluded when its lower-cased form is listed. *)
Definition simple_collaborators : Collaborators :=
  {| stmt_missing_resource_constraints_for_modify_actions :=
       fun statement _ => actions statement;
     stmt_missing_resource_constraints :=
       fun statement _ => actions statement;
     is_policy_excluded :=
       fun ex policy => in_list (lower policy) (Exclusions.policies ex);
     is_principal_excluded :=
       fun principal ex =>
         if principal_type principal =? "User"
         then in_list (lower (name principal)) (Exclusions.users ex)
         else if principal_type principal =? "Group"
         then in_list (lower (name principal)) (Exclusions.groups ex)
         else in_list (lower (name principal)) (Exclusions.roles ex) |}.

Definition allow (action : string) : Statement :=
  {| effect := "Allow"; actions := [action]; resources := ["*"] |}.

(** Three Allow statements; the first and the last grant the same
    action. *)
Definition bucket_document : PolicyDocument :=
  {| statements :=
       [allow "s3:PutObject"; allow "ec2:TerminateInstances"; allow "s3:PutObject"] |}.

Definition BucketPolicy : PolicyEntry :=
  {| pe_PolicyName := "BucketPolicy"; pe_PolicyDocument := bucket_document |}.

Definition BucketPolicyDetail : PolicyDetail :=
  {| policy_name := "BucketPolicy";
     policy_arn := "arn:aws:iam::123456789012:policy/BucketPolicy";
     full_policy_path := "/BucketPolicy";
     policy_document := bucket_document |}.

(** bob has [BucketPolicy] inline; the same document is a standalone
    policy of the account. *)
Definition account_bob : AuthorizationDetails.t :=
  account [BucketPolicyDetail]
    [principal "User" "bob" [BucketPolicy] [] []] [] [].

Definition delete_document : PolicyDocument :=
  {| statements := [allow "s3:DeleteBucket"] |}.

Definition AdminPolicy : PolicyEntry :=
  {| pe_PolicyName := "AdminAccess"; pe_PolicyDocument := delete_document |}.

(** alice is a member of the group [admins], which has an inline
    policy. *)
Definition account_alice_admins : AuthorizationDetails.t :=
  account []
    [principal "User" "alice" [] [] ["admins"]]
    [principal "Group" "admins" [AdminPolicy] [] []]
    [].

(** The list [principal_type_detail_list.principals] after the first two
    loops of [scan_principal_type_details]. *)
Definition resolved (l : list PrincipalDetail) : list PrincipalDetail :=
  map (AuthorizationDetails.resolve_members (AuthorizationDetails.collect_groups l)) l.

(** The object after [scan_principal_type_details] on an [Exclusions]
    object. *)
Definition after_principal_scan (X : Collaborators)
    (r : AuthorizationDetails.detail_list_ref) (ex : Exclusions.t)
    (modify_only : bool) (s : AuthorizationDetails.t) : AuthorizationDetails.t :=
  fold_left (AuthorizationDetails.scan_principal X ex modify_only)
    (resolved (AuthorizationDetails.deref r s))
    (AuthorizationDetails.assign r (resolved (AuthorizationDetails.deref r s)) s).

(** The object after [missing_resource_constraints] on an [Exclusions]
    object. *)
Definition after_scan (X : Collaborators) (ex : Exclusions.t)
    (modify_only : bool) (s : AuthorizationDetails.t) : AuthorizationDetails.t :=
  let s := AuthorizationDetails.set_findings (Findings.new ex) s in
  let s := after_principal_scan X AuthorizationDetails.UserDetailList ex modify_only s in
  let s := after_principal_scan X AuthorizationDetails.GroupDetailList ex modify_only s in
  let s := after_principal_scan X AuthorizationDetails.RoleDetailList ex modify_only s in
  let s := AuthorizationDetails.set_findings
             (Findings.set_principal_policy_mapping
                (AuthorizationDetails.findings s)
                (AuthorizationDetails.principal_policy_mapping s)) s in
  fold_left (AuthorizationDetails.scan_policy X ex modify_only)
    (AuthorizationDetails.policies s) s.

(** All the findings of a snapshot. *)
Definition all_findings (j : Findings.Json) : list Finding :=
  Findings.json_users j ++ Findings.json_groups j ++ Findings.json_roles j
  ++ Findings.json_policies j.

(** Every finding the aggregator holds has at least one action. *)
Definition findings_have_actions (f : Findings.t) : Prop :=
  Forall (fun x => finding_actions x <> []) (Findings.users f)
  /\ Forall (fun x => finding_actions x <> []) (Findings.groups f)
  /\ Forall (fun x => finding_actions x <> []) (Findings.roles f)
  /\ Forall (fun x => finding_actions x <> []) (Findings.policies f).

(** *** Comparing exclusions *)

(** [ex'] excludes at least what [ex] excludes. *)
Definition excludes_more (ex ex' : Exclusions.t) : Prop :=
  incl (Exclusions.users ex) (Exclusions.users ex')
  /\ incl (Exclusions.groups ex) (Exclusions.groups ex')
  /\ incl (Exclusions.roles ex) (Exclusions.roles ex')
  /\ incl (Exclusions.policies ex) (Exclusions.policies ex').

Definition exclude_alice : Exclusions.t :=
  {| Exclusions.users := ["alice"]; Exclusions.groups := [];
     Exclusions.roles := []; Exclusions.policies := [] |}.

(** *** Rows with the same key *)

(** The two keys are the same tuple. *)
Definition key_eqb (a b : Key.t) : bool :=
  match Key.compare a b with Eq => true | _ => false end.

(** The rows of a list that have the key [k], in the order of the list. *)
Definition rows_with_key (k : Key.t) (l : list MappingRow) : list MappingRow :=
  filter (fun r => key_eqb (row_key r) k) l.

Definition entries_with_key (k : Key.t) (l : list PrincipalPolicyMappingEntry.t)
    : list PrincipalPolicyMappingEntry.t :=
  filter (fun e => key_eqb (PrincipalPolicyMappingEntry.json_key e) k) l.

(** alice declares the group [admins] under its exact name. *)
Definition alice_in_admins : PrincipalDetail :=
  principal "User" "alice" [] [] ["admins"; "ops"].

Definition admins_group : PrincipalDetail :=
  principal "Group" "admins" [AdminAccess] [AdministratorAccess] [].

Definition account_exact_match : AuthorizationDetails.t :=
  account [] [alice_in_admins] [admins_group] [].

(** *** The findings of a scan, as a specification *)

(** The finding that one policy of a principal gives, if any. *)
Definition finding_of (X : Collaborators) (ex : Exclusions.t) (modify_only : bool)
    (p : PrincipalDetail) (policy : PolicyEntry) : list Finding :=
  if is_policy_excluded X ex (pe_PolicyName policy) then []
  else if is_principal_excluded X p ex then []
  else
    let collected :=
      AuthorizationDetails.collect_actions X ex modify_only
        (statements (pe_PolicyDocument policy)) in
    match collected with
    | [] => []
    | _ :: _ =>
        if principal_type p =? "User" then
          [UserFinding (pe_PolicyName policy) (arn p) collected
             (pe_PolicyDocument policy) ex (attached_managed_policies p)
             (group_member p)]
        else if principal_type p =? "Group" then
          [GroupFinding (pe_PolicyName policy) (arn p) collected
             (pe_PolicyDocument policy) ex (members p)
             (attached_managed_policies p)]
        else if principal_type p =? "Role" then
          [RoleFinding (pe_PolicyName policy) (arn p) collected
             (pe_PolicyDocument policy) ex (assume_role_policy_document p)
             (attached_managed_policies p)]
        else []
    end.

(** The findings of the principals of a list, in the order of the list
    and of the [policy_list] of each principal. *)
Definition findings_of (X : Collaborators) (ex : Exclusions.t) (modify_only : bool)
    (l : list PrincipalDetail) : list Finding :=
  flat_map (fun p => flat_map (finding_of X ex modify_only p) (policy_list p)) l.

(** The finding that a standalone policy gives, if any. *)
Definition policy_finding_of (X : Collaborators) (ex : Exclusions.t)
    (modify_only : bool) (policy : PolicyDetail) : list Finding :=
  if is_policy_excluded X ex (policy_name policy)
     || is_policy_excluded X ex (full_policy_path policy)
  then []
  else
    match AuthorizationDetails.collect_actions X ex modify_only
            (statements (policy_document policy)) with
    | [] => []
    | a :: collected =>
        [PolicyFinding (policy_name policy) (policy_arn policy)
           (list_sort (dict_fromkeys (a :: collected)))
           (policy_document policy) ex]
    end.

Definition is_user_finding (f : Finding) : bool :=
  match f with UserFinding _ _ _ _ _ _ _ => true | _ => false end.

Definition is_group_finding (f : Finding) : bool :=
  match f with GroupFinding _ _ _ _ _ _ _ => true | _ => false end.

Definition is_role_finding (f : Finding) : bool :=
  match f with RoleFinding _ _ _ _ _ _ _ => true | _ => false end.

(** [add_policy_finding], [add_user_finding], [add_group_finding] or
    [add_role_finding], by the kind of the finding. *)
Definition aggregate (f : Findings.t) (x : Finding) : Findings.t :=
  match x with
  | PolicyFinding _ _ _ _ _ => Findings.add_policy_finding f x
  | UserFinding _ _ _ _ _ _ _ => Findings.add_user_finding f x
  | GroupFinding _ _ _ _ _ _ _ => Findings.add_group_finding f x
  | RoleFinding _ _ _ _ _ _ _ => Findings.add_role_finding f x
  end.

(** A list of strings in strictly increasing order. *)
Definition strictly_sorted (l : list string) : Prop :=
  StronglySorted (fun a b => str_ltb a b = true) l.

Definition deny (action : string) : Statement :=
  {| effect := "Deny"; actions := [action]; resources := ["*"] |}.

Definition deny_document : PolicyDocument :=
  {| statements := [deny "s3:DeleteBucket"; deny "iam:CreateUser"] |}.

Definition DenyPolicy : PolicyEntry :=
  {| pe_PolicyName := "DenyPolicy"; pe_PolicyDocument := deny_document |}.

Definition DenyPolicyDetail : PolicyDetail :=
  {| policy_name := "DenyPolicy";
     policy_arn := "arn:aws:iam::123456789012:policy/DenyPolicy";
     full_policy_path := "/DenyPolicy";
     policy_document := deny_document |}.

(** A string as a sort key: the tuple whose last field it is. *)
Definition string_key (s : string) : Key.t := itemgetter4 "" "" "" s.

(** An account with a standalone policy and a user policy made of Deny
    statements only, beside the policy of bob. *)
Definition account_with_deny : AuthorizationDetails.t :=
  account [DenyPolicyDetail; BucketPolicyDetail]
    [principal "User" "bob" [DenyPolicy; BucketPolicy] [] []] [] [].

(** *** The resolver, as a specification *)

(** The (group, user) pairs that the principals tagged ["Users"] declare,
    in the order of the list and of each [group_member]. *)
Definition declared_pairs (l : list PrincipalDetail) : list (string * string) :=
  flat_map (fun p => map (fun g => (g, name p)) (group_member p))
    (filter (fun p => principal_type p =? "Users") l).

(** The names paired with the group [g], in order. *)
Definition names_for (g : string) (pairs : list (string * string)) : list string :=
  map snd (filter (fun gn => fst gn =? g) pairs).

(** The groups declared, each once, in first-seen order. *)
Definition declared_groups (l : list PrincipalDetail) : list string :=
  first_occurrences (map fst (declared_pairs l)).

(** One step of the first resolver loop: the pair (group, user). *)
Definition append_pair (d : AuthorizationDetails.groups_dict)
    (gn : string * string) : AuthorizationDetails.groups_dict :=
  AuthorizationDetails.groups_append d (fst gn) (snd gn).

(** Principals with the tags the resolver tests. *)
Definition plural_users : list PrincipalDetail :=
  [ principal "Users" "alice" [] [] ["Admins"; "ops"];
    principal "Users" "bob" [] [] ["admins"; "Admins"];
    principal "Groups" "ADMINS" [] [] [] ].

(** *** Exclusions that are not lower-cased *)

Definition is_lower_cased (s : string) : bool := lower s =? s.

(** The exclusions without the names that hold an upper-case letter. *)
Definition lower_cased_only (ex : Exclusions.t) : Exclusions.t :=
  {| Exclusions.users := filter is_lower_cased (Exclusions.users ex);
     Exclusions.groups := filter is_lower_cased (Exclusions.groups ex);
     Exclusions.roles := filter is_lower_cased (Exclusions.roles ex);
     Exclusions.policies := filter is_lower_cased (Exclusions.policies ex) |}.

Definition exclude_Alice_capital : Exclusions.t :=
  {| Exclusions.users := ["Alice"]; Exclusions.groups := [];
     Exclusions.roles := []; Exclusions.policies := [] |}.
(* ================================================================= *)
(** ** Loops that append *)

Section AppendLoops.

Variables A B : Type.

(** A loop whose body appends [f x] to the accumulator builds the
    concatenation of the [f x]. *)
Lemma fold_left_appends (body : list B -> A -> list B) (f : A -> list B) :
  (forall acc x, body acc x = acc ++ f x) ->
  forall l acc, fold_left body l acc = acc ++ flat_map f l.
Proof.
  intros Hbody l; induction l as [|x l IH]; intros acc; simpl.
  - now rewrite app_nil_r.
  - rewrite IH, Hbody. now rewrite <- app_assoc.
Qed.

Lemma fold_left_append_filter (test : A -> bool) (g : A -> B) :
  forall l acc,
    fold_left (fun acc x => if test x then acc ++ [g x] else acc) l acc
    = acc ++ map g (filter test l).
Proof.
  induction l as [|x l IH]; intros acc; simpl.
  - now rewrite app_nil_r.
  - rewrite IH. destruct (test x); simpl; [now rewrite <- app_assoc | reflexivity].
Qed.

Lemma flat_map_nil (f : A -> list B) (l : list A) :
  (forall x, In x l -> f x = []) -> flat_map f l = [].
Proof.
  induction l as [|x l IH]; intros H; simpl; [reflexivity|].
  rewrite (H x) by now left. apply IH. intros y Hy. apply H. now right.
Qed.

Lemma filter_twice (f g : A -> bool) (l : list A) :
  filter f (filter g l) = filter (fun x => f x && g x) l.
Proof.
  induction l as [|x l IH]; simpl; [reflexivity|].
  destruct (g x); simpl; rewrite ?andb_false_r, ?andb_true_r;
    [destruct (f x) |]; now rewrite IH.
Qed.

End AppendLoops.

Lemma in_list_In (x : string) (l : list string) :
  in_list x l = true <-> In x l.
Proof.
  unfold in_list. rewrite existsb_exists. split.
  - intros [y [Hy Heq]]. apply String.eqb_eq in Heq. now subst.
  - intros H. exists x. split; [assumption | apply String.eqb_refl].
Qed.

Lemma in_list_false (x : string) (l : list string) :
  in_list x l = false <-> ~ In x l.
Proof.
  rewrite <- in_list_In. destruct (in_list x l); split; congruence.
Qed.

Lemma in_list_app (x : string) (l1 l2 : list string) :
  in_list x (l1 ++ l2) = in_list x l1 || in_list x l2.
Proof. unfold in_list. apply existsb_app. Qed.

(** *** Deduplication that preserves the first occurrence *)

Lemma dict_fromkeys_from (l keys : list string) :
  fold_left (fun keys k => if in_list k keys then keys else keys ++ [k]) l keys
  = keys ++ filter (fun y => negb (in_list y keys)) (first_occurrences l).
Proof.
  revert keys; induction l as [|x l IH]; intros keys; simpl.
  - now rewrite app_nil_r.
  - rewrite IH. destruct (in_list x keys) eqn:Hx; simpl.
    + f_equal. rewrite filter_twice. apply filter_ext. intros y.
      destruct (in_list y keys) eqn:Hy; simpl; [reflexivity|].
      destruct (String.eqb_spec y x) as [->|]; [congruence | reflexivity].
    + rewrite <- app_assoc. simpl. do 2 f_equal.
      rewrite filter_twice. apply filter_ext. intros y.
      rewrite in_list_app. unfold in_list at 2. simpl.
      now rewrite orb_false_r, negb_orb.
Qed.

(** [list(dict.fromkeys(l))] keeps the first occurrence of each key, in
    order. *)
Lemma dict_fromkeys_first_occurrences (l : list string) :
  dict_fromkeys l = first_occurrences l.
Proof.
  unfold dict_fromkeys. rewrite dict_fromkeys_from. simpl.
  apply filter_true.
Qed.

Lemma first_occurrences_In (x : string) (l : list string) :
  In x (first_occurrences l) <-> In x l.
Proof.
  induction l as [|y l IH]; simpl; [tauto|].
  rewrite filter_In, IH. destruct (String.eqb_spec x y) as [->|Hne]; simpl.
  - tauto.
  - split; [tauto|]. intros [H|H]; [congruence | tauto].
Qed.

Lemma first_occurrences_NoDup (l : list string) : NoDup (first_occurrences l).
Proof.
  induction l as [|y l IH]; simpl; constructor.
  - rewrite filter_In. intros [_ H]. now rewrite String.eqb_refl in H.
  - now apply NoDup_filter.
Qed.

(* ================================================================= *)
(** ** The managed-policy classifier *)

Module ClassifierFacts.
Import AuthorizationDetails.

Lemma classify_app (test : string -> bool) (l1 l2 : list (string * string)) :
  classify test (l1 ++ l2) = classify test l1 ++ classify test l2.
Proof. unfold classify. now rewrite filter_app, map_app. Qed.

Lemma append_attached_classify (test : string -> bool)
    (l : list PrincipalDetail) (acc : list string) :
  append_attached test l acc = acc ++ classify test (attached_pairs l).
Proof.
  unfold append_attached.
  rewrite fold_left_appends with
    (f := fun p => map amp_PolicyName
                     (filter (fun a => test (amp_PolicyArn a))
                        (attached_managed_policies p))).
  - f_equal. induction l as [|p l IH]; simpl; [reflexivity|].
    unfold attached_pairs in *. simpl. rewrite classify_app, IH. f_equal.
    unfold classify. induction (attached_managed_policies p) as [|a r IHr];
      simpl; [reflexivity|].
    destruct (test (amp_PolicyArn a)); simpl; now rewrite IHr.
  - intros acc' p. apply fold_left_append_filter.
Qed.

Lemma standalone_classify (test : string -> bool) (l : list PolicyDetail)
    (acc : list string) :
  fold_left (fun acc policy =>
    if test (policy_arn policy) then acc ++ [policy_name policy] else acc) l acc
  = acc ++ classify test (map (fun p => (policy_name p, policy_arn p)) l).
Proof.
  rewrite fold_left_append_filter. f_equal. unfold classify.
  induction l as [|p l IH]; simpl; [reflexivity|].
  destruct (test (policy_arn p)); simpl; now rewrite IH.
Qed.

End ClassifierFacts.

(** C8, as the code has it: each of the two lists is built from the
    standalone policies, then the attached managed policies of every
    Group, then of every User, then of every Role; an ARN is AWS-managed
    when it contains ["arn:aws:iam::aws:"]; each list keeps the first
    occurrence of every name, in that order. *)
Theorem classifier_groups_before_users (self : AuthorizationDetails.t) :
  AuthorizationDetails._aws_managed_policies_in_use self
    = first_occurrences
        (classify AuthorizationDetails.is_aws (observed_groups_first self))
  /\ AuthorizationDetails._customer_managed_policies_in_use self
    = first_occurrences
        (classify AuthorizationDetails.is_customer (observed_groups_first self)).
Proof.
  unfold AuthorizationDetails._aws_managed_policies_in_use,
    AuthorizationDetails._customer_managed_policies_in_use,
    observed_groups_first, standalone_pairs.
  rewrite !dict_fromkeys_first_occurrences.
  rewrite !ClassifierFacts.append_attached_classify,
    !ClassifierFacts.standalone_classify.
  rewrite !ClassifierFacts.classify_app. simpl.
  now rewrite <- !app_assoc.
Qed.

(** C8, as the claim words it (users before groups), fails: with a user
    attached to [ReadOnlyAccess] and a group attached to
    [AdministratorAccess] the code lists the group's policy first. *)
Lemma classifier_users_first_fails :
  AuthorizationDetails._aws_managed_policies_in_use account_user_and_group
    = ["AdministratorAccess"; "ReadOnlyAccess"]
  /\ first_occurrences
       (classify AuthorizationDetails.is_aws
          (observed_users_first account_user_and_group))
    = ["ReadOnlyAccess"; "AdministratorAccess"]
  /\ AuthorizationDetails._aws_managed_policies_in_use account_user_and_group
    <> first_occurrences
         (classify AuthorizationDetails.is_aws
            (observed_users_first account_user_and_group)).
Proof.
  split; [reflexivity | split; [reflexivity | discriminate]].
Qed.

(* ================================================================= *)
(** ** The exclusion-aware mapping filter *)

Module FilterFacts.
Import PrincipalPolicyMapping.

Lemma of_type_filter (ty : string) (self : t) :
  of_type ty self
  = filter (fun e => Entry.principal_type e =? ty) (entries self).
Proof.
  unfold of_type. rewrite fold_left_append_filter. simpl. apply map_id.
Qed.

Lemma in_of_type (ty : string) (self : t) (e : Entry.t) :
  In e (of_type ty self) <-> In e (entries self) /\ Entry.principal_type e = ty.
Proof.
  rewrite of_type_filter, filter_In. now rewrite String.eqb_eq.
Qed.

Lemma comment_not_truthy (e : Entry.t) :
  Entry.comment_truthy e = false -> Entry.comment_list e = [].
Proof.
  unfold Entry.comment_truthy, Entry.comment_list.
  destruct (Entry.comment e) as [[|g c]|]; simpl; congruence.
Qed.

(** The inner loop of the user stage. *)
Lemma user_inner_loop (ex : Exclusions.t) (e : Entry.t) (c : list string) (acc : t) :
  entries
    (fold_left (fun filtered group_name =>
       if negb (in_list (lower group_name) (Exclusions.groups ex))
       then add filtered e else filtered) c acc)
  = entries acc
    ++ map (fun _ => e)
         (filter (fun g => negb (in_list (lower g) (Exclusions.groups ex))) c).
Proof.
  revert acc; induction c as [|g c IH]; intros acc; simpl.
  - now rewrite app_nil_r.
  - rewrite IH. destruct (negb (in_list (lower g) (Exclusions.groups ex))); simpl.
    + now rewrite <- app_assoc.
    + reflexivity.
Qed.

Lemma filter_users_entries (self : t) (ex : Exclusions.t) (acc : t) :
  entries (filter_users self ex acc)
  = entries acc ++ flat_map (user_copies ex) (users self).
Proof.
  unfold filter_users. generalize (users self) as l. intros l; revert acc.
  induction l as [|e l IH]; intros acc; simpl.
  - now rewrite app_nil_r.
  - rewrite IH, app_assoc. f_equal.
    unfold user_copies, user_not_excluded, policy_not_excluded,
      non_excluded_comment_groups.
    destruct (negb (in_list (lower (Entry.principal_name e)) (Exclusions.users ex)));
      simpl; [|now rewrite app_nil_r].
    destruct (negb (in_list (lower (Entry.policy_name e)) (Exclusions.policies ex)));
      simpl; [|now rewrite app_nil_r].
    destruct (Entry.comment_truthy e) eqn:Hc.
    + apply user_inner_loop.
    + rewrite (comment_not_truthy e Hc). simpl. now rewrite app_nil_r.
Qed.

Lemma surviving_users_eq (self : t) (ex : Exclusions.t) :
  surviving_users self ex = flat_map (user_copies ex) (users self).
Proof. unfold surviving_users. now rewrite filter_users_entries. Qed.

Lemma non_excluded_groups_eq (filtered : t) :
  non_excluded_groups filtered = lowered_comments (entries filtered).
Proof.
  unfold non_excluded_groups, lowered_comments.
  rewrite fold_left_appends with
    (f := fun e => map lower (Entry.comment_list e)); [reflexivity|].
  intros acc e. destruct (Entry.comment_truthy e) eqn:Hc.
  - rewrite fold_left_appends with (f := fun g => [lower g]) by reflexivity.
    reflexivity.
  - rewrite (comment_not_truthy e Hc). simpl. now rewrite app_nil_r.
Qed.

Lemma filter_roles_entries (self : t) (ex : Exclusions.t) (acc : t) :
  entries (filter_roles self ex acc)
  = entries acc
    ++ filter (fun e => role_not_excluded ex e && policy_not_excluded ex e)
         (roles self).
Proof.
  unfold filter_roles. generalize (roles self) as l. intros l; revert acc.
  induction l as [|e l IH]; intros acc; simpl.
  - now rewrite app_nil_r.
  - rewrite IH. unfold role_not_excluded, policy_not_excluded.
    destruct (negb (in_list (lower (Entry.principal_name e)) (Exclusions.roles ex)));
      simpl; [|reflexivity].
    destruct (negb (in_list (lower (Entry.policy_name e)) (Exclusions.policies ex)));
      simpl; [now rewrite <- app_assoc | reflexivity].
Qed.

(** The group loop only appends entries it runs over. *)
Lemma group_loop_appends (ex : Exclusions.t) (l : list Entry.t) (acc : t) :
  exists added,
    entries (group_loop ex l acc) = entries acc ++ added /\ incl added l.
Proof.
  revert acc; induction l as [|g l IH]; intros acc.
  - exists []. simpl. split; [now rewrite app_nil_r | apply incl_refl].
  - unfold group_loop in *. simpl.
    match goal with
    | |- context [fold_left ?f l ?a] => destruct (IH a) as [added [Heq Hincl]]
    end.
    rewrite Heq.
    destruct (negb (in_list (lower (Entry.principal_name g)) (Exclusions.groups ex)));
      [|exists added; split; [reflexivity | now apply incl_tl]].
    destruct (negb (in_list (lower (Entry.policy_name g)) (Exclusions.policies ex)));
      [|exists added; split; [reflexivity | now apply incl_tl]].
    destruct (in_list (lower (Entry.principal_name g)) (non_excluded_groups acc));
      [|exists added; split; [reflexivity | now apply incl_tl]].
    exists (g :: added). simpl. rewrite <- app_assoc. split; [reflexivity|].
    intros x [->|Hx]; [now left | right; now apply Hincl].
Qed.

Lemma lowered_comments_app (l1 l2 : list Entry.t) :
  lowered_comments (l1 ++ l2) = lowered_comments l1 ++ lowered_comments l2.
Proof. unfold lowered_comments. apply flat_map_app. Qed.

(** When the group entries carry no comment, the list
    [non_excluded_groups] is the same for every group entry, and the loop
    is a filter. *)
Lemma group_loop_no_comment (ex : Exclusions.t) (l : list Entry.t) (acc : t) :
  (forall g, In g l -> Entry.comment_truthy g = false) ->
  entries (group_loop ex l acc)
  = entries acc
    ++ filter (fun g =>
         group_not_excluded ex g && policy_not_excluded ex g
         && in_list (lower (Entry.principal_name g))
              (lowered_comments (entries acc))) l.
Proof.
  revert acc; induction l as [|g l IH]; intros acc Hl.
  - simpl. now rewrite app_nil_r.
  - assert (Hg : Entry.comment_list g = [])
      by (apply comment_not_truthy, Hl; now left).
    assert (Hl' : forall g', In g' l -> Entry.comment_truthy g' = false)
      by (intros g' Hg'; apply Hl; now right).
    unfold group_loop in *. simpl.
    unfold group_not_excluded, policy_not_excluded.
    rewrite non_excluded_groups_eq.
    destruct (negb (in_list (lower (Entry.principal_name g)) (Exclusions.groups ex)));
      simpl; [|now apply IH].
    destruct (negb (in_list (lower (Entry.policy_name g)) (Exclusions.policies ex)));
      simpl; [|now apply IH].
    destruct (in_list (lower (Entry.principal_name g)) (lowered_comments (entries acc)));
      [|now apply IH].
    rewrite IH by assumption. simpl.
    rewrite lowered_comments_app. unfold lowered_comments at 2. simpl.
    rewrite Hg. simpl. rewrite app_nil_r. now rewrite <- app_assoc.
Qed.

(** The three parts of the filtered mapping. *)
Lemma filtered_mapping_parts (self : t) (ex : Exclusions.t) :
  exists added_groups,
    entries (filtered_mapping self ex)
    = surviving_users self ex ++ added_groups
      ++ filter (fun e => role_not_excluded ex e && policy_not_excluded ex e)
           (roles self)
    /\ incl added_groups (groups self).
Proof.
  unfold filtered_mapping, filter_groups. rewrite filter_roles_entries.
  destruct (group_loop_appends ex (groups self) (filter_users self ex new))
    as [added [Heq Hincl]].
  exists added. rewrite Heq. unfold surviving_users.
  now rewrite <- app_assoc.
Qed.

Lemma get_post_exclusion_returns (self : t) (ex : Exclusions.t) :
  get_post_exclusion_principal_policy_mapping (PyExclusions ex) self
  = (Returned (filtered_mapping self ex), self).
Proof. reflexivity. Qed.

Lemma in_user_copies (ex : Exclusions.t) (e x : Entry.t) :
  In x (user_copies ex e) <->
  x = e /\ user_not_excluded ex e = true /\ policy_not_excluded ex e = true
  /\ exists g, In g (Entry.comment_list e)
               /\ ~ In (lower g) (Exclusions.groups ex).
Proof.
  unfold user_copies, non_excluded_comment_groups.
  destruct (user_not_excluded ex e), (policy_not_excluded ex e); simpl;
    try (split; [tauto | intros (_ & H1 & H2 & _); discriminate]).
  rewrite in_map_iff. split.
  - intros [g [<- Hg]]. apply filter_In in Hg. destruct Hg as [Hg Hok].
    repeat split; try reflexivity. exists g. split; [assumption|].
    apply in_list_false. now destruct (in_list (lower g) (Exclusions.groups ex)).
  - intros (-> & _ & _ & g & Hg & Hok). exists g. split; [reflexivity|].
    apply filter_In. split; [assumption|].
    apply in_list_false in Hok. now rewrite Hok.
Qed.

End FilterFacts.

Module Entry := PrincipalPolicyMappingEntry.

(** C1. On an [Exclusions] object the filter returns the filtered mapping
    and leaves the mapping it is called on as it was. A User entry of the
    mapping is in the output if and only if its lower-cased principal name
    is not in [exclusions.users], its lower-cased policy name is not in
    [exclusions.policies], and its comment holds a group whose lower-cased
    name is not in [exclusions.groups]. A User entry whose comment is
    [None] or empty is never in the output. *)
Theorem user_entry_survives_iff
    (self : PrincipalPolicyMapping.t) (ex : Exclusions.t) (e : Entry.t)
    (Huser : Entry.principal_type e = "User") :
  PrincipalPolicyMapping.get_post_exclusion_principal_policy_mapping
    (PyExclusions ex) self
  = (Returned (filtered_mapping self ex), self)
  /\ (In e (PrincipalPolicyMapping.entries (filtered_mapping self ex)) <->
      In e (PrincipalPolicyMapping.entries self)
      /\ ~ In (lower (Entry.principal_name e)) (Exclusions.users ex)
      /\ ~ In (lower (Entry.policy_name e)) (Exclusions.policies ex)
      /\ exists g, In g (Entry.comment_list e)
                   /\ ~ In (lower g) (Exclusions.groups ex))
  /\ (Entry.comment e = None \/ Entry.comment e = Some [] ->
      ~ In e (PrincipalPolicyMapping.entries (filtered_mapping self ex))).
Proof.
  assert (Hiff :
    In e (PrincipalPolicyMapping.entries (filtered_mapping self ex)) <->
    In e (PrincipalPolicyMapping.entries self)
    /\ ~ In (lower (Entry.principal_name e)) (Exclusions.users ex)
    /\ ~ In (lower (Entry.policy_name e)) (Exclusions.policies ex)
    /\ exists g, In g (Entry.comment_list e)
                 /\ ~ In (lower g) (Exclusions.groups ex)).
  { destruct (FilterFacts.filtered_mapping_parts self ex) as [added [Heq Hincl]].
    rewrite Heq, !in_app_iff, FilterFacts.surviving_users_eq, in_flat_map.
    split.
    - intros [[x [Hx Hin]] | [Hg | Hr]].
      + apply FilterFacts.in_user_copies in Hin.
        destruct Hin as (-> & Hu & Hp & Hex).
        apply FilterFacts.in_of_type in Hx. destruct Hx as [Hx _].
        unfold user_not_excluded in Hu. unfold policy_not_excluded in Hp.
        apply negb_true_iff in Hu, Hp. apply in_list_false in Hu, Hp.
        tauto.
      + apply Hincl, FilterFacts.in_of_type in Hg. destruct Hg as [_ Hg].
        congruence.
      + apply filter_In in Hr. destruct Hr as [Hr _].
        apply FilterFacts.in_of_type in Hr. destruct Hr as [_ Hr]. congruence.
    - intros (Hin & Hu & Hp & Hex). left. exists e. split.
      + apply FilterFacts.in_of_type. now split.
      + apply FilterFacts.in_user_copies. repeat split; try assumption.
        * unfold user_not_excluded. apply negb_true_iff. now apply in_list_false.
        * unfold policy_not_excluded. apply negb_true_iff. now apply in_list_false. }
  split; [apply FilterFacts.get_post_exclusion_returns|].
  split; [exact Hiff|].
  intros Hc Hin. apply Hiff in Hin. destruct Hin as (_ & _ & _ & g & Hg & _).
  unfold Entry.comment_list in Hg. destruct Hc as [Hc | Hc]; now rewrite Hc in Hg.
Qed.

(** The User entry of alice, inherited through two groups, survives when
    nothing is excluded. *)
Lemma user_entry_survives_iff_witness :
  In (mapping_entry "User" "alice" "AdminAccess" (Some ["Admins"; "Ops"]))
    (PrincipalPolicyMapping.entries (filtered_mapping sample_mapping no_exclusions)).
Proof.
  apply (user_entry_survives_iff sample_mapping no_exclusions
           (mapping_entry "User" "alice" "AdminAccess" (Some ["Admins"; "Ops"]))
           eq_refl).
  split; [simpl; tauto|].
  split; [simpl; tauto|].
  split; [simpl; tauto|].
  exists "Admins". simpl. tauto.
Defined.

Lemma count_occ_none_of_type (l : list Entry.t) (e : Entry.t) (ty : string) :
  (forall x, In x l -> Entry.principal_type x = ty) ->
  Entry.principal_type e <> ty ->
  count_occ entry_eq_dec l e = 0.
Proof.
  intros Hl He. apply count_occ_not_In. intros Hin. apply He. now apply Hl.
Qed.

Lemma count_occ_constant_map (e x : Entry.t) (c : list string) :
  count_occ entry_eq_dec (map (fun _ => x) c) e
  = if entry_eq_dec x e then List.length c else 0.
Proof.
  induction c as [|g c IH]; simpl.
  - now destruct (entry_eq_dec x e).
  - rewrite IH. now destruct (entry_eq_dec x e).
Qed.

(** C9. A User entry whose principal name and policy name are not
    excluded is appended once for every group of its comment that is not
    in [exclusions.groups]: the output holds, for each occurrence of the
    entry in the mapping, as many copies as the comment has such groups. *)
Theorem user_entry_copies
    (self : PrincipalPolicyMapping.t) (ex : Exclusions.t) (e : Entry.t)
    (Huser : Entry.principal_type e = "User")
    (Hname : ~ In (lower (Entry.principal_name e)) (Exclusions.users ex))
    (Hpolicy : ~ In (lower (Entry.policy_name e)) (Exclusions.policies ex)) :
  count_occ entry_eq_dec
    (PrincipalPolicyMapping.entries (filtered_mapping self ex)) e
  = count_occ entry_eq_dec (PrincipalPolicyMapping.entries self) e
    * List.length (non_excluded_comment_groups ex e).
Proof.
  destruct (FilterFacts.filtered_mapping_parts self ex) as [added [Heq Hincl]].
  rewrite Heq, !count_occ_app.
  rewrite (@count_occ_none_of_type added e "Group"), Nat.add_0_l.
  2:{ intros x Hx. apply Hincl, FilterFacts.in_of_type in Hx. tauto. }
  2:{ rewrite Huser. discriminate. }
  set (kept_roles := filter _ (PrincipalPolicyMapping.roles self)).
  rewrite (@count_occ_none_of_type kept_roles e "Role"), Nat.add_0_r.
  2:{ intros x Hx. apply filter_In in Hx. destruct Hx as [Hx _].
      apply FilterFacts.in_of_type in Hx. tauto. }
  2:{ rewrite Huser. discriminate. }
  rewrite FilterFacts.surviving_users_eq.
  unfold PrincipalPolicyMapping.users. rewrite FilterFacts.of_type_filter.
  induction (PrincipalPolicyMapping.entries self) as [|x l IH]; simpl.
  - reflexivity.
  - destruct (String.eqb_spec (Entry.principal_type x) "User") as [Hx | Hx]; simpl.
    + rewrite count_occ_app, IH. unfold user_copies at 1.
      destruct (entry_eq_dec x e) as [-> | Hne].
      * unfold user_not_excluded, policy_not_excluded.
        apply in_list_false in Hname, Hpolicy. rewrite Hname, Hpolicy. simpl.
        rewrite count_occ_constant_map.
        destruct (entry_eq_dec e e); [lia | congruence].
      * destruct (user_not_excluded ex x && policy_not_excluded ex x); simpl;
          [|reflexivity].
        rewrite count_occ_constant_map.
        destruct (entry_eq_dec x e); [congruence | reflexivity].
    + destruct (entry_eq_dec x e) as [-> | Hne]; [congruence | exact IH].
Qed.

(** alice's entry lists two groups, none of them excluded: it comes out
    twice. *)
Lemma user_entry_copies_witness :
  count_occ entry_eq_dec
    (PrincipalPolicyMapping.entries (filtered_mapping sample_mapping no_exclusions))
    (mapping_entry "User" "alice" "AdminAccess" (Some ["Admins"; "Ops"]))
  = 1 * 2.
Proof.
  apply (user_entry_copies sample_mapping no_exclusions
           (mapping_entry "User" "alice" "AdminAccess" (Some ["Admins"; "Ops"]))
           eq_refl); simpl; tauto.
Defined.

Lemma surviving_users_are_users (self : PrincipalPolicyMapping.t)
    (ex : Exclusions.t) (u : Entry.t) :
  In u (surviving_users self ex) -> Entry.principal_type u = "User".
Proof.
  rewrite FilterFacts.surviving_users_eq, in_flat_map.
  intros [x [Hx Hin]]. apply FilterFacts.in_user_copies in Hin.
  destruct Hin as [-> _]. apply FilterFacts.in_of_type in Hx. tauto.
Qed.

Lemma in_lowered_comments (s : string) (l : list Entry.t) :
  In s (lowered_comments l) <->
  exists u g, In u l /\ In g (Entry.comment_list u) /\ lower g = s.
Proof.
  unfold lowered_comments. rewrite in_flat_map. split.
  - intros [u [Hu Hs]]. apply in_map_iff in Hs. destruct Hs as [g [Hg Hin]].
    now exists u, g.
  - intros (u & g & Hu & Hg & Hs). exists u. split; [assumption|].
    apply in_map_iff. now exists g.
Qed.

(** The group rule, on the mappings whose Group entries carry no comment
    (the ones the mapping builder produces): a Group entry is in the
    output if and only if its name and its policy are not excluded and
    its lower-cased name is the lower-cased comment entry of a User entry
    that survived the first loop. *)
Lemma group_entry_survives_iff_without_group_comments
    (self : PrincipalPolicyMapping.t) (ex : Exclusions.t) (e : Entry.t) :
  (forall g, In g (PrincipalPolicyMapping.entries self) ->
             Entry.principal_type g = "Group" ->
             Entry.comment_truthy g = false) ->
  Entry.principal_type e = "Group" ->
  (In e (PrincipalPolicyMapping.entries (filtered_mapping self ex)) <->
   In e (PrincipalPolicyMapping.entries self)
   /\ ~ In (lower (Entry.principal_name e)) (Exclusions.groups ex)
   /\ ~ In (lower (Entry.policy_name e)) (Exclusions.policies ex)
   /\ exists u g, In u (surviving_users self ex)
                  /\ Entry.principal_type u = "User"
                  /\ In g (Entry.comment_list u)
                  /\ lower g = lower (Entry.principal_name e)).
Proof.
  intros Hplain Hgroup.
  unfold filtered_mapping, PrincipalPolicyMapping.filter_groups.
  rewrite FilterFacts.filter_roles_entries, FilterFacts.group_loop_no_comment.
  2:{ intros g Hg. apply FilterFacts.in_of_type in Hg. now apply Hplain. }
  fold (surviving_users self ex).
  rewrite !in_app_iff, !filter_In, !andb_true_iff.
  unfold PrincipalPolicyMapping.groups, PrincipalPolicyMapping.roles.
  rewrite !FilterFacts.in_of_type, in_list_In, in_lowered_comments.
  unfold group_not_excluded, policy_not_excluded.
  rewrite !negb_true_iff, !in_list_false.
  split.
  - intros [[Hu | Hg] | Hr].
    + apply surviving_users_are_users in Hu. congruence.
    + destruct Hg as ([Hin _] & [Hn Hp] & u & g & Hu & Hg & Hl).
      repeat split; try assumption. exists u, g.
      repeat split; try assumption. now apply surviving_users_are_users in Hu.
    + destruct Hr as [[_ Hr] _]. congruence.
  - intros (Hin & Hn & Hp & u & g & Hu & _ & Hg & Hl).
    left; right. repeat split; try assumption. now exists u, g.
Qed.

(** Outside the data model, on a hand-built mapping whose Group entry
    carries a comment: the group ["auditors"] is in no comment of a
    surviving User entry (the only one is ["admins"]), and its entry is in
    the output all the same, since [non_excluded_groups] is read from all
    the entries of the filtered mapping and the entry of ["admins"], added
    before, carries the comment ["auditors"]. *)
Theorem group_entry_admitted_by_group_comment :
  PrincipalPolicyMapping.entries
    (filtered_mapping mapping_with_group_comment no_exclusions)
  = [ mapping_entry "User" "alice" "AdminAccess" (Some ["admins"]);
      mapping_entry "Group" "admins" "AdminAccess" (Some ["auditors"]);
      mapping_entry "Group" "auditors" "ReadAll" None ]
  /\ surviving_users mapping_with_group_comment no_exclusions
     = [ mapping_entry "User" "alice" "AdminAccess" (Some ["admins"]) ]
  /\ lowered_comments (surviving_users mapping_with_group_comment no_exclusions)
     = ["admins"]
  /\ in_list (lower "auditors")
       (lowered_comments (surviving_users mapping_with_group_comment no_exclusions))
     = false.
Proof. repeat split. Qed.



(* ================================================================= *)
(** ** The order of the sort keys *)

Module KeyFacts.

Lemma key_eq_leibniz (a b : Key.t) : Key.eq a b -> a = b.
Proof.
  destruct a as [[a1 a2] [a3 a4]], b as [[b1 b2] [b3 b4]].
  intros [[H1 H2] [H3 H4]]. cbv in H1, H2, H3, H4. congruence.
Qed.

Lemma ltb_lt (a b : Key.t) : key_ltb a b = true <-> Key.lt a b.
Proof.
  unfold key_ltb. destruct (Key.compare_spec a b) as [Heq | Hlt | Hgt].
  - split; [discriminate|]. intros Hlt. apply key_eq_leibniz in Heq. subst.
    exfalso. exact (StrictOrder_Irreflexive b Hlt).
  - tauto.
  - split; [discriminate|]. intros Hlt. exfalso.
    exact (StrictOrder_Irreflexive a (StrictOrder_Transitive _ _ _ Hlt Hgt)).
Qed.

Lemma le_refl (a : Key.t) : key_le a a.
Proof.
  unfold key_le. destruct (key_ltb a a) eqn:H; [|reflexivity].
  apply ltb_lt in H. exfalso. exact (StrictOrder_Irreflexive a H).
Qed.

Lemma lt_le (a b : Key.t) : key_ltb a b = true -> key_le a b.
Proof.
  unfold key_le. intros H. destruct (key_ltb b a) eqn:H'; [|reflexivity].
  apply ltb_lt in H, H'. exfalso.
  exact (StrictOrder_Irreflexive a (StrictOrder_Transitive _ _ _ H H')).
Qed.

(** Two keys are ordered, or they are the same key. *)
Lemma le_cases (a b : Key.t) : key_le a b -> a = b \/ key_ltb a b = true.
Proof.
  unfold key_le. intros H. destruct (Key.compare_spec a b) as [Heq | Hlt | Hgt].
  - left. now apply key_eq_leibniz.
  - right. now apply ltb_lt.
  - apply ltb_lt in Hgt. congruence.
Qed.

Lemma le_antisym (a b : Key.t) : key_le a b -> key_le b a -> a = b.
Proof.
  intros Hab Hba. destruct (le_cases Hab) as [|Hlt]; [assumption|].
  unfold key_le in Hba. congruence.
Qed.

Lemma le_trans (a b c : Key.t) : key_le a b -> key_le b c -> key_le a c.
Proof.
  intros Hab Hbc.
  destruct (le_cases Hab) as [-> | Hlt]; [assumption|].
  destruct (le_cases Hbc) as [<- | Hlt']; [assumption|].
  apply lt_le. apply ltb_lt. apply ltb_lt in Hlt, Hlt'.
  exact (StrictOrder_Transitive _ _ _ Hlt Hlt').
Qed.

End KeyFacts.

(* ================================================================= *)
(** ** [sorted] *)

Section SortPermutation.

Variables (A K : Type) (ltb : K -> K -> bool) (key : A -> K).

Lemma insert_perm (x : A) (l : list A) :
  Permutation (insert ltb key x l) (x :: l).
Proof.
  induction l as [|y l IH]; simpl; [reflexivity|].
  destruct (ltb (key y) (key x)); [|reflexivity].
  rewrite IH. apply perm_swap.
Qed.

Lemma sorted_perm (l : list A) : Permutation (sorted ltb key l) l.
Proof.
  induction l as [|x l IH]; simpl; [reflexivity|].
  rewrite insert_perm. now constructor.
Qed.

End SortPermutation.

Section SortedFacts.

Variable A : Type.
Variable key : A -> Key.t.

Let le (a b : A) : Prop := key_le (key a) (key b).

Lemma insert_sorted (x : A) (l : list A) :
  StronglySorted le l -> StronglySorted le (insert key_ltb key x l).
Proof.
  induction 1 as [|y l Hl IH Hy]; simpl.
  - repeat constructor.
  - destruct (key_ltb (key y) (key x)) eqn:Hyx.
    + constructor; [assumption|].
      apply (Permutation_Forall (Permutation_sym (insert_perm key_ltb key x l))).
      constructor; [|assumption]. now apply KeyFacts.lt_le.
    + constructor; [now constructor|].
      constructor; [exact Hyx|].
      apply Forall_impl with (P := le y); [|assumption].
      intros z Hz. unfold le in *. eapply KeyFacts.le_trans; [exact Hyx | exact Hz].
Qed.

Lemma sorted_sorted (l : list A) : StronglySorted le (sorted key_ltb key l).
Proof.
  induction l as [|x l IH]; simpl; [constructor | now apply insert_sorted].
Qed.

(** Two sorted lists with the same elements are the same list, when
    elements with the same key are the same element. *)
Lemma sorted_unique (l1 l2 : list A) :
  Permutation l1 l2 ->
  StronglySorted le l1 -> StronglySorted le l2 ->
  (forall a b, In a l1 -> In b l1 -> key a = key b -> a = b) ->
  l1 = l2.
Proof.
  revert l2; induction l1 as [|x l1 IH]; intros l2 Hperm H1 H2 Hinj.
  - apply Permutation_nil in Hperm. now subst.
  - destruct l2 as [|y l2]; [apply Permutation_sym, Permutation_nil in Hperm; discriminate|].
    assert (Hxy : x = y).
    { apply StronglySorted_inv in H1, H2.
      destruct H1 as [_ Hx], H2 as [_ Hy]. rewrite Forall_forall in Hx, Hy.
      assert (Hyin : In y (x :: l1))
        by (apply (Permutation_in _ (Permutation_sym Hperm)); now left).
      assert (Hxin : In x (y :: l2))
        by (apply (Permutation_in _ Hperm); now left).
      apply Hinj; [now left | assumption |].
      apply KeyFacts.le_antisym.
      - destruct Hyin as [<- | Hyin]; [apply KeyFacts.le_refl | now apply Hx].
      - destruct Hxin as [<- | Hxin]; [apply KeyFacts.le_refl | now apply Hy]. }
    subst y. f_equal. apply IH.
    + now apply Permutation_cons_inv in Hperm.
    + now apply StronglySorted_inv in H1.
    + now apply StronglySorted_inv in H2.
    + intros a b Ha Hb. apply Hinj; now right.
Qed.

(** Sorting two lists with the same elements. *)
Lemma sorted_of_perm (l1 l2 : list A) :
  Permutation l1 l2 ->
  (forall a b, In a l1 -> In b l1 -> key a = key b -> a = b) ->
  sorted key_ltb key l1 = sorted key_ltb key l2.
Proof.
  intros Hperm Hinj. apply sorted_unique.
  - rewrite !sorted_perm. exact Hperm.
  - apply sorted_sorted.
  - apply sorted_sorted.
  - intros a b Ha Hb. apply Hinj.
    + exact (Permutation_in _ (sorted_perm key_ltb key l1) Ha).
    + exact (Permutation_in _ (sorted_perm key_ltb key l1) Hb).
Qed.

End SortedFacts.

(* ================================================================= *)
(** ** The principal-policy mapping builder *)

Module BuilderFacts.
Import AuthorizationDetails.

Lemma fold_left_append_map (A B : Type) (g : A -> B) (l : list A) (acc : list B) :
  fold_left (fun acc x => acc ++ [g x]) l acc = acc ++ map g l.
Proof.
  revert acc; induction l as [|x l IH]; intros acc; simpl.
  - now rewrite app_nil_r.
  - rewrite IH. now rewrite <- app_assoc.
Qed.

Lemma append_policy_rows_eq (p source : PrincipalDetail)
    (gm : option (list string)) (mapping : list MappingRow) :
  append_policy_rows p source gm mapping = mapping ++ policy_rows p source gm.
Proof.
  unfold append_policy_rows, policy_rows.
  destruct (inline_principal_policies source) as [|i il] eqn:Hi;
    destruct (attached_managed_policies source) as [|a al] eqn:Ha;
    cbn [truthy]; rewrite ?fold_left_append_map; cbn [map];
    rewrite ?app_nil_r, <- ?app_assoc; reflexivity.
Qed.

Lemma append_group_rows_eq (all : list PrincipalDetail) (p : PrincipalDetail)
    (mapping : list MappingRow) :
  append_group_rows all p mapping = mapping ++ group_rows all p.
Proof.
  unfold append_group_rows, group_rows.
  destruct (principal_type p =? "User"); [|now rewrite app_nil_r].
  apply fold_left_appends. intros acc gm.
  apply fold_left_appends. intros acc' sp.
  destruct ((principal_type sp =? "Group") && (name sp =? gm)).
  - apply append_policy_rows_eq.
  - now rewrite app_nil_r.
Qed.

Lemma unsorted_mapping_eq (self : t) :
  unsorted_principal_policy_mapping self
  = flat_map (principal_rows (principals self)) (principals self).
Proof.
  unfold unsorted_principal_policy_mapping.
  rewrite fold_left_appends with (f := principal_rows (principals self));
    [reflexivity|].
  intros acc p. rewrite append_group_rows_eq, append_policy_rows_eq.
  unfold principal_rows. now rewrite app_assoc.
Qed.

(** Reordering. *)

Lemma flat_map_Forall2_perm (A B C : Type) (R : A -> B -> Prop)
    (f : A -> list C) (g : B -> list C) (l : list A) (m : list B) :
  (forall x y, R x y -> Permutation (f x) (g y)) ->
  Forall2 R l m -> Permutation (flat_map f l) (flat_map g m).
Proof.
  intros Hfg. induction 1 as [|x y l m Hxy _ IH]; simpl; [constructor|].
  apply Permutation_app; [now apply Hfg | exact IH].
Qed.

Lemma flat_map_principals_perm (C : Type) (f g : PrincipalDetail -> list C)
    (l l' : list PrincipalDetail) :
  (forall x y, principal_perm x y -> Permutation (f x) (g y)) ->
  principals_perm l l' -> Permutation (flat_map f l) (flat_map g l').
Proof.
  intros Hfg [m [Hlm Hperm]].
  rewrite (flat_map_Forall2_perm f g Hfg Hlm).
  now apply Permutation_flat_map.
Qed.

Lemma principals_perm_app (l1 l1' l2 l2' : list PrincipalDetail) :
  principals_perm l1 l1' -> principals_perm l2 l2' ->
  principals_perm (l1 ++ l2) (l1' ++ l2').
Proof.
  intros [m1 [H1 P1]] [m2 [H2 P2]]. exists (m1 ++ m2). split.
  - now apply Forall2_app.
  - now apply Permutation_app.
Qed.

Lemma snapshot_perm_principals (s s' : t) :
  snapshot_perm s s' -> principals_perm (principals s) (principals s').
Proof.
  intros (_ & Hu & Hg & Hr). unfold principals.
  repeat apply principals_perm_app; assumption.
Qed.

Lemma policy_rows_perm (p p' source source' : PrincipalDetail)
    (gm : option (list string)) :
  name p = name p' -> principal_type p = principal_type p' ->
  principal_perm source source' ->
  Permutation (policy_rows p source gm) (policy_rows p' source' gm).
Proof.
  intros Hn Ht (_ & _ & _ & _ & _ & _ & Hi & Ha & _).
  unfold policy_rows. apply Permutation_app.
  - eapply Permutation_trans; [apply Permutation_map; exact Hi|].
    apply Permutation_refl'.
    apply map_ext. intros i. unfold inline_row. now rewrite Hn, Ht.
  - eapply Permutation_trans; [apply Permutation_map; exact Ha|].
    apply Permutation_refl'.
    apply map_ext. intros a. unfold managed_row. now rewrite Hn, Ht.
Qed.

Lemma group_rows_perm (all all' : list PrincipalDetail) (p p' : PrincipalDetail) :
  principals_perm all all' -> principal_perm p p' ->
  Permutation (group_rows all p) (group_rows all' p').
Proof.
  intros Hall Hp. pose proof Hp as (Hn & _ & Ht & Hgm & _).
  unfold group_rows. rewrite <- Ht, <- Hgm.
  destruct (principal_type p =? "User"); [|constructor].
  clear Hgm. generalize (Some (group_member p)) as inherited. intros inherited.
  induction (group_member p) as [|gm gms IH]; simpl; [constructor|].
  apply Permutation_app; [|exact IH].
  apply flat_map_principals_perm; [|exact Hall].
  intros sp sp' Hsp. pose proof Hsp as (Hsn & _ & Hst & _).
  rewrite <- Hsn, <- Hst.
  destruct ((principal_type sp =? "Group") && (name sp =? gm)); [|constructor].
  now apply policy_rows_perm.
Qed.

Lemma unsorted_mapping_perm (s s' : t) :
  snapshot_perm s s' ->
  Permutation (unsorted_principal_policy_mapping s)
              (unsorted_principal_policy_mapping s').
Proof.
  intros Hs. apply snapshot_perm_principals in Hs.
  rewrite !unsorted_mapping_eq.
  apply flat_map_principals_perm; [|exact Hs].
  intros p p' Hp. unfold principal_rows. apply Permutation_app.
  - pose proof Hp as (Hn & _ & Ht & _). now apply policy_rows_perm.
  - now apply group_rows_perm.
Qed.

End BuilderFacts.

(** C5, as the code has it. The mapping is sorted by the key (type,
    principal, policy type, policy name) and holds the rows that were
    built; so does [PrincipalPolicyMapping.json]. Reordering the
    principals and the policies of the snapshot gives a mapping with the
    same rows; it gives the same list when no two different rows have the
    same key (the sort is stable: rows with the same key stay in the order
    they were built in). *)
Theorem principal_policy_mapping_sorted
    (s : AuthorizationDetails.t) (m : PrincipalPolicyMapping.t) :
  rows_sorted (AuthorizationDetails.principal_policy_mapping s)
  /\ Permutation (AuthorizationDetails.principal_policy_mapping s)
       (flat_map (principal_rows (AuthorizationDetails.principals s))
          (AuthorizationDetails.principals s))
  /\ entries_sorted (PrincipalPolicyMapping.json m)
  /\ Permutation (PrincipalPolicyMapping.json m) (PrincipalPolicyMapping.entries m)
  /\ forall s', snapshot_perm s s' ->
       Permutation (AuthorizationDetails.principal_policy_mapping s)
                   (AuthorizationDetails.principal_policy_mapping s')
       /\ (keys_identify_rows (AuthorizationDetails.principal_policy_mapping s) ->
           AuthorizationDetails.principal_policy_mapping s
           = AuthorizationDetails.principal_policy_mapping s').
Proof.
  unfold AuthorizationDetails.principal_policy_mapping, PrincipalPolicyMapping.json.
  split; [apply sorted_sorted|].
  split; [rewrite sorted_perm, BuilderFacts.unsorted_mapping_eq; reflexivity|].
  split; [apply sorted_sorted|].
  split; [apply sorted_perm|].
  intros s' Hs. pose proof (BuilderFacts.unsorted_mapping_perm Hs) as Hperm.
  split.
  - now rewrite !sorted_perm.
  - intros Hkeys. apply sorted_of_perm; [exact Hperm|].
    intros a b Ha Hb. apply Hkeys.
    + exact (Permutation_in _ (Permutation_sym (sorted_perm key_ltb row_key _)) Ha).
    + exact (Permutation_in _ (Permutation_sym (sorted_perm key_ltb row_key _)) Hb).
Qed.

Lemma swapped_policies_perm (ty nm : string) (a b : AttachedManagedPolicy) :
  principals_perm [principal ty nm [] [a; b] []] [principal ty nm [] [b; a] []].
Proof.
  exists [principal ty nm [] [b; a] []]. split; [|reflexivity].
  constructor; [|constructor].
  unfold principal_perm. simpl.
  repeat split; try reflexivity; constructor.
Qed.

Lemma no_principals_perm : principals_perm [] [].
Proof. exists []. split; constructor. Qed.

(** alice's two policies have different names: the order they are
    attached in does not show in the mapping. *)
Lemma principal_policy_mapping_sorted_witness :
  AuthorizationDetails.principal_policy_mapping account_two_policies
  = AuthorizationDetails.principal_policy_mapping account_two_policies_swapped.
Proof.
  destruct (principal_policy_mapping_sorted account_two_policies
              PrincipalPolicyMapping.new) as (_ & _ & _ & _ & Hperm).
  apply (Hperm account_two_policies_swapped).
  - repeat split; simpl;
      [constructor | apply swapped_policies_perm
       | apply no_principals_perm | apply no_principals_perm].
  - intros a b Ha Hb Hkey. vm_compute in Ha, Hb.
    destruct Ha as [<- | [<- | []]]; destruct Hb as [<- | [<- | []]];
      solve [reflexivity | discriminate Hkey].
Defined.

(** C5, as the claim words it, fails: alice is attached to the AWS-managed
    [AdministratorAccess] and to a customer-managed policy of the same
    name; the two rows have the same key and come out in the order the
    policies are attached in. *)
Lemma reordering_changes_mapping :
  snapshot_perm account_same_name_aws_first account_same_name_customer_first
  /\ AuthorizationDetails.principal_policy_mapping account_same_name_aws_first
     <> AuthorizationDetails.principal_policy_mapping
          account_same_name_customer_first.
Proof.
  split.
  - repeat split; simpl;
      [constructor | apply swapped_policies_perm
       | apply no_principals_perm | apply no_principals_perm].
  - vm_compute. discriminate.
Qed.

(** C10. The builder looks up the groups of a user with [==] on the
    names. For a user whose memberships differ from the names of the
    Group principals they match case-insensitively, the group loop adds
    no row: the rows of the user are those of its own policies. The
    resolver of [scan_principal_type_details] compares the lower-cased
    names instead. *)
Theorem group_lookup_is_case_sensitive
    (self : AuthorizationDetails.t) (u : PrincipalDetail)
    (Hcase : forall g p,
        In g (group_member u) ->
        In p (AuthorizationDetails.principals self) ->
        principal_type p = "Group" ->
        lower g = lower (name p) ->
        g <> name p) :
  (forall mapping,
      AuthorizationDetails.append_group_rows
        (AuthorizationDetails.principals self) u mapping = mapping)
  /\ principal_rows (AuthorizationDetails.principals self) u
     = policy_rows u u None
  /\ (forall (g : string) (names : list string) (grp : PrincipalDetail),
        principal_type grp = "Groups" ->
        lower g = lower (name grp) ->
        members (AuthorizationDetails.resolve_members [(g, names)] grp)
        = members grp ++ names).
Proof.
  assert (Hnone : group_rows (AuthorizationDetails.principals self) u = []).
  { unfold group_rows. destruct (principal_type u =? "User"); [|reflexivity].
    apply flat_map_nil. intros gm Hgm.
    apply flat_map_nil. intros p Hp.
    destruct (String.eqb_spec (principal_type p) "Group") as [Hty | Hty];
      [|reflexivity].
    destruct (String.eqb_spec (name p) gm) as [Hname | Hname]; [|reflexivity].
    exfalso. apply (Hcase gm p Hgm Hp Hty); now subst. }
  split; [|split].
  - intros mapping. rewrite BuilderFacts.append_group_rows_eq, Hnone.
    apply app_nil_r.
  - unfold principal_rows. rewrite Hnone. apply app_nil_r.
  - intros g names grp Hty Hlow.
    unfold AuthorizationDetails.resolve_members. rewrite Hty. simpl.
    rewrite Hlow, String.eqb_refl. reflexivity.
Qed.

(** alice declares ["Admins"], the group is ["admins"]: the two names are
    equal once lower-cased, and alice gets none of the rows of the group. *)
Lemma group_lookup_is_case_sensitive_witness :
  lower "Admins" = lower "admins"
  /\ principal_rows (AuthorizationDetails.principals account_case_mismatch)
       alice_in_Admins
     = [].
Proof.
  split; [reflexivity|].
  apply (group_lookup_is_case_sensitive account_case_mismatch alice_in_Admins).
  intros g p Hg Hp Hty _. simpl in Hg, Hp.
  destruct Hg as [<- | []].
  destruct Hp as [<- | [<- | []]]; simpl; discriminate.
Defined.

(* ================================================================= *)
(** ** The scan *)

(** Case analysis on every test of the goal. *)
Ltac case_ifs :=
  repeat match goal with
         | |- context [if ?c then _ else _] => destruct c
         end.

Module ScanFacts.
Import AuthorizationDetails.

Section WithCollaborators.

Variable X : Collaborators.

Lemma set_findings_same (s : t) : set_findings (findings s) s = s.
Proof. now destruct s. Qed.

Lemma scan_principal_type_details_run (r : detail_list_ref) (ex : Exclusions.t)
    (modify_only : bool) (s : t) :
  scan_principal_type_details X r (PyExclusions ex) modify_only s
  = (Returned tt, after_principal_scan X r ex modify_only s).
Proof.
  unfold scan_principal_type_details, after_principal_scan, resolved,
    bind, get, modify.
  destruct r; reflexivity.
Qed.

Lemma scan_policy_details_run (ex : Exclusions.t) (modify_only : bool) (s : t) :
  scan_policy_details X (PyExclusions ex) modify_only s
  = (Returned tt, fold_left (scan_policy X ex modify_only) (policies s) s).
Proof. reflexivity. Qed.

Lemma missing_resource_constraints_run (ex : Exclusions.t) (modify_only : bool)
    (s : t) :
  missing_resource_constraints X (PyExclusions ex) modify_only s
  = (Returned (Findings.json (findings (after_scan X ex modify_only s))),
     after_scan X ex modify_only s).
Proof.
  unfold missing_resource_constraints, after_scan, bind.
  unfold modify at 1. rewrite !scan_principal_type_details_run.
  unfold modify at 1. rewrite scan_policy_details_run.
  reflexivity.
Qed.

(** *** What the scan writes *)

(** The scan of one policy of a principal writes into the findings only,
    and what it writes depends on the findings only. *)
Lemma scan_principal_policy_frame (ex : Exclusions.t) (modify_only : bool)
    (p : PrincipalDetail) (s : t) (policy : PolicyEntry) :
  scan_principal_policy X ex modify_only p s policy
  = set_findings
      (findings (scan_principal_policy X ex modify_only p s policy)) s.
Proof.
  unfold scan_principal_policy.
  case_ifs; simpl; solve [reflexivity | symmetry; apply set_findings_same].
Qed.

Lemma scan_principal_policy_findings (ex : Exclusions.t) (modify_only : bool)
    (p : PrincipalDetail) (s s' : t) (policy : PolicyEntry) :
  findings s = findings s' ->
  findings (scan_principal_policy X ex modify_only p s policy)
  = findings (scan_principal_policy X ex modify_only p s' policy).
Proof.
  intros Hf. unfold scan_principal_policy.
  case_ifs; simpl; now rewrite ?Hf.
Qed.

(** A principal tagged ["Groups"] gets no finding. *)
Lemma scan_principal_policy_plural (ex : Exclusions.t) (modify_only : bool)
    (p : PrincipalDetail) (s : t) (policy : PolicyEntry) :
  principal_type p = "Groups" ->
  scan_principal_policy X ex modify_only p s policy = s.
Proof.
  intros Hp. unfold scan_principal_policy. rewrite Hp. simpl.
  case_ifs; reflexivity.
Qed.

Lemma scan_principal_frame (ex : Exclusions.t) (modify_only : bool)
    (p : PrincipalDetail) (s : t) :
  scan_principal X ex modify_only s p
  = set_findings (findings (scan_principal X ex modify_only s p)) s.
Proof.
  unfold scan_principal. revert s.
  induction (policy_list p) as [|policy l IH]; intros s; simpl.
  - symmetry. apply set_findings_same.
  - rewrite IH at 1. rewrite scan_principal_policy_frame at 2.
    now destruct s.
Qed.

Lemma scan_principal_findings (ex : Exclusions.t) (modify_only : bool)
    (p : PrincipalDetail) (s s' : t) :
  findings s = findings s' ->
  findings (scan_principal X ex modify_only s p)
  = findings (scan_principal X ex modify_only s' p).
Proof.
  unfold scan_principal. revert s s'.
  induction (policy_list p) as [|policy l IH]; intros s s' Hf; simpl.
  - exact Hf.
  - apply IH. now apply scan_principal_policy_findings.
Qed.

Lemma scan_principal_plural (ex : Exclusions.t) (modify_only : bool)
    (p : PrincipalDetail) (s : t) :
  principal_type p = "Groups" -> scan_principal X ex modify_only s p = s.
Proof.
  intros Hp. unfold scan_principal.
  induction (policy_list p) as [|policy l IH]; simpl; [reflexivity|].
  now rewrite scan_principal_policy_plural.
Qed.

Lemma scan_principals_frame (ex : Exclusions.t) (modify_only : bool)
    (l : list PrincipalDetail) (s : t) :
  fold_left (scan_principal X ex modify_only) l s
  = set_findings (findings (fold_left (scan_principal X ex modify_only) l s)) s.
Proof.
  revert s; induction l as [|p l IH]; intros s; simpl.
  - symmetry. apply set_findings_same.
  - rewrite IH at 1. rewrite scan_principal_frame at 2. now destruct s.
Qed.

Lemma scan_policy_frame (ex : Exclusions.t) (modify_only : bool)
    (s : t) (policy : PolicyDetail) :
  scan_policy X ex modify_only s policy
  = set_findings (findings (scan_policy X ex modify_only s policy)) s.
Proof.
  unfold scan_policy.
  case_ifs; simpl; solve [reflexivity | symmetry; apply set_findings_same].
Qed.

Lemma scan_policy_findings (ex : Exclusions.t) (modify_only : bool)
    (s s' : t) (policy : PolicyDetail) :
  findings s = findings s' ->
  findings (scan_policy X ex modify_only s policy)
  = findings (scan_policy X ex modify_only s' policy).
Proof.
  intros Hf. unfold scan_policy.
  case_ifs; simpl; now rewrite ?Hf.
Qed.

Lemma scan_policies_frame (ex : Exclusions.t) (modify_only : bool)
    (l : list PolicyDetail) (s : t) :
  fold_left (scan_policy X ex modify_only) l s
  = set_findings (findings (fold_left (scan_policy X ex modify_only) l s)) s.
Proof.
  revert s; induction l as [|p l IH]; intros s; simpl.
  - symmetry. apply set_findings_same.
  - rewrite IH at 1. rewrite scan_policy_frame at 2. now destruct s.
Qed.

Lemma scan_policies_findings (ex : Exclusions.t) (modify_only : bool)
    (l : list PolicyDetail) (s s' : t) :
  findings s = findings s' ->
  findings (fold_left (scan_policy X ex modify_only) l s)
  = findings (fold_left (scan_policy X ex modify_only) l s').
Proof.
  revert s s'; induction l as [|p l IH]; intros s s' Hf; simpl.
  - exact Hf.
  - apply IH. now apply scan_policy_findings.
Qed.

(** *** What the resolver writes *)

Lemma set_members_same (p : PrincipalDetail) : set_members p (members p) = p.
Proof. now destruct p. Qed.

Lemma members_changed_refl (p : PrincipalDetail) : members_changed p p.
Proof. now left. Qed.

Lemma members_changed_sym (p q : PrincipalDetail) :
  members_changed p q -> members_changed q p.
Proof.
  intros [-> | [Hp [m ->]]]; [now left|].
  right. split; [exact Hp|]. exists (members p). now destruct p.
Qed.

Lemma members_changed_trans (p q r : PrincipalDetail) :
  members_changed p q -> members_changed q r -> members_changed p r.
Proof.
  intros [-> | [Hp [m ->]]]; [tauto|].
  intros [-> | [_ [m' ->]]]; right; (split; [exact Hp|]).
  - now exists m.
  - now exists m'.
Qed.

Lemma resolve_members_changed (groups : groups_dict) (p : PrincipalDetail) :
  members_changed p (resolve_members groups p).
Proof.
  unfold resolve_members.
  destruct (String.eqb_spec (principal_type p) "Groups") as [Hp | Hp];
    [|now left].
  right. split; [exact Hp|].
  assert (Hloop : forall m0, exists m,
    fold_left (fun principal kv =>
      if lower (fst kv) =? lower (name principal)
      then set_members principal (members principal ++ snd kv)
      else principal) groups (set_members p m0) = set_members p m).
  { induction groups as [|kv groups IH]; intros m0; simpl.
    - now exists m0.
    - destruct (lower (fst kv) =? lower (name p)).
      + apply (IH (m0 ++ snd kv)).
      + apply IH. }
  destruct (Hloop (members p)) as [m Hm]. exists m.
  now rewrite set_members_same in Hm.
Qed.

Lemma resolved_changed (l l' : list PrincipalDetail) :
  Forall2 members_changed l l' ->
  Forall2 members_changed (resolved l) (resolved l').
Proof.
  unfold resolved.
  generalize (collect_groups l) as g, (collect_groups l') as g'.
  intros g g'. induction 1 as [|p q l l' Hpq _ IH]; simpl; constructor;
    [|exact IH].
  apply members_changed_trans with (q := p);
    [apply members_changed_sym, resolve_members_changed|].
  apply members_changed_trans with (q := q);
    [exact Hpq | apply resolve_members_changed].
Qed.

Lemma resolved_changed_self (l : list PrincipalDetail) :
  Forall2 members_changed l (resolved l).
Proof.
  unfold resolved. generalize (collect_groups l) as g. intros g.
  induction l as [|p l IH]; simpl; constructor;
    [apply resolve_members_changed | exact IH].
Qed.

(** Nothing is collected from a list without the tag ["Users"], and
    nothing is written into a list without the tag ["Groups"]. *)
Lemma collect_groups_no_plural (l : list PrincipalDetail) :
  (forall p, In p l -> principal_type p <> "Users") -> collect_groups l = [].
Proof.
  unfold collect_groups. generalize (@nil (string * list string)) as acc.
  induction l as [|p l IH]; intros acc Hl; simpl; [reflexivity|].
  destruct (String.eqb_spec (principal_type p) "Users") as [Hp | Hp].
  - exfalso. apply (Hl p); [now left | exact Hp].
  - apply IH. intros q Hq. apply Hl. now right.
Qed.

Lemma resolve_members_no_groups (p : PrincipalDetail) :
  resolve_members [] p = p.
Proof. unfold resolve_members. now destruct (principal_type p =? "Groups"). Qed.

Lemma resolve_members_not_plural (groups : groups_dict) (p : PrincipalDetail) :
  principal_type p <> "Groups" -> resolve_members groups p = p.
Proof.
  intros Hp. unfold resolve_members.
  now destruct (String.eqb_spec (principal_type p) "Groups").
Qed.

(** *** Two states of the same account give the same findings *)

Lemma scan_principals_sim (ex : Exclusions.t) (modify_only : bool)
    (l l' : list PrincipalDetail) (s s' : t) :
  Forall2 members_changed l l' ->
  findings s = findings s' ->
  findings (fold_left (scan_principal X ex modify_only) l s)
  = findings (fold_left (scan_principal X ex modify_only) l' s').
Proof.
  intros Hl. revert s s'.
  induction Hl as [|p q l l' Hpq _ IH]; intros s s' Hf; simpl; [exact Hf|].
  apply IH. destruct Hpq as [-> | [Hp [m ->]]].
  - now apply scan_principal_findings.
  - rewrite !scan_principal_plural by assumption. exact Hf.
Qed.

Lemma same_account_refl (s : t) : same_account s s.
Proof.
  repeat split;
    match goal with
    | |- Forall2 _ ?l ?l => induction l; constructor; auto using members_changed_refl
    end.
Qed.

Lemma same_account_set_findings (s s' : t) (f f' : Findings.t) :
  same_account s s' -> same_account (set_findings f s) (set_findings f' s').
Proof. intros H. exact H. Qed.

Lemma after_principal_scan_frame (r : detail_list_ref) (ex : Exclusions.t)
    (modify_only : bool) (s : t) :
  after_principal_scan X r ex modify_only s
  = set_findings (findings (after_principal_scan X r ex modify_only s))
      (assign r (resolved (deref r s)) s).
Proof. unfold after_principal_scan. apply scan_principals_frame. Qed.

Lemma after_principal_scan_sim (r : detail_list_ref) (ex : Exclusions.t)
    (modify_only : bool) (s s' : t) :
  same_account s s' -> findings s = findings s' ->
  same_account (after_principal_scan X r ex modify_only s)
               (after_principal_scan X r ex modify_only s')
  /\ findings (after_principal_scan X r ex modify_only s)
     = findings (after_principal_scan X r ex modify_only s').
Proof.
  intros Hs Hf. pose proof Hs as (Hpol & Hu & Hg & Hr). split.
  - rewrite (after_principal_scan_frame r ex modify_only s),
      (after_principal_scan_frame r ex modify_only s').
    apply same_account_set_findings.
    destruct r; repeat split; simpl; try assumption;
      now apply resolved_changed.
  - unfold after_principal_scan. apply scan_principals_sim.
    + destruct r; simpl; now apply resolved_changed.
    + destruct r; simpl; exact Hf.
Qed.

Lemma after_principal_scan_same_account (r : detail_list_ref) (ex : Exclusions.t)
    (modify_only : bool) (s : t) :
  same_account s (after_principal_scan X r ex modify_only s).
Proof.
  rewrite after_principal_scan_frame.
  apply (@same_account_set_findings s _ (findings s)).
  pose proof (same_account_refl s) as (Hpol & Hu & Hg & Hr).
  destruct r; repeat split; simpl; try assumption;
    apply resolved_changed_self.
Qed.

Lemma same_account_trans (s1 s2 s3 : t) :
  same_account s1 s2 -> same_account s2 s3 -> same_account s1 s3.
Proof.
  assert (Htrans : forall l1 l2, Forall2 members_changed l1 l2 ->
            forall l3, Forall2 members_changed l2 l3 ->
                       Forall2 members_changed l1 l3).
  { induction 1 as [|p q l1 l2 Hpq _ IH]; intros l3 H23; inversion H23; subst;
      constructor; [eapply members_changed_trans; eassumption | now apply IH]. }
  intros (Hp & Hu & Hg & Hr) (Hp' & Hu' & Hg' & Hr').
  repeat split; [congruence | | |]; eapply Htrans; eassumption.
Qed.

(** The mapping does not read the members. *)
Lemma flat_map_Forall2_eq (A B C : Type) (R : A -> B -> Prop)
    (f : A -> list C) (g : B -> list C) (l : list A) (m : list B) :
  (forall x y, R x y -> f x = g y) ->
  Forall2 R l m -> flat_map f l = flat_map g m.
Proof.
  intros Hfg. induction 1 as [|x y l m Hxy _ IH]; simpl; [reflexivity|].
  now rewrite (Hfg x y Hxy), IH.
Qed.

Lemma principal_rows_changed (all all' : list PrincipalDetail)
    (p q : PrincipalDetail) :
  Forall2 members_changed all all' -> members_changed p q ->
  principal_rows all p = principal_rows all' q.
Proof.
  intros Hall Hpq.
  assert (Hrows : forall x gm sp sp', members_changed sp sp' ->
            policy_rows x sp gm = policy_rows x sp' gm)
    by (intros x gm sp sp' [-> | [_ [m ->]]]; reflexivity).
  assert (Hgroup : forall x, group_rows all x = group_rows all' x).
  { intros x. unfold group_rows.
    destruct (principal_type x =? "User"); [|reflexivity].
    apply flat_map_ext. intros gm.
    apply (flat_map_Forall2_eq (R := members_changed)); [|exact Hall].
    intros sp sp' Hsp. rewrite (Hrows x (Some (group_member x)) sp sp' Hsp).
    destruct Hsp as [-> | [_ [m ->]]]; reflexivity. }
  unfold principal_rows. rewrite Hgroup.
  destruct Hpq as [-> | [_ [m ->]]]; reflexivity.
Qed.

Lemma principal_policy_mapping_sim (s s' : t) :
  same_account s s' ->
  principal_policy_mapping s = principal_policy_mapping s'.
Proof.
  intros (_ & Hu & Hg & Hr).
  assert (Hall : Forall2 members_changed (principals s) (principals s'))
    by (unfold principals; repeat apply Forall2_app; assumption).
  unfold principal_policy_mapping. f_equal.
  rewrite !BuilderFacts.unsorted_mapping_eq.
  apply (flat_map_Forall2_eq (R := members_changed)); [|exact Hall].
  intros p q Hpq. now apply principal_rows_changed.
Qed.

Lemma after_scan_sim (ex : Exclusions.t) (modify_only : bool) (s s' : t) :
  same_account s s' ->
  findings (after_scan X ex modify_only s)
  = findings (after_scan X ex modify_only s').
Proof.
  intros Hs. unfold after_scan.
  set (s0 := set_findings (Findings.new ex) s).
  set (s0' := set_findings (Findings.new ex) s').
  assert (H0 : same_account s0 s0' /\ findings s0 = findings s0')
    by (split; [exact Hs | reflexivity]).
  destruct H0 as [H0 F0].
  destruct (after_principal_scan_sim UserDetailList ex modify_only H0 F0)
    as [H1 F1].
  destruct (after_principal_scan_sim GroupDetailList ex modify_only H1 F1)
    as [H2 F2].
  destruct (after_principal_scan_sim RoleDetailList ex modify_only H2 F2)
    as [H3 F3].
  set (s3 := after_principal_scan X RoleDetailList ex modify_only _) in *.
  set (s3' := after_principal_scan X RoleDetailList ex modify_only _) in *.
  simpl policies. destruct H3 as (Hpol & Hu & Hg & Hr).
  rewrite <- Hpol.
  apply scan_policies_findings. simpl.
  rewrite F3. f_equal. apply principal_policy_mapping_sim.
  repeat split; assumption.
Qed.

Lemma after_scan_same_account (ex : Exclusions.t) (modify_only : bool) (s : t) :
  same_account s (after_scan X ex modify_only s).
Proof.
  unfold after_scan. rewrite scan_policies_frame.
  apply (@same_account_set_findings s _ (findings s)).
  apply (@same_account_set_findings s _ (findings s)).
  eapply same_account_trans; [|apply after_principal_scan_same_account].
  eapply same_account_trans; [|apply after_principal_scan_same_account].
  eapply same_account_trans; [|apply after_principal_scan_same_account].
  apply (@same_account_set_findings s s (findings s)).
  apply same_account_refl.
Qed.

(** *** The actions of the findings *)

Lemma truthy_nonempty (A : Type) (l : list A) : truthy l = true -> l <> [].
Proof. destruct l; [discriminate | intros _; discriminate]. Qed.

Lemma list_sort_nonempty (l : list string) : l <> [] -> list_sort l <> [].
Proof.
  intros Hl Hs. apply Hl. apply Permutation_nil.
  rewrite <- Hs. unfold list_sort. apply sorted_perm.
Qed.

Lemma dict_fromkeys_nonempty (l : list string) : l <> [] -> dict_fromkeys l <> [].
Proof.
  rewrite dict_fromkeys_first_occurrences.
  destruct l; [congruence | discriminate].
Qed.

Lemma scan_principal_policy_actions (ex : Exclusions.t) (modify_only : bool)
    (p : PrincipalDetail) (s : t) (policy : PolicyEntry) :
  findings_have_actions (findings s) ->
  findings_have_actions
    (findings (scan_principal_policy X ex modify_only p s policy)).
Proof.
  intros (Hu & Hg & Hr & Hp). unfold scan_principal_policy.
  destruct (is_policy_excluded X ex (pe_PolicyName policy));
    [repeat split; assumption|].
  destruct (is_principal_excluded X p ex); [repeat split; assumption|].
  destruct (truthy _) eqn:Hc; [|repeat split; assumption].
  apply truthy_nonempty in Hc.
  case_ifs; repeat split; simpl; try assumption;
    apply Forall_app; (split; [assumption|]); repeat constructor; exact Hc.
Qed.

Lemma scan_policy_actions (ex : Exclusions.t) (modify_only : bool)
    (s : t) (policy : PolicyDetail) :
  findings_have_actions (findings s) ->
  findings_have_actions (findings (scan_policy X ex modify_only s policy)).
Proof.
  intros (Hu & Hg & Hr & Hp). unfold scan_policy.
  destruct (_ || _); [repeat split; assumption|].
  destruct (truthy _) eqn:Hc; [|repeat split; assumption].
  apply truthy_nonempty in Hc.
  repeat split; simpl; try assumption.
  apply Forall_app; (split; [assumption|]); repeat constructor.
  simpl. now apply list_sort_nonempty, dict_fromkeys_nonempty.
Qed.

Lemma after_principal_scan_actions (r : detail_list_ref) (ex : Exclusions.t)
    (modify_only : bool) (s : t) :
  findings_have_actions (findings s) ->
  findings_have_actions (findings (after_principal_scan X r ex modify_only s)).
Proof.
  intros Hs. unfold after_principal_scan.
  assert (Hs' : findings_have_actions
                  (findings (assign r (resolved (deref r s)) s)))
    by (destruct r; exact Hs).
  revert Hs'. generalize (assign r (resolved (deref r s)) s) as s0.
  induction (resolved (deref r s)) as [|p l IH]; intros s0 Hs0; simpl;
    [exact Hs0|].
  apply IH. unfold scan_principal. revert s0 Hs0.
  induction (policy_list p) as [|policy pl IHp]; intros s0 Hs0; simpl;
    [exact Hs0|].
  apply IHp. now apply scan_principal_policy_actions.
Qed.

Lemma scan_policies_actions (ex : Exclusions.t) (modify_only : bool)
    (l : list PolicyDetail) (s : t) :
  findings_have_actions (findings s) ->
  findings_have_actions (findings (fold_left (scan_policy X ex modify_only) l s)).
Proof.
  revert s; induction l as [|policy l IH]; intros s Hs; simpl; [exact Hs|].
  apply IH. now apply scan_policy_actions.
Qed.

(** Every finding of a scan has at least one action. *)
Lemma after_scan_actions (ex : Exclusions.t) (modify_only : bool) (s : t) :
  findings_have_actions (findings (after_scan X ex modify_only s)).
Proof.
  unfold after_scan. apply scan_policies_actions. simpl.
  match goal with
  | |- findings_have_actions (Findings.set_principal_policy_mapping ?f _) =>
      assert (Hf : findings_have_actions f); [|exact Hf]
  end.
  do 3 apply after_principal_scan_actions.
  repeat split; constructor.
Qed.

(** The finding of a user carries the actions as the statement loop left
    them. *)
Lemma scan_principal_policy_user (ex : Exclusions.t) (modify_only : bool)
    (p : PrincipalDetail) (s : t) (policy : PolicyEntry) :
  principal_type p = "User" ->
  is_policy_excluded X ex (pe_PolicyName policy) = false ->
  is_principal_excluded X p ex = false ->
  collect_actions X ex modify_only (statements (pe_PolicyDocument policy)) <> [] ->
  Findings.users (findings (scan_principal_policy X ex modify_only p s policy))
  = Findings.users (findings s)
    ++ [UserFinding (pe_PolicyName policy) (arn p)
          (collect_actions X ex modify_only (statements (pe_PolicyDocument policy)))
          (pe_PolicyDocument policy) ex (attached_managed_policies p)
          (group_member p)].
Proof.
  intros Hp Hpol Hpr Hc. unfold scan_principal_policy.
  rewrite Hpol, Hpr, Hp.
  destruct (collect_actions X ex modify_only (statements (pe_PolicyDocument policy)));
    [congruence | reflexivity].
Qed.

End WithCollaborators.

End ScanFacts.

(** C6. On an [Exclusions] object [missing_resource_constraints] returns
    the snapshot of the findings, and a second call with the same
    arguments, on the object as the first call left it, returns the same
    snapshot: the findings are reset, and what the first call wrote into
    the principals is not read by the second. Whatever findings the
    object holds before a call, the call returns the same snapshot. *)
Theorem scan_twice_same_output
    (X : Collaborators) (ex : Exclusions.t) (modify_only : bool)
    (self : AuthorizationDetails.t) :
  fst (AuthorizationDetails.missing_resource_constraints X
         (PyExclusions ex) modify_only self)
  = Returned (Findings.json
                (AuthorizationDetails.findings (after_scan X ex modify_only self)))
  /\ fst (AuthorizationDetails.missing_resource_constraints X
            (PyExclusions ex) modify_only
            (snd (AuthorizationDetails.missing_resource_constraints X
                    (PyExclusions ex) modify_only self)))
     = fst (AuthorizationDetails.missing_resource_constraints X
              (PyExclusions ex) modify_only self)
  /\ forall stale : Findings.t,
       fst (AuthorizationDetails.missing_resource_constraints X
              (PyExclusions ex) modify_only
              (AuthorizationDetails.set_findings stale self))
       = fst (AuthorizationDetails.missing_resource_constraints X
                (PyExclusions ex) modify_only self).
Proof.
  split; [|split].
  - now rewrite ScanFacts.missing_resource_constraints_run.
  - rewrite !ScanFacts.missing_resource_constraints_run. simpl.
    do 2 f_equal. symmetry.
    apply ScanFacts.after_scan_sim, ScanFacts.after_scan_same_account.
  - intros stale. reflexivity.
Qed.

(** C7. Called with an argument that is not an [Exclusions] object, each
    of [missing_resource_constraints], [scan_policy_details],
    [scan_principal_type_details] and
    [get_post_exclusion_principal_policy_mapping] raises its exception and
    leaves the object it is called on as it was. *)
Theorem non_exclusions_argument_raises
    (X : Collaborators) (exclusions : pyobj) (modify_only : bool)
    (r : AuthorizationDetails.detail_list_ref)
    (self : AuthorizationDetails.t) (mapping : PrincipalPolicyMapping.t)
    (Hnot : isinstance_Exclusions exclusions = false) :
  AuthorizationDetails.missing_resource_constraints X exclusions modify_only self
  = (Raised (Exception NOT_EXCLUSIONS_MSG), self)
  /\ AuthorizationDetails.scan_policy_details X exclusions modify_only self
     = (Raised (Exception NOT_EXCLUSIONS_MSG), self)
  /\ AuthorizationDetails.scan_principal_type_details X r exclusions modify_only self
     = (Raised (Exception NOT_EXCLUSIONS_MSG), self)
  /\ PrincipalPolicyMapping.get_post_exclusion_principal_policy_mapping
       exclusions mapping
     = (Raised (Exception PrincipalPolicyMapping.FILTER_NOT_EXCLUSIONS_MSG),
        mapping).
Proof.
  destruct exclusions; try discriminate Hnot; repeat split.
Qed.

(** [None] in place of the exclusions: the scan raises and the account is
    as before. *)
Lemma non_exclusions_argument_raises_witness :
  AuthorizationDetails.missing_resource_constraints simple_collaborators
    PyNone true account_bob
  = (Raised (Exception NOT_EXCLUSIONS_MSG), account_bob).
Proof.
  apply (non_exclusions_argument_raises simple_collaborators PyNone true
           AuthorizationDetails.UserDetailList account_bob sample_mapping).
  reflexivity.
Defined.

(** The members of the principals of a snapshot are never written: on
    principals tagged ["User"], ["Group"] or ["Role"] the first two loops
    of [scan_principal_type_details] do nothing. *)
Lemma resolver_does_nothing (l : list PrincipalDetail) :
  (forall p, In p l -> singular_tag p) -> resolved l = l.
Proof.
  intros Hl. unfold resolved. rewrite ScanFacts.collect_groups_no_plural.
  - rewrite <- (map_id l) at 2. apply map_ext.
    intros p. apply ScanFacts.resolve_members_no_groups.
  - intros p Hp Hty. destruct (Hl p Hp) as [H | [H | H]];
      rewrite H in Hty; discriminate.
Qed.

(** C3, on the account where alice declares the group [admins]. After the
    scan the members of [admins] are still empty, and the finding of the
    group is built with no member: the resolver tests the tags ["Users"]
    and ["Groups"], which no principal carries. *)
Theorem resolver_leaves_members_empty :
  map members
    (AuthorizationDetails.group_detail_list
       (snd (AuthorizationDetails.missing_resource_constraints
               simple_collaborators (PyExclusions no_exclusions) true
               account_alice_admins)))
  = [[]]
  /\ map members
       (AuthorizationDetails.group_detail_list
          (snd (AuthorizationDetails.scan_principal_type_details
                  simple_collaborators AuthorizationDetails.GroupDetailList
                  (PyExclusions no_exclusions) true account_alice_admins)))
     = [[]]
  /\ fst (AuthorizationDetails.missing_resource_constraints
            simple_collaborators (PyExclusions no_exclusions) true
            account_alice_admins)
     = Returned
         {| Findings.json_policies := [];
            Findings.json_users := [];
            Findings.json_groups :=
              [GroupFinding "AdminAccess" "arn:aws:iam::123456789012:group/admins"
                 ["s3:DeleteBucket"] delete_document no_exclusions [] []];
            Findings.json_roles := [];
            Findings.json_principal_policy_mapping :=
              AuthorizationDetails.principal_policy_mapping account_alice_admins |}.
Proof. repeat split. Qed.

(** C4, on the account of bob. The policy of bob has three Allow
    statements, reported as [s3:PutObject], [ec2:TerminateInstances],
    [s3:PutObject]. The finding of the user is built with these three
    actions as they were collected; the finding of the standalone policy
    with the same document is built with the two actions, deduplicated
    and sorted. *)
Theorem user_finding_actions_as_collected :
  exists j,
    fst (AuthorizationDetails.missing_resource_constraints
           simple_collaborators (PyExclusions no_exclusions) true account_bob)
    = Returned j
    /\ map finding_actions (Findings.json_users j)
       = [["s3:PutObject"; "ec2:TerminateInstances"; "s3:PutObject"]]
    /\ map finding_actions (Findings.json_policies j)
       = [["ec2:TerminateInstances"; "s3:PutObject"]]
    /\ list_sort
         (dict_fromkeys ["s3:PutObject"; "ec2:TerminateInstances"; "s3:PutObject"])
       = ["ec2:TerminateInstances"; "s3:PutObject"].
Proof.
  eexists. split; [reflexivity|]. repeat split.
Qed.

(** The part of C4 that holds on every account: a finding is added only
    with a non-empty list of actions. *)
Lemma every_finding_has_actions
    (X : Collaborators) (ex : Exclusions.t) (modify_only : bool)
    (self : AuthorizationDetails.t) :
  exists j,
    fst (AuthorizationDetails.missing_resource_constraints X
           (PyExclusions ex) modify_only self) = Returned j
    /\ Forall (fun x => finding_actions x <> []) (all_findings j).
Proof.
  rewrite ScanFacts.missing_resource_constraints_run. simpl.
  eexists. split; [reflexivity|].
  destruct (ScanFacts.after_scan_actions X ex modify_only self)
    as (Hu & Hg & Hr & Hp).
  unfold all_findings. simpl. repeat (apply Forall_app; split); assumption.
Qed.

(* ================================================================= *)
(** ** More on the mapping filter *)

Module FilterMore.
Import PrincipalPolicyMapping.

Lemma entries_add (acc : t) (e : Entry.t) : entries (add acc e) = entries acc ++ [e].
Proof. reflexivity. Qed.

Lemma group_loop_cons (ex : Exclusions.t) (g : Entry.t) (l : list Entry.t) (acc : t) :
  group_loop ex (g :: l) acc
  = group_loop ex l
      (if group_not_excluded ex g && policy_not_excluded ex g
          && in_list (lower (Entry.principal_name g))
               (lowered_comments (entries acc))
       then add acc g else acc).
Proof.
  unfold group_loop. simpl. rewrite FilterFacts.non_excluded_groups_eq.
  unfold group_not_excluded, policy_not_excluded.
  destruct (negb (in_list (lower (Entry.principal_name g)) (Exclusions.groups ex)));
    [|reflexivity].
  destruct (negb (in_list (lower (Entry.policy_name g)) (Exclusions.policies ex)));
    [|reflexivity].
  now destruct (in_list (lower (Entry.principal_name g)) (lowered_comments (entries acc))).
Qed.

Lemma group_loop_keeps (ex : Exclusions.t) (l : list Entry.t) (acc : t) :
  incl (entries acc) (entries (group_loop ex l acc)).
Proof.
  destruct (FilterFacts.group_loop_appends ex l acc) as [added [Heq _]].
  rewrite Heq. apply incl_appl, incl_refl.
Qed.

Lemma lowered_comments_incl (l l' : list Entry.t) :
  incl l l' -> incl (lowered_comments l) (lowered_comments l').
Proof.
  intros Hl s Hs. apply in_lowered_comments in Hs.
  destruct Hs as (u & g & Hu & Hg & Hs). apply in_lowered_comments.
  exists u, g. repeat split; auto.
Qed.

(** What the group loop adds passed the three tests. *)
Lemma group_loop_added (ex : Exclusions.t) (l : list Entry.t) (acc : t) (e : Entry.t) :
  In e (entries (group_loop ex l acc)) ->
  In e (entries acc)
  \/ (In e l /\ group_not_excluded ex e = true /\ policy_not_excluded ex e = true
      /\ In (lower (Entry.principal_name e))
           (lowered_comments (entries (group_loop ex l acc)))).
Proof.
  revert acc; induction l as [|g l IH]; intros acc He; [now left|].
  rewrite group_loop_cons in *.
  destruct (group_not_excluded ex g && policy_not_excluded ex g
            && in_list (lower (Entry.principal_name g))
                 (lowered_comments (entries acc))) eqn:Hg.
  - destruct (IH _ He) as [Hacc | (Hin & H)].
    + rewrite entries_add in Hacc. apply in_app_iff in Hacc.
      destruct Hacc as [Hacc | [<- | []]]; [now left|].
      right. apply andb_true_iff in Hg. destruct Hg as [Hg Hc].
      apply andb_true_iff in Hg. destruct Hg as [Hn Hp].
      repeat split; try assumption; [now left|].
      apply in_list_In in Hc.
      apply (lowered_comments_incl
               (incl_tran (incl_appl [g] (incl_refl _))
                          (group_loop_keeps ex l (add acc g)))).
      exact Hc.
    + right. split; [now right | exact H].
  - destruct (IH _ He) as [Hacc | (Hin & H)]; [now left|].
    right. split; [now right | exact H].
Qed.

(** A group entry that passes the three tests on [acc] is added. *)
Lemma group_loop_admits (ex : Exclusions.t) (l : list Entry.t) (acc : t) (e : Entry.t) :
  In e l -> group_not_excluded ex e = true -> policy_not_excluded ex e = true ->
  In (lower (Entry.principal_name e)) (lowered_comments (entries acc)) ->
  In e (entries (group_loop ex l acc)).
Proof.
  intros Hin Hn Hp. revert acc Hin.
  induction l as [|g l IH]; intros acc Hin Hc; [destruct Hin|].
  rewrite group_loop_cons.
  destruct Hin as [-> | Hin].
  - apply in_list_In in Hc. rewrite Hn, Hp, Hc. cbn [andb].
    apply group_loop_keeps. rewrite entries_add. apply in_app_iff.
    right. now left.
  - apply IH; [exact Hin|].
    case_ifs; [|exact Hc].
    rewrite entries_add.
    apply (lowered_comments_incl (incl_appl [g] (incl_refl _))). exact Hc.
Qed.

(** With no comment to match, the group loop adds nothing. *)
Lemma group_loop_nothing (ex : Exclusions.t) (l : list Entry.t) (acc : t) :
  lowered_comments (entries acc) = [] -> group_loop ex l acc = acc.
Proof.
  intros Hc. induction l as [|g l IH]; [reflexivity|].
  rewrite group_loop_cons, Hc. simpl. rewrite andb_false_r. exact IH.
Qed.

(** More exclusions, fewer entries: the group loop. *)
Lemma group_loop_monotone (ex ex' : Exclusions.t) (l : list Entry.t) (acc acc' : t) :
  excludes_more ex ex' ->
  incl (entries acc') (entries acc) ->
  incl (entries (group_loop ex' l acc')) (entries (group_loop ex l acc)).
Proof.
  intros (_ & Hg & _ & Hp). revert acc acc'.
  induction l as [|g l IH]; intros acc acc' Hacc; [exact Hacc|].
  rewrite !group_loop_cons. apply IH.
  destruct (group_not_excluded ex' g && policy_not_excluded ex' g
            && in_list (lower (Entry.principal_name g))
                 (lowered_comments (entries acc'))) eqn:Hg'.
  - apply andb_true_iff in Hg'. destruct Hg' as [Hg' Hc].
    apply andb_true_iff in Hg'. destruct Hg' as [Hn' Hp'].
    unfold group_not_excluded, policy_not_excluded in *.
    apply negb_true_iff, in_list_false in Hn', Hp'.
    assert (Hn : in_list (lower (Entry.principal_name g)) (Exclusions.groups ex) = false)
      by (apply in_list_false; intros H; apply Hn', Hg, H).
    assert (Hpo : in_list (lower (Entry.policy_name g)) (Exclusions.policies ex) = false)
      by (apply in_list_false; intros H; apply Hp', Hp, H).
    apply in_list_In, (lowered_comments_incl Hacc), in_list_In in Hc.
    rewrite Hn, Hpo, Hc. cbn [andb negb]. rewrite !entries_add.
    apply incl_app; [apply incl_appl, Hacc | apply incl_appr, incl_refl].
  - case_ifs; [|exact Hacc].
    rewrite entries_add. apply incl_appl. exact Hacc.
Qed.

Lemma filter_keep_all (A : Type) (f : A -> bool) (l : list A) :
  (forall x, In x l -> f x = true) -> filter f l = l.
Proof.
  induction l as [|x l IH]; intros H; simpl; [reflexivity|].
  rewrite (H x) by now left. f_equal. apply IH. intros y Hy. apply H. now right.
Qed.

Lemma filter_keep_none (A : Type) (f : A -> bool) (l : list A) :
  (forall x, In x l -> f x = false) -> filter f l = [].
Proof.
  induction l as [|x l IH]; intros H; simpl; [reflexivity|].
  rewrite (H x) by now left. apply IH. intros y Hy. apply H. now right.
Qed.

End FilterMore.

(** X1. A Role entry of the mapping is in the output of the filter if and
    only if its lower-cased principal name is not in [exclusions.roles]
    and its lower-cased policy name is not in [exclusions.policies]; its
    comment and the other entries play no part. *)
Theorem role_entry_survives_iff
    (self : PrincipalPolicyMapping.t) (ex : Exclusions.t) (e : Entry.t)
    (Hrole : Entry.principal_type e = "Role") :
  In e (PrincipalPolicyMapping.entries (filtered_mapping self ex)) <->
  In e (PrincipalPolicyMapping.entries self)
  /\ ~ In (lower (Entry.principal_name e)) (Exclusions.roles ex)
  /\ ~ In (lower (Entry.policy_name e)) (Exclusions.policies ex).
Proof.
  destruct (FilterFacts.filtered_mapping_parts self ex) as [added [Heq Hincl]].
  rewrite Heq, !in_app_iff, filter_In, andb_true_iff.
  unfold PrincipalPolicyMapping.roles. rewrite FilterFacts.in_of_type.
  unfold role_not_excluded, policy_not_excluded.
  rewrite !negb_true_iff, !in_list_false.
  split.
  - intros [Hu | [Hg | Hr]].
    + apply surviving_users_are_users in Hu. congruence.
    + apply Hincl, FilterFacts.in_of_type in Hg. destruct Hg as [_ Hg]. congruence.
    + tauto.
  - intros (Hin & Hn & Hp). right; right. tauto.
Qed.

Lemma role_entry_survives_iff_witness :
  In (mapping_entry "Role" "deployer" "Deploy" None)
    (PrincipalPolicyMapping.entries (filtered_mapping sample_mapping exclude_ops)).
Proof.
  apply (role_entry_survives_iff sample_mapping exclude_ops
           (mapping_entry "Role" "deployer" "Deploy" None) eq_refl).
  simpl. tauto.
Defined.

(** X2. The output of the filter holds entries of the mapping only, tagged
    ["User"], ["Group"] or ["Role"], the users first, then the groups,
    then the roles: it is the concatenation of its own [users], [groups]
    and [roles]. An entry with another tag is never in the output. *)
Theorem filtered_mapping_by_type
    (self : PrincipalPolicyMapping.t) (ex : Exclusions.t) :
  PrincipalPolicyMapping.entries (filtered_mapping self ex)
  = PrincipalPolicyMapping.users (filtered_mapping self ex)
    ++ PrincipalPolicyMapping.groups (filtered_mapping self ex)
    ++ PrincipalPolicyMapping.roles (filtered_mapping self ex)
  /\ incl (PrincipalPolicyMapping.entries (filtered_mapping self ex))
          (PrincipalPolicyMapping.entries self).
Proof.
  destruct (FilterFacts.filtered_mapping_parts self ex) as [added [Heq Hincl]].
  assert (Hu : forall x, In x (surviving_users self ex) ->
                 Entry.principal_type x = "User")
    by apply surviving_users_are_users.
  assert (Hg : forall x, In x added -> Entry.principal_type x = "Group").
  { intros x Hx. apply Hincl, FilterFacts.in_of_type in Hx. tauto. }
  set (kept := filter (fun e => role_not_excluded ex e && policy_not_excluded ex e)
                 (PrincipalPolicyMapping.roles self)) in *.
  assert (Hr : forall x, In x kept -> Entry.principal_type x = "Role").
  { intros x Hx. apply filter_In in Hx. destruct Hx as [Hx _].
    apply FilterFacts.in_of_type in Hx. tauto. }
  split.
  - unfold PrincipalPolicyMapping.users, PrincipalPolicyMapping.groups,
      PrincipalPolicyMapping.roles.
    rewrite !FilterFacts.of_type_filter, Heq, !filter_app.
    rewrite (FilterMore.filter_keep_all _ (surviving_users self ex)),
      (FilterMore.filter_keep_none _ added),
      (FilterMore.filter_keep_none _ kept),
      (FilterMore.filter_keep_none _ (surviving_users self ex)),
      (FilterMore.filter_keep_all _ added),
      (FilterMore.filter_keep_none _ kept),
      (FilterMore.filter_keep_none _ (surviving_users self ex)),
      (FilterMore.filter_keep_none _ added),
      (FilterMore.filter_keep_all _ kept);
      try (intros x Hx; first [apply Hu in Hx | apply Hg in Hx | apply Hr in Hx];
           rewrite Hx; reflexivity).
    now rewrite !app_nil_r.
  - rewrite Heq. intros x Hx. rewrite !in_app_iff in Hx.
    destruct Hx as [Hx | [Hx | Hx]].
    + rewrite FilterFacts.surviving_users_eq, in_flat_map in Hx.
      destruct Hx as [y [Hy Hx]]. apply FilterFacts.in_user_copies in Hx.
      destruct Hx as [-> _]. apply FilterFacts.in_of_type in Hy. tauto.
    + apply Hincl, FilterFacts.in_of_type in Hx. tauto.
    + apply filter_In in Hx. destruct Hx as [Hx _].
      apply FilterFacts.in_of_type in Hx. tauto.
Qed.

(** X3. Excluding more never brings an entry in: when every list of
    [ex'] contains the list of [ex], every entry of the mapping filtered
    with [ex'] is an entry of the mapping filtered with [ex]. *)
Theorem filter_monotone
    (self : PrincipalPolicyMapping.t) (ex ex' : Exclusions.t)
    (Hmore : excludes_more ex ex') :
  incl (PrincipalPolicyMapping.entries (filtered_mapping self ex'))
       (PrincipalPolicyMapping.entries (filtered_mapping self ex)).
Proof.
  pose proof Hmore as (Hu & Hg & Hr & Hp).
  unfold filtered_mapping, PrincipalPolicyMapping.filter_groups.
  rewrite !FilterFacts.filter_roles_entries.
  apply incl_app.
  - apply incl_appl. apply FilterMore.group_loop_monotone; [exact Hmore|].
    fold (surviving_users self ex') (surviving_users self ex).
    rewrite !FilterFacts.surviving_users_eq.
    intros x Hx. apply in_flat_map in Hx. destruct Hx as [y [Hy Hx]].
    apply in_flat_map. exists y. split; [exact Hy|].
    apply FilterFacts.in_user_copies in Hx.
    destruct Hx as (-> & Hn & Hpo & g & Hgin & Hgex).
    apply FilterFacts.in_user_copies.
    unfold user_not_excluded, policy_not_excluded in *.
    apply negb_true_iff, in_list_false in Hn, Hpo.
    repeat split.
    + apply negb_true_iff, in_list_false. intros H. apply Hn, Hu, H.
    + apply negb_true_iff, in_list_false. intros H. apply Hpo, Hp, H.
    + exists g. split; [exact Hgin|]. intros H. apply Hgex, Hg, H.
  - apply incl_appr. intros x Hx. apply filter_In in Hx.
    destruct Hx as [Hx Ht]. apply filter_In. split; [exact Hx|].
    apply andb_true_iff in Ht. destruct Ht as [Hn Hpo].
    unfold role_not_excluded, policy_not_excluded in *.
    apply negb_true_iff, in_list_false in Hn, Hpo.
    apply andb_true_iff. split; apply negb_true_iff, in_list_false; intros H.
    + apply Hn, Hr, H.
    + apply Hpo, Hp, H.
Qed.

Lemma filter_monotone_witness :
  incl (PrincipalPolicyMapping.entries (filtered_mapping sample_mapping exclude_ops))
       (PrincipalPolicyMapping.entries (filtered_mapping sample_mapping no_exclusions)).
Proof.
  apply (filter_monotone sample_mapping (ex := no_exclusions) (ex' := exclude_ops)).
  repeat split; intros x [].
Defined.

(** X4. The group rule on every mapping. A Group entry whose name and
    policy are not excluded and whose lower-cased name is the lower-cased
    comment entry of a surviving User entry is in the output. Conversely a
    Group entry of the output is an entry of the mapping whose name and
    policy are not excluded and whose lower-cased name is the lower-cased
    comment entry of an entry of the output. *)
Theorem group_entry_survives_bounds
    (self : PrincipalPolicyMapping.t) (ex : Exclusions.t) (e : Entry.t)
    (Hgroup : Entry.principal_type e = "Group") :
  (In e (PrincipalPolicyMapping.entries self) ->
   ~ In (lower (Entry.principal_name e)) (Exclusions.groups ex) ->
   ~ In (lower (Entry.policy_name e)) (Exclusions.policies ex) ->
   In (lower (Entry.principal_name e))
      (lowered_comments (surviving_users self ex)) ->
   In e (PrincipalPolicyMapping.entries (filtered_mapping self ex)))
  /\ (In e (PrincipalPolicyMapping.entries (filtered_mapping self ex)) ->
      In e (PrincipalPolicyMapping.entries self)
      /\ ~ In (lower (Entry.principal_name e)) (Exclusions.groups ex)
      /\ ~ In (lower (Entry.policy_name e)) (Exclusions.policies ex)
      /\ In (lower (Entry.principal_name e))
            (lowered_comments
               (PrincipalPolicyMapping.entries (filtered_mapping self ex)))).
Proof.
  split.
  - intros Hin Hn Hp Hc.
    unfold filtered_mapping, PrincipalPolicyMapping.filter_groups.
    rewrite FilterFacts.filter_roles_entries. apply in_app_iff. left.
    apply FilterMore.group_loop_admits.
    + apply FilterFacts.in_of_type. now split.
    + unfold group_not_excluded. apply negb_true_iff. now apply in_list_false.
    + unfold policy_not_excluded. apply negb_true_iff. now apply in_list_false.
    + exact Hc.
  - intros Hin.
    assert (Hparts :
      PrincipalPolicyMapping.entries (filtered_mapping self ex)
      = PrincipalPolicyMapping.entries
          (PrincipalPolicyMapping.group_loop ex
             (PrincipalPolicyMapping.groups self)
             (PrincipalPolicyMapping.filter_users self ex PrincipalPolicyMapping.new))
        ++ filter (fun e => role_not_excluded ex e && policy_not_excluded ex e)
             (PrincipalPolicyMapping.roles self))
      by (unfold filtered_mapping, PrincipalPolicyMapping.filter_groups;
          apply FilterFacts.filter_roles_entries).
    rewrite Hparts in Hin. apply in_app_iff in Hin.
    destruct Hin as [Hin | Hin].
    + apply FilterMore.group_loop_added in Hin.
      destruct Hin as [Hin | (Hin & Hn & Hp & Hc)].
      * apply (surviving_users_are_users self ex) in Hin. congruence.
      * apply FilterFacts.in_of_type in Hin.
        unfold group_not_excluded in Hn. unfold policy_not_excluded in Hp.
        apply negb_true_iff, in_list_false in Hn, Hp.
        repeat split; try tauto.
        rewrite Hparts.
        apply (FilterMore.lowered_comments_incl (incl_appl _ (incl_refl _))).
        exact Hc.
    + apply filter_In in Hin. destruct Hin as [Hin _].
      apply FilterFacts.in_of_type in Hin. destruct Hin as [_ Hin]. congruence.
Qed.

(** The group of alice, with a capital in her comment, is kept. *)
Lemma group_entry_survives_bounds_witness :
  In (mapping_entry "Group" "admins" "AdminAccess" None)
    (PrincipalPolicyMapping.entries (filtered_mapping sample_mapping no_exclusions)).
Proof.
  apply (group_entry_survives_bounds sample_mapping no_exclusions
           (mapping_entry "Group" "admins" "AdminAccess" None) eq_refl).
  - simpl. tauto.
  - simpl. tauto.
  - simpl. tauto.
  - vm_compute. tauto.
Defined.

(** X5 (witness of [group_entry_survives_iff_without_group_comments]): the
    Group entries of the sample mapping carry no comment, and the group of
    auditors, in no comment of a user, is dropped. *)
Lemma group_entry_survives_iff_without_group_comments_witness :
  ~ In (mapping_entry "Group" "auditors" "ReadAll" None)
      (PrincipalPolicyMapping.entries (filtered_mapping sample_mapping no_exclusions)).
Proof.
  intros Hin.
  apply (group_entry_survives_iff_without_group_comments sample_mapping
           no_exclusions (mapping_entry "Group" "auditors" "ReadAll" None)) in Hin.
  - destruct Hin as (_ & _ & _ & u & g & Hu & _ & Hg & Hl).
    vm_compute in Hu.
    destruct Hu as [<- | [<- | []]]; simpl in Hg;
      destruct Hg as [<- | [<- | []]]; discriminate Hl.
  - intros g Hg Hty. simpl in Hg.
    destruct Hg as [<- | [<- | [<- | [<- | [<- | []]]]]];
      solve [discriminate Hty | reflexivity].
  - reflexivity.
Defined.

(** X6. The cascade from the users to the groups: when no User entry
    survives, no Group entry is in the output, excluded or not; the output
    is made of the Role entries that pass their two tests. *)
Theorem no_surviving_user_no_group
    (self : PrincipalPolicyMapping.t) (ex : Exclusions.t)
    (Hnone : surviving_users self ex = []) :
  PrincipalPolicyMapping.entries (filtered_mapping self ex)
  = filter (fun e => role_not_excluded ex e && policy_not_excluded ex e)
      (PrincipalPolicyMapping.roles self)
  /\ forall e, In e (PrincipalPolicyMapping.entries (filtered_mapping self ex)) ->
               Entry.principal_type e = "Role".
Proof.
  assert (Heq :
    PrincipalPolicyMapping.entries (filtered_mapping self ex)
    = filter (fun e => role_not_excluded ex e && policy_not_excluded ex e)
        (PrincipalPolicyMapping.roles self)).
  { unfold filtered_mapping, PrincipalPolicyMapping.filter_groups.
    rewrite FilterFacts.filter_roles_entries, FilterMore.group_loop_nothing.
    - fold (surviving_users self ex). now rewrite Hnone.
    - fold (surviving_users self ex). now rewrite Hnone. }
  split; [exact Heq|].
  intros e He. rewrite Heq in He. apply filter_In in He. destruct He as [He _].
  apply FilterFacts.in_of_type in He. tauto.
Qed.

(** alice is excluded and bob has no inherited entry: only the role is
    left, the group of admins goes with alice. *)
Lemma no_surviving_user_no_group_witness :
  PrincipalPolicyMapping.entries (filtered_mapping sample_mapping exclude_alice)
  = [mapping_entry "Role" "deployer" "Deploy" None].
Proof.
  apply (no_surviving_user_no_group sample_mapping exclude_alice).
  reflexivity.
Defined.

(* ================================================================= *)
(** ** More on the mapping builder *)

Module BuilderMore.
Import AuthorizationDetails.

Lemma in_policy_rows (p source : PrincipalDetail) (gm : option (list string))
    (r : MappingRow) :
  In r (policy_rows p source gm) <->
  (exists ip, In ip (inline_principal_policies source) /\ r = inline_row p ip gm)
  \/ (exists a, In a (attached_managed_policies source) /\ r = managed_row p a gm).
Proof.
  unfold policy_rows. rewrite in_app_iff, !in_map_iff.
  split; (intros [[x [H1 H2]] | [x [H1 H2]]]; [left | right]; exists x; auto).
Qed.

Lemma in_group_rows (all : list PrincipalDetail) (p : PrincipalDetail) (r : MappingRow) :
  In r (group_rows all p) <->
  principal_type p = "User"
  /\ exists g grp, In g (group_member p) /\ In grp all
                   /\ principal_type grp = "Group" /\ name grp = g
                   /\ In r (policy_rows p grp (Some (group_member p))).
Proof.
  unfold group_rows.
  destruct (String.eqb_spec (principal_type p) "User") as [Hp | Hp].
  - rewrite in_flat_map. split.
    + intros [g [Hg Hr]]. apply in_flat_map in Hr. destruct Hr as [grp [Hgrp Hr]].
      destruct (String.eqb_spec (principal_type grp) "Group") as [Hty | Hty];
        [|destruct Hr].
      destruct (String.eqb_spec (name grp) g) as [Hn | Hn]; [|destruct Hr].
      split; [exact Hp|]. exists g, grp. auto.
    + intros (_ & g & grp & Hg & Hgrp & Hty & Hn & Hr). exists g.
      split; [exact Hg|]. apply in_flat_map. exists grp. split; [exact Hgrp|].
      rewrite Hty, Hn, !String.eqb_refl. exact Hr.
  - split; [intros [] | intros [H _]; congruence].
Qed.

Lemma in_mapping (s : t) (r : MappingRow) :
  In r (principal_policy_mapping s) <->
  exists p, In p (principals s) /\ In r (principal_rows (principals s) p).
Proof.
  unfold principal_policy_mapping. split.
  - intros Hr. apply (Permutation_in _ (sorted_perm key_ltb row_key _)) in Hr.
    rewrite BuilderFacts.unsorted_mapping_eq in Hr. now apply in_flat_map in Hr.
  - intros Hr.
    apply (Permutation_in _ (Permutation_sym (sorted_perm key_ltb row_key _))).
    rewrite BuilderFacts.unsorted_mapping_eq. now apply in_flat_map.
Qed.

Lemma names_of_map (l : list PrincipalDetail) : names_of l = map name l.
Proof. unfold names_of. now rewrite BuilderFacts.fold_left_append_map. Qed.

End BuilderMore.

(** X7. The shape of a row of the mapping: an inline policy is managed by
    ["Customer"]; a managed policy by ["AWS"] when the ARN it is attached
    with contains ["arn:aws:iam::aws:"] and by ["Customer"] otherwise; and
    only the rows of a principal tagged ["User"] carry a group
    membership. *)
Theorem mapping_row_shape (s : AuthorizationDetails.t) (r : MappingRow) :
  In r (AuthorizationDetails.principal_policy_mapping s) ->
  ((row_PolicyType r = "Inline" /\ row_ManagedBy r = "Customer")
   \/ (row_PolicyType r = "Managed"
       /\ exists a p, In p (AuthorizationDetails.principals s)
            /\ In a (attached_managed_policies p)
            /\ row_PolicyName r = amp_PolicyName a
            /\ row_ManagedBy r
               = if contains AWS_SEGMENT (amp_PolicyArn a) then "AWS" else "Customer"))
  /\ (row_GroupMembership r <> None -> row_Type r = "User").
Proof.
  intros Hr. apply BuilderMore.in_mapping in Hr. destruct Hr as [p [Hp Hr]].
  unfold principal_rows in Hr. apply in_app_iff in Hr.
  destruct Hr as [Hr | Hr].
  - apply BuilderMore.in_policy_rows in Hr.
    destruct Hr as [[ip [Hip ->]] | [a [Ha ->]]]; simpl.
    + split; [left; auto | congruence].
    + split; [right; split; [reflexivity|]; exists a, p; auto | congruence].
  - apply BuilderMore.in_group_rows in Hr.
    destruct Hr as (Hty & g & grp & Hg & Hgrp & Hgty & Hn & Hr).
    apply BuilderMore.in_policy_rows in Hr.
    destruct Hr as [[ip [Hip ->]] | [a [Ha ->]]]; simpl.
    + split; [left; auto | auto].
    + split; [right; split; [reflexivity|]; exists a, grp; auto | auto].
Qed.

Lemma mapping_row_shape_witness :
  row_PolicyType (AuthorizationDetails.inline_row admins_group AdminAccess None)
  = "Inline"
  /\ row_ManagedBy (AuthorizationDetails.inline_row admins_group AdminAccess None)
     = "Customer".
Proof.
  assert (Hin : In (AuthorizationDetails.inline_row admins_group AdminAccess None)
                  (AuthorizationDetails.principal_policy_mapping account_exact_match))
    by (vm_compute; tauto).
  destruct (@mapping_row_shape account_exact_match _ Hin) as [[H | (H & _)] _].
  - exact H.
  - discriminate H.
Defined.

(** X8. Every row of the mapping is the row of a principal of the
    account: its [Principal] is one of the names that [users], [groups]
    and [roles] list, and the three properties list the names of the
    principals in the order of [principals]. *)
Theorem mapping_rows_name_principals (s : AuthorizationDetails.t) :
  AuthorizationDetails.users s ++ AuthorizationDetails.groups s
    ++ AuthorizationDetails.roles s
  = map name (AuthorizationDetails.principals s)
  /\ forall r, In r (AuthorizationDetails.principal_policy_mapping s) ->
       In (row_Principal r)
          (AuthorizationDetails.users s ++ AuthorizationDetails.groups s
             ++ AuthorizationDetails.roles s)
       /\ exists p, In p (AuthorizationDetails.principals s)
                    /\ row_Principal r = name p
                    /\ row_Type r = principal_type p.
Proof.
  assert (Hnames :
    AuthorizationDetails.users s ++ AuthorizationDetails.groups s
      ++ AuthorizationDetails.roles s
    = map name (AuthorizationDetails.principals s)).
  { unfold AuthorizationDetails.users, AuthorizationDetails.groups,
      AuthorizationDetails.roles, AuthorizationDetails.principals.
    now rewrite !BuilderMore.names_of_map, !map_app. }
  split; [exact Hnames|].
  intros r Hr. apply BuilderMore.in_mapping in Hr. destruct Hr as [p [Hp Hr]].
  assert (Hrow : row_Principal r = name p /\ row_Type r = principal_type p).
  { unfold principal_rows in Hr. apply in_app_iff in Hr.
    destruct Hr as [Hr | Hr].
    - apply BuilderMore.in_policy_rows in Hr.
      destruct Hr as [[ip [_ ->]] | [a [_ ->]]]; split; reflexivity.
    - apply BuilderMore.in_group_rows in Hr.
      destruct Hr as (_ & g & grp & _ & _ & _ & _ & Hr).
      apply BuilderMore.in_policy_rows in Hr.
      destruct Hr as [[ip [_ ->]] | [a [_ ->]]]; split; reflexivity. }
  split.
  - rewrite Hnames. destruct Hrow as [-> _]. now apply in_map.
  - exists p. tauto.
Qed.

(** X9. The rows a user inherits. A row of the mapping carries a group
    membership exactly when it is the row of a principal tagged ["User"]
    for a policy of a principal tagged ["Group"] whose name is, letter for
    letter, one of the memberships of the user; the membership it carries
    is the whole list of the memberships of the user. *)
Theorem inherited_rows (s : AuthorizationDetails.t) (r : MappingRow) :
  (In r (AuthorizationDetails.principal_policy_mapping s)
   /\ row_GroupMembership r <> None) <->
  exists u grp,
    In u (AuthorizationDetails.principals s)
    /\ principal_type u = "User"
    /\ In grp (AuthorizationDetails.principals s)
    /\ principal_type grp = "Group"
    /\ In (name grp) (group_member u)
    /\ In r (policy_rows u grp (Some (group_member u))).
Proof.
  rewrite BuilderMore.in_mapping. split.
  - intros [[p [Hp Hr]] Hgm]. unfold principal_rows in Hr.
    apply in_app_iff in Hr. destruct Hr as [Hr | Hr].
    + exfalso. apply Hgm. apply BuilderMore.in_policy_rows in Hr.
      destruct Hr as [[ip [_ ->]] | [a [_ ->]]]; reflexivity.
    + apply BuilderMore.in_group_rows in Hr.
      destruct Hr as (Hty & g & grp & Hg & Hgrp & Hgty & <- & Hr).
      exists p, grp. auto 10.
  - intros (u & grp & Hu & Hty & Hgrp & Hgty & Hg & Hr). split.
    + exists u. split; [exact Hu|]. unfold principal_rows.
      apply in_app_iff. right. apply BuilderMore.in_group_rows.
      split; [exact Hty|]. exists (name grp), grp. auto 10.
    + apply BuilderMore.in_policy_rows in Hr.
      destruct Hr as [[ip [_ ->]] | [a [_ ->]]]; discriminate.
Qed.

(** alice, in [admins] and [ops], inherits the inline policy of [admins];
    the row carries both memberships. *)
Lemma inherited_rows_witness :
  In (AuthorizationDetails.inline_row alice_in_admins AdminAccess
        (Some ["admins"; "ops"]))
     (AuthorizationDetails.principal_policy_mapping account_exact_match).
Proof.
  apply (inherited_rows account_exact_match).
  exists alice_in_admins, admins_group.
  repeat split; simpl; tauto.
Defined.

Lemma mapping_rows_name_principals_witness :
  In "alice"
     (AuthorizationDetails.users account_exact_match
        ++ AuthorizationDetails.groups account_exact_match
        ++ AuthorizationDetails.roles account_exact_match).
Proof.
  destruct (mapping_rows_name_principals account_exact_match) as [_ H].
  apply (H (AuthorizationDetails.inline_row alice_in_admins AdminAccess
              (Some ["admins"; "ops"]))).
  vm_compute. tauto.
Defined.

(* ================================================================= *)
(** ** The sort is stable *)

Section Stable.

Variable A : Type.
Variable key : A -> Key.t.

Lemma key_eqb_eq (a b : Key.t) : key_eqb a b = true <-> a = b.
Proof.
  unfold key_eqb. destruct (Key.compare_spec a b) as [Heq | Hlt | Hgt].
  - split; [intros _; now apply KeyFacts.key_eq_leibniz | reflexivity].
  - split; [discriminate|]. intros ->. exfalso.
    exact (StrictOrder_Irreflexive b Hlt).
  - split; [discriminate|]. intros ->. exfalso.
    exact (StrictOrder_Irreflexive b Hgt).
Qed.

Lemma ltb_not_same_key (a b k : Key.t) :
  key_ltb a b = true -> key_eqb a k = true -> key_eqb b k = true -> False.
Proof.
  intros Hlt Ha Hb. apply key_eqb_eq in Ha, Hb. subst.
  apply KeyFacts.ltb_lt in Hlt. exact (StrictOrder_Irreflexive k Hlt).
Qed.

Lemma insert_same_key (k : Key.t) (x : A) (l : list A) :
  filter (fun z => key_eqb (key z) k) (insert key_ltb key x l)
  = filter (fun z => key_eqb (key z) k) (x :: l).
Proof.
  induction l as [|y l IH]; [reflexivity|].
  cbn [insert]. destruct (key_ltb (key y) (key x)) eqn:Hlt; [|reflexivity].
  cbn [filter] in *. rewrite IH.
  destruct (key_eqb (key y) k) eqn:Hy, (key_eqb (key x) k) eqn:Hx;
    try reflexivity.
  exfalso. exact (@ltb_not_same_key _ _ _ Hlt Hy Hx).
Qed.

Lemma sorted_same_key (k : Key.t) (l : list A) :
  filter (fun z => key_eqb (key z) k) (sorted key_ltb key l)
  = filter (fun z => key_eqb (key z) k) l.
Proof.
  induction l as [|x l IH]; [reflexivity|].
  cbn [sorted fold_right]. rewrite insert_same_key.
  cbn [filter]. fold (sorted key_ltb key l). now rewrite IH.
Qed.

End Stable.

(** X10. The sort of the mapping is stable: the rows that have a given
    key are, in the mapping, in the order they were built in (the order of
    [principals], own policies before inherited ones); and
    [PrincipalPolicyMapping.json] keeps the entries that have a given key
    in the order they were added in. *)
Theorem rows_with_same_key_keep_order
    (s : AuthorizationDetails.t) (m : PrincipalPolicyMapping.t) (k : Key.t) :
  rows_with_key k (AuthorizationDetails.principal_policy_mapping s)
  = rows_with_key k
      (flat_map (principal_rows (AuthorizationDetails.principals s))
         (AuthorizationDetails.principals s))
  /\ entries_with_key k (PrincipalPolicyMapping.json m)
     = entries_with_key k (PrincipalPolicyMapping.entries m).
Proof.
  unfold rows_with_key, entries_with_key,
    AuthorizationDetails.principal_policy_mapping, PrincipalPolicyMapping.json.
  rewrite !sorted_same_key, BuilderFacts.unsorted_mapping_eq. now split.
Qed.

(* ================================================================= *)
(** ** More on the classifier *)

Module ClassifierMore.
Import AuthorizationDetails.

Lemma classifier_lists (test : string -> bool) (self : t) :
  append_attached test (role_detail_list self)
    (append_attached test (user_detail_list self)
       (append_attached test (group_detail_list self)
          (fold_left (fun acc policy =>
             if test (policy_arn policy) then acc ++ [policy_name policy] else acc)
             (policies self) [])))
  = classify test (observed_groups_first self).
Proof.
  unfold observed_groups_first, standalone_pairs.
  rewrite !ClassifierFacts.append_attached_classify,
    ClassifierFacts.standalone_classify, !ClassifierFacts.classify_app.
  simpl. now rewrite <- !app_assoc.
Qed.

Lemma in_classify (test : string -> bool) (pairs : list (string * string)) (n : string) :
  In n (classify test pairs) <-> exists a, In (n, a) pairs /\ test a = true.
Proof.
  unfold classify. rewrite in_map_iff. split.
  - intros [[n' a] [<- H]]. apply filter_In in H. exists a. exact H.
  - intros [a [Hin Ht]]. exists (n, a). split; [reflexivity|].
    apply filter_In. now split.
Qed.

End ClassifierMore.

(** X11. The two lists of the classifier have no duplicates; a name is in
    [_aws_managed_policies_in_use] exactly when a standalone policy or an
    attached managed policy has that name with an ARN that contains
    ["arn:aws:iam::aws:"], in [_customer_managed_policies_in_use] exactly
    when one has that name with an ARN that does not; so every policy
    name of the account is in one of the two lists, and a name met with
    both kinds of ARN is in both. *)
Theorem classifier_lists_partition (self : AuthorizationDetails.t) :
  NoDup (AuthorizationDetails._aws_managed_policies_in_use self)
  /\ NoDup (AuthorizationDetails._customer_managed_policies_in_use self)
  /\ (forall n, In n (AuthorizationDetails._aws_managed_policies_in_use self) <->
        exists a, In (n, a) (observed_groups_first self)
                  /\ contains AWS_SEGMENT a = true)
  /\ (forall n, In n (AuthorizationDetails._customer_managed_policies_in_use self) <->
        exists a, In (n, a) (observed_groups_first self)
                  /\ contains AWS_SEGMENT a = false)
  /\ (forall n a, In (n, a) (observed_groups_first self) ->
        In n (AuthorizationDetails._aws_managed_policies_in_use self)
        \/ In n (AuthorizationDetails._customer_managed_policies_in_use self)).
Proof.
  assert (Haws : AuthorizationDetails._aws_managed_policies_in_use self
                 = first_occurrences
                     (classify AuthorizationDetails.is_aws (observed_groups_first self))).
  { unfold AuthorizationDetails._aws_managed_policies_in_use.
    now rewrite dict_fromkeys_first_occurrences, ClassifierMore.classifier_lists. }
  assert (Hcus : AuthorizationDetails._customer_managed_policies_in_use self
                 = first_occurrences
                     (classify AuthorizationDetails.is_customer
                        (observed_groups_first self))).
  { unfold AuthorizationDetails._customer_managed_policies_in_use.
    now rewrite dict_fromkeys_first_occurrences, ClassifierMore.classifier_lists. }
  assert (Hin_aws : forall n,
    In n (AuthorizationDetails._aws_managed_policies_in_use self) <->
    exists a, In (n, a) (observed_groups_first self)
              /\ contains AWS_SEGMENT a = true).
  { intros n. rewrite Haws, first_occurrences_In. apply ClassifierMore.in_classify. }
  assert (Hin_cus : forall n,
    In n (AuthorizationDetails._customer_managed_policies_in_use self) <->
    exists a, In (n, a) (observed_groups_first self)
              /\ contains AWS_SEGMENT a = false).
  { intros n. rewrite Hcus, first_occurrences_In, ClassifierMore.in_classify.
    unfold AuthorizationDetails.is_customer.
    split; intros [a [Hin Ht]]; exists a; (split; [exact Hin|]).
    - now apply negb_true_iff.
    - now apply negb_true_iff. }
  split; [rewrite Haws; apply first_occurrences_NoDup|].
  split; [rewrite Hcus; apply first_occurrences_NoDup|].
  split; [exact Hin_aws|]. split; [exact Hin_cus|].
  intros n a Hin. destruct (contains AWS_SEGMENT a) eqn:Ha.
  - left. apply Hin_aws. now exists a.
  - right. apply Hin_cus. now exists a.
Qed.

Lemma classifier_lists_partition_witness :
  In "AdministratorAccess"
     (AuthorizationDetails._aws_managed_policies_in_use account_same_name_aws_first)
  /\ In "AdministratorAccess"
       (AuthorizationDetails._customer_managed_policies_in_use
          account_same_name_aws_first).
Proof.
  destruct (classifier_lists_partition account_same_name_aws_first)
    as (_ & _ & Haws & Hcus & _).
  split.
  - apply Haws. exists "arn:aws:iam::aws:policy/AdministratorAccess".
    split; [vm_compute; tauto | reflexivity].
  - apply Hcus. exists "arn:aws:iam::123456789012:policy/AdministratorAccess".
    split; [vm_compute; tauto | reflexivity].
Defined.

(* ================================================================= *)
(** ** More on the scan *)

Module ScanMore.
Import AuthorizationDetails.

Section WithCollaborators.

Variable X : Collaborators.

Lemma scan_principal_policy_aggregate (ex : Exclusions.t) (modify_only : bool)
    (p : PrincipalDetail) (s : t) (policy : PolicyEntry) :
  scan_principal_policy X ex modify_only p s policy
  = set_findings
      (fold_left aggregate (finding_of X ex modify_only p policy) (findings s)) s.
Proof.
  unfold scan_principal_policy, finding_of.
  destruct (is_policy_excluded X ex (pe_PolicyName policy));
    [symmetry; apply ScanFacts.set_findings_same|].
  destruct (is_principal_excluded X p ex);
    [symmetry; apply ScanFacts.set_findings_same|].
  destruct (collect_actions X ex modify_only (statements (pe_PolicyDocument policy)));
    [symmetry; apply ScanFacts.set_findings_same|].
  cbn [truthy]. case_ifs; solve [reflexivity | symmetry; apply ScanFacts.set_findings_same].
Qed.

Lemma set_findings_twice (f g : Findings.t) (s : t) :
  set_findings f (set_findings g s) = set_findings f s.
Proof. reflexivity. Qed.

Lemma scan_principal_aggregate (ex : Exclusions.t) (modify_only : bool)
    (p : PrincipalDetail) (s : t) :
  scan_principal X ex modify_only s p
  = set_findings
      (fold_left aggregate
         (flat_map (finding_of X ex modify_only p) (policy_list p)) (findings s)) s.
Proof.
  unfold scan_principal. revert s.
  induction (policy_list p) as [|policy l IH]; intros s; simpl.
  - symmetry. apply ScanFacts.set_findings_same.
  - rewrite IH, scan_principal_policy_aggregate. simpl.
    now rewrite fold_left_app.
Qed.

Lemma scan_principals_aggregate (ex : Exclusions.t) (modify_only : bool)
    (l : list PrincipalDetail) (s : t) :
  fold_left (scan_principal X ex modify_only) l s
  = set_findings
      (fold_left aggregate (findings_of X ex modify_only l) (findings s)) s.
Proof.
  revert s; induction l as [|p l IH]; intros s; simpl.
  - symmetry. apply ScanFacts.set_findings_same.
  - rewrite IH, scan_principal_aggregate. simpl.
    unfold findings_of. simpl. now rewrite fold_left_app.
Qed.

Lemma scan_policy_aggregate (ex : Exclusions.t) (modify_only : bool)
    (s : t) (policy : PolicyDetail) :
  scan_policy X ex modify_only s policy
  = set_findings
      (fold_left aggregate (policy_finding_of X ex modify_only policy) (findings s)) s.
Proof.
  unfold scan_policy, policy_finding_of.
  destruct (_ || _); [symmetry; apply ScanFacts.set_findings_same|].
  destruct (collect_actions X ex modify_only (statements (policy_document policy)));
    [symmetry; apply ScanFacts.set_findings_same | reflexivity].
Qed.

Lemma scan_policies_aggregate (ex : Exclusions.t) (modify_only : bool)
    (l : list PolicyDetail) (s : t) :
  fold_left (scan_policy X ex modify_only) l s
  = set_findings
      (fold_left aggregate (flat_map (policy_finding_of X ex modify_only) l)
         (findings s)) s.
Proof.
  revert s; induction l as [|p l IH]; intros s; simpl.
  - symmetry. apply ScanFacts.set_findings_same.
  - rewrite IH, scan_policy_aggregate. simpl. now rewrite fold_left_app.
Qed.

(** The resolver does not change the findings of a list. *)
Lemma finding_of_changed (ex : Exclusions.t) (modify_only : bool)
    (p q : PrincipalDetail) (policy : PolicyEntry) :
  members_changed p q ->
  finding_of X ex modify_only p policy = finding_of X ex modify_only q policy.
Proof.
  intros [-> | [Hp [m ->]]]; [reflexivity|].
  unfold finding_of. simpl. rewrite Hp. simpl.
  case_ifs; try reflexivity;
    destruct (collect_actions X ex modify_only (statements (pe_PolicyDocument policy)));
    reflexivity.
Qed.

Lemma findings_of_changed (ex : Exclusions.t) (modify_only : bool)
    (l l' : list PrincipalDetail) :
  Forall2 members_changed l l' ->
  findings_of X ex modify_only l = findings_of X ex modify_only l'.
Proof.
  intros Hl. unfold findings_of.
  apply (ScanFacts.flat_map_Forall2_eq (R := members_changed)); [|exact Hl].
  intros p q Hpq.
  assert (Hpl : policy_list p = policy_list q)
    by (destruct Hpq as [-> | [_ [m ->]]]; reflexivity).
  rewrite <- Hpl. apply flat_map_ext. intros policy.
  now apply finding_of_changed.
Qed.

Lemma findings_of_resolved (ex : Exclusions.t) (modify_only : bool)
    (l : list PrincipalDetail) :
  findings_of X ex modify_only (resolved l) = findings_of X ex modify_only l.
Proof. symmetry. apply findings_of_changed, ScanFacts.resolved_changed_self. Qed.

Lemma findings_of_app (ex : Exclusions.t) (modify_only : bool)
    (l l' : list PrincipalDetail) :
  findings_of X ex modify_only (l ++ l')
  = findings_of X ex modify_only l ++ findings_of X ex modify_only l'.
Proof. unfold findings_of. apply flat_map_app. Qed.

(** The object after the scan of one list. *)
Lemma after_principal_scan_eq (r : detail_list_ref) (ex : Exclusions.t)
    (modify_only : bool) (s : t) :
  after_principal_scan X r ex modify_only s
  = set_findings
      (fold_left aggregate (findings_of X ex modify_only (deref r s)) (findings s))
      (assign r (resolved (deref r s)) s).
Proof.
  unfold after_principal_scan. rewrite scan_principals_aggregate.
  rewrite findings_of_resolved. destruct r; reflexivity.
Qed.

Lemma aggregate_users (l : list Finding) (f : Findings.t) :
  Findings.users (fold_left aggregate l f)
  = Findings.users f ++ filter is_user_finding l.
Proof.
  revert f; induction l as [|x l IH]; intros f; simpl.
  - now rewrite app_nil_r.
  - rewrite IH. destruct x; simpl; [reflexivity | | reflexivity | reflexivity].
    now rewrite <- app_assoc.
Qed.

Lemma aggregate_groups (l : list Finding) (f : Findings.t) :
  Findings.groups (fold_left aggregate l f)
  = Findings.groups f ++ filter is_group_finding l.
Proof.
  revert f; induction l as [|x l IH]; intros f; simpl.
  - now rewrite app_nil_r.
  - rewrite IH. destruct x; simpl; [reflexivity | reflexivity | | reflexivity].
    now rewrite <- app_assoc.
Qed.

Lemma aggregate_roles (l : list Finding) (f : Findings.t) :
  Findings.roles (fold_left aggregate l f)
  = Findings.roles f ++ filter is_role_finding l.
Proof.
  revert f; induction l as [|x l IH]; intros f; simpl.
  - now rewrite app_nil_r.
  - rewrite IH. destruct x; simpl; [reflexivity | reflexivity | reflexivity |].
    now rewrite <- app_assoc.
Qed.

Lemma aggregate_mapping (l : list Finding) (f : Findings.t) :
  Findings.principal_policy_mapping (fold_left aggregate l f)
  = Findings.principal_policy_mapping f.
Proof.
  revert f; induction l as [|x l IH]; intros f; simpl; [reflexivity|].
  rewrite IH. now destruct x.
Qed.

(** The findings of principals are not policy findings, and the other way
    round. *)
Lemma aggregate_policies_of_principals (ex : Exclusions.t) (modify_only : bool)
    (l : list PrincipalDetail) (f : Findings.t) :
  Findings.policies (fold_left aggregate (findings_of X ex modify_only l) f)
  = Findings.policies f.
Proof.
  assert (Hkind : forall x, In x (findings_of X ex modify_only l) ->
            match x with PolicyFinding _ _ _ _ _ => False | _ => True end).
  { intros x Hx. unfold findings_of in Hx. apply in_flat_map in Hx.
    destruct Hx as [p [_ Hx]]. apply in_flat_map in Hx.
    destruct Hx as [policy [_ Hx]]. unfold finding_of in Hx.
    repeat match type of Hx with
           | In _ (if ?c then _ else _) => destruct c
           | In _ (match ?c with [] => _ | _ :: _ => _ end) => destruct c
           | In _ [] => destruct Hx
           | In _ [_] => destruct Hx as [<- | []]
           end; exact I. }
  revert f Hkind. induction (findings_of X ex modify_only l) as [|x fs IH];
    intros f Hkind; simpl; [reflexivity|].
  rewrite IH by (intros y Hy; apply Hkind; now right).
  specialize (Hkind x (or_introl eq_refl)). now destruct x.
Qed.

Lemma aggregate_policy_findings (ex : Exclusions.t) (modify_only : bool)
    (l : list PolicyDetail) (f : Findings.t) :
  Findings.policies
    (fold_left aggregate (flat_map (policy_finding_of X ex modify_only) l) f)
  = Findings.policies f ++ flat_map (policy_finding_of X ex modify_only) l
  /\ Findings.users
       (fold_left aggregate (flat_map (policy_finding_of X ex modify_only) l) f)
     = Findings.users f
  /\ Findings.groups
       (fold_left aggregate (flat_map (policy_finding_of X ex modify_only) l) f)
     = Findings.groups f
  /\ Findings.roles
       (fold_left aggregate (flat_map (policy_finding_of X ex modify_only) l) f)
     = Findings.roles f.
Proof.
  revert f; induction l as [|p l IH]; intros f; simpl.
  - now rewrite app_nil_r.
  - rewrite fold_left_app.
    destruct (IH (fold_left aggregate (policy_finding_of X ex modify_only p) f))
      as (Hp & Hu & Hg & Hr).
    rewrite Hp, Hu, Hg, Hr. unfold policy_finding_of.
    destruct (_ || _); [now rewrite ?app_nil_r|].
    destruct (collect_actions X ex modify_only (statements (policy_document p)));
      simpl; [now rewrite ?app_nil_r|].
    now rewrite <- app_assoc.
Qed.

(** The snapshot a scan returns, read off the account. *)
Lemma after_scan_json (ex : Exclusions.t) (modify_only : bool) (s : t) :
  Findings.json (findings (after_scan X ex modify_only s))
  = {| Findings.json_policies :=
         flat_map (policy_finding_of X ex modify_only) (policies s);
       Findings.json_users :=
         filter is_user_finding (findings_of X ex modify_only (principals s));
       Findings.json_groups :=
         filter is_group_finding (findings_of X ex modify_only (principals s));
       Findings.json_roles :=
         filter is_role_finding (findings_of X ex modify_only (principals s));
       Findings.json_principal_policy_mapping := principal_policy_mapping s |}.
Proof.
  unfold after_scan. rewrite scan_policies_aggregate.
  rewrite !after_principal_scan_eq.
  cbn [deref assign set_findings findings policies user_detail_list
       group_detail_list role_detail_list].
  rewrite <- !fold_left_app.
  set (fs := findings_of X ex modify_only (user_detail_list s)
             ++ findings_of X ex modify_only (group_detail_list s)
             ++ findings_of X ex modify_only (role_detail_list s)).
  assert (Hfs : fs = findings_of X ex modify_only (principals s))
    by (unfold fs, principals; now rewrite !findings_of_app).
  match goal with
  | |- context [principal_policy_mapping ?s3] =>
      assert (Hmap : principal_policy_mapping s3 = principal_policy_mapping s)
  end.
  { symmetry. apply ScanFacts.principal_policy_mapping_sim.
    repeat split; cbn [policies user_detail_list group_detail_list
                       role_detail_list];
      apply ScanFacts.resolved_changed_self. }
  rewrite Hmap.
  match goal with
  | |- context [fold_left aggregate (flat_map _ _) ?f0] =>
      destruct (aggregate_policy_findings ex modify_only (policies s) f0)
        as (Hp & Hu & Hg & Hr)
  end.
  unfold Findings.json.
  rewrite Hp, Hu, Hg, Hr.
  cbn [Findings.set_principal_policy_mapping Findings.policies Findings.users
       Findings.groups Findings.roles Findings.principal_policy_mapping].
  rewrite aggregate_users, aggregate_groups, aggregate_roles, aggregate_mapping.
  clear Hp Hu Hg Hr Hmap. rewrite Hfs.
  rewrite aggregate_policies_of_principals. reflexivity.
Qed.

End WithCollaborators.

End ScanMore.

(** X12. What a scan returns, read off the account. The user, group and
    role findings are, in the order of [principals] (users, groups, roles)
    and of the [policy_list] of each principal, one finding for every
    policy whose name is not excluded, of a principal that is not
    excluded, whose Allow statements report at least one action; the kind
    of the finding follows the tag of the principal, not the list it is
    in. The policy findings are one per standalone policy whose name and
    path are not excluded and that reports an action. The mapping is the
    whole [principal_policy_mapping] of the account, whatever the
    exclusions. *)
Theorem scan_output
    (X : Collaborators) (ex : Exclusions.t) (modify_only : bool)
    (self : AuthorizationDetails.t) :
  fst (AuthorizationDetails.missing_resource_constraints X
         (PyExclusions ex) modify_only self)
  = Returned
      {| Findings.json_policies :=
           flat_map (policy_finding_of X ex modify_only)
             (AuthorizationDetails.policies self);
         Findings.json_users :=
           filter is_user_finding
             (findings_of X ex modify_only (AuthorizationDetails.principals self));
         Findings.json_groups :=
           filter is_group_finding
             (findings_of X ex modify_only (AuthorizationDetails.principals self));
         Findings.json_roles :=
           filter is_role_finding
             (findings_of X ex modify_only (AuthorizationDetails.principals self));
         Findings.json_principal_policy_mapping :=
           AuthorizationDetails.principal_policy_mapping self |}.
Proof.
  rewrite ScanFacts.missing_resource_constraints_run. simpl.
  f_equal. apply ScanMore.after_scan_json.
Qed.

(* ================================================================= *)
(** ** [list.sort] on the actions *)

Module StringSort.

Lemma string_key_ltb (a b : string) :
  key_ltb (string_key a) (string_key b) = str_ltb a b.
Proof. reflexivity. Qed.

Lemma string_key_inj (a b : string) : string_key a = string_key b -> a = b.
Proof. unfold string_key, itemgetter4. congruence. Qed.

Lemma list_sort_as_keys (l : list string) :
  list_sort l = sorted key_ltb string_key l.
Proof.
  unfold list_sort. induction l as [|x l IH]; [reflexivity|].
  cbn [sorted fold_right]. fold (sorted str_ltb (fun s : string => s) l).
  fold (sorted key_ltb string_key l). rewrite IH.
  generalize (sorted key_ltb string_key l) as r. intros r.
  induction r as [|y r IHr]; [reflexivity|].
  cbn [insert]. rewrite string_key_ltb, IHr. reflexivity.
Qed.

Lemma list_sort_perm (l : list string) : Permutation (list_sort l) l.
Proof. unfold list_sort. apply sorted_perm. Qed.

(** A sorted list without duplicates is strictly increasing. *)
Lemma list_sort_strict (l : list string) :
  NoDup l -> strictly_sorted (list_sort l).
Proof.
  intros Hl.
  assert (Hnd : NoDup (list_sort l))
    by (apply (Permutation_NoDup (Permutation_sym (list_sort_perm l))), Hl).
  pose proof (sorted_sorted string_key l) as Hs.
  rewrite <- list_sort_as_keys in Hs. clear Hl.
  unfold strictly_sorted.
  induction Hs as [|x r Hr IH Hx]; [constructor|].
  inversion Hnd as [|x' r' Hnotin Hnd']; subst.
  constructor; [now apply IH|].
  rewrite Forall_forall in *. intros y Hy.
  destruct (KeyFacts.le_cases (Hx y Hy)) as [Heq | Hlt].
  - apply string_key_inj in Heq. subst. contradiction.
  - now rewrite string_key_ltb in Hlt.
Qed.

End StringSort.

(** X13. The actions of a policy finding. Every policy finding of a scan
    is the finding of a standalone policy of the account whose name and
    path are not excluded; its actions are the actions collected from the
    Allow statements of the policy, each once, in strictly increasing
    order. *)
Theorem policy_finding_actions_sorted
    (X : Collaborators) (ex : Exclusions.t) (modify_only : bool)
    (self : AuthorizationDetails.t) (j : Findings.Json) (f : Finding)
    (Hscan : fst (AuthorizationDetails.missing_resource_constraints X
                    (PyExclusions ex) modify_only self) = Returned j)
    (Hf : In f (Findings.json_policies j)) :
  exists policy,
    In policy (AuthorizationDetails.policies self)
    /\ is_policy_excluded X ex (policy_name policy) = false
    /\ is_policy_excluded X ex (full_policy_path policy) = false
    /\ f = PolicyFinding (policy_name policy) (policy_arn policy)
             (finding_actions f) (policy_document policy) ex
    /\ NoDup (finding_actions f)
    /\ strictly_sorted (finding_actions f)
    /\ finding_actions f <> []
    /\ forall a, In a (finding_actions f) <->
                 In a (AuthorizationDetails.collect_actions X ex modify_only
                         (statements (policy_document policy))).
Proof.
  rewrite ScanFacts.missing_resource_constraints_run in Hscan. simpl in Hscan.
  injection Hscan as <-. rewrite ScanMore.after_scan_json in Hf. simpl in Hf.
  apply in_flat_map in Hf. destruct Hf as [policy [Hpolicy Hf]].
  exists policy. unfold policy_finding_of in Hf.
  destruct (is_policy_excluded X ex (policy_name policy)) eqn:Hn;
    [destruct Hf|].
  destruct (is_policy_excluded X ex (full_policy_path policy)) eqn:Hp;
    [destruct Hf|].
  simpl in Hf.
  destruct (AuthorizationDetails.collect_actions X ex modify_only
              (statements (policy_document policy))) as [|a collected] eqn:Hc;
    [destruct Hf|].
  destruct Hf as [<- | []]. simpl.
  assert (Hnd : NoDup (dict_fromkeys (a :: collected)))
    by (rewrite dict_fromkeys_first_occurrences; apply first_occurrences_NoDup).
  repeat split; try assumption; try reflexivity.
  - apply (Permutation_NoDup (Permutation_sym (StringSort.list_sort_perm _))), Hnd.
  - now apply StringSort.list_sort_strict.
  - apply ScanFacts.list_sort_nonempty, ScanFacts.dict_fromkeys_nonempty.
    discriminate.
  - intros Hin. apply (Permutation_in _ (StringSort.list_sort_perm _)) in Hin.
    rewrite dict_fromkeys_first_occurrences in Hin.
    exact (proj1 (first_occurrences_In _ _) Hin).
  - intros Hin.
    apply (Permutation_in _ (Permutation_sym (StringSort.list_sort_perm _))).
    rewrite dict_fromkeys_first_occurrences.
    apply (proj2 (first_occurrences_In _ _)). exact Hin.
Qed.

(** The standalone policy of bob's account: two actions, in order. *)
Lemma policy_finding_actions_sorted_witness :
  strictly_sorted ["ec2:TerminateInstances"; "s3:PutObject"].
Proof.
  destruct (@policy_finding_actions_sorted simple_collaborators no_exclusions
              true account_bob _
              (PolicyFinding "BucketPolicy"
                 "arn:aws:iam::123456789012:policy/BucketPolicy"
                 ["ec2:TerminateInstances"; "s3:PutObject"] bucket_document
                 no_exclusions)
              eq_refl (or_introl eq_refl))
    as (_ & _ & _ & _ & _ & _ & Hs & _).
  exact Hs.
Defined.

Module ScanLeaves.
Import AuthorizationDetails.

Lemma after_scan_lists (X : Collaborators) (ex : Exclusions.t) (modify_only : bool)
    (s : t) :
  policies (after_scan X ex modify_only s) = policies s
  /\ user_detail_list (after_scan X ex modify_only s) = resolved (user_detail_list s)
  /\ group_detail_list (after_scan X ex modify_only s) = resolved (group_detail_list s)
  /\ role_detail_list (after_scan X ex modify_only s) = resolved (role_detail_list s).
Proof.
  unfold after_scan. rewrite ScanMore.scan_policies_aggregate.
  rewrite !ScanMore.after_principal_scan_eq. repeat split.
Qed.

Lemma collect_actions_allow (X : Collaborators) (ex : Exclusions.t)
    (modify_only : bool) (stmts : list Statement) :
  collect_actions X ex modify_only stmts
  = flat_map (fun statement =>
      if modify_only
      then stmt_missing_resource_constraints_for_modify_actions X statement ex
      else stmt_missing_resource_constraints X statement ex)
      (filter (fun statement => effect statement =? "Allow") stmts).
Proof.
  unfold collect_actions.
  rewrite fold_left_appends with
    (f := fun statement =>
            if effect statement =? "Allow"
            then if modify_only
                 then stmt_missing_resource_constraints_for_modify_actions X statement ex
                 else stmt_missing_resource_constraints X statement ex
            else []).
  - simpl. induction stmts as [|st stmts IH]; simpl; [reflexivity|].
    rewrite IH. now destruct (effect st =? "Allow").
  - intros acc st. destruct modify_only, (effect st =? "Allow");
      now rewrite ?app_nil_r.
Qed.

End ScanLeaves.

(** X14. A scan writes into the findings only: on an account whose
    principals carry the tags ["User"], ["Group"] and ["Role"], the
    policies and the three lists of principals, members included, are
    after [missing_resource_constraints] what they were before. *)
Theorem scan_leaves_account
    (X : Collaborators) (ex : Exclusions.t) (modify_only : bool)
    (self : AuthorizationDetails.t)
    (Htags : forall p, In p (AuthorizationDetails.principals self) -> singular_tag p) :
  let after :=
    snd (AuthorizationDetails.missing_resource_constraints X
           (PyExclusions ex) modify_only self) in
  AuthorizationDetails.policies after = AuthorizationDetails.policies self
  /\ AuthorizationDetails.user_detail_list after
     = AuthorizationDetails.user_detail_list self
  /\ AuthorizationDetails.group_detail_list after
     = AuthorizationDetails.group_detail_list self
  /\ AuthorizationDetails.role_detail_list after
     = AuthorizationDetails.role_detail_list self.
Proof.
  rewrite ScanFacts.missing_resource_constraints_run. cbn [snd].
  destruct (ScanLeaves.after_scan_lists X ex modify_only self) as (Hp & Hu & Hg & Hr).
  rewrite Hp, Hu, Hg, Hr.
  unfold AuthorizationDetails.principals in Htags.
  rewrite !resolver_does_nothing; [repeat split | | |];
    intros p Hp'; apply Htags; rewrite !in_app_iff; tauto.
Qed.

Lemma scan_leaves_account_witness :
  AuthorizationDetails.group_detail_list
    (snd (AuthorizationDetails.missing_resource_constraints simple_collaborators
            (PyExclusions no_exclusions) true account_exact_match))
  = [admins_group].
Proof.
  apply (scan_leaves_account simple_collaborators no_exclusions true
           account_exact_match).
  intros p Hp. simpl in Hp. destruct Hp as [<- | [<- | []]].
  - left. reflexivity.
  - right; left. reflexivity.
Defined.

(** X15. Only the statements whose effect is ["Allow"] are evaluated: the
    collected actions are the concatenation, in order, of what the
    evaluator of the mode reports for them. A policy none of whose
    statements is an Allow statement gives no finding, whatever the
    evaluator reports. *)
Theorem allow_statements_only
    (X : Collaborators) (ex : Exclusions.t) (modify_only : bool)
    (stmts : list Statement) :
  AuthorizationDetails.collect_actions X ex modify_only stmts
  = flat_map (fun statement =>
      if modify_only
      then stmt_missing_resource_constraints_for_modify_actions X statement ex
      else stmt_missing_resource_constraints X statement ex)
      (filter (fun statement => effect statement =? "Allow") stmts)
  /\ ((forall statement, In statement stmts -> effect statement <> "Allow") ->
      (forall (self : AuthorizationDetails.t) (policy : PolicyDetail),
          statements (policy_document policy) = stmts ->
          AuthorizationDetails.scan_policy X ex modify_only self policy = self)
      /\ (forall (self : AuthorizationDetails.t) (p : PrincipalDetail)
                 (policy : PolicyEntry),
          statements (pe_PolicyDocument policy) = stmts ->
          AuthorizationDetails.scan_principal_policy X ex modify_only p self policy
          = self)).
Proof.
  split; [apply ScanLeaves.collect_actions_allow|].
  intros Hdeny.
  assert (Hnone : AuthorizationDetails.collect_actions X ex modify_only stmts = []).
  { rewrite ScanLeaves.collect_actions_allow, FilterMore.filter_keep_none;
      [reflexivity|].
    intros st Hst. apply String.eqb_neq. now apply Hdeny. }
  split.
  - intros self policy Hdoc. rewrite ScanMore.scan_policy_aggregate.
    unfold policy_finding_of. rewrite Hdoc, Hnone.
    destruct (_ || _); apply ScanFacts.set_findings_same.
  - intros self p policy Hdoc. rewrite ScanMore.scan_principal_policy_aggregate.
    unfold finding_of. rewrite Hdoc, Hnone.
    case_ifs; apply ScanFacts.set_findings_same.
Qed.

Lemma allow_statements_only_witness :
  AuthorizationDetails.scan_policy simple_collaborators no_exclusions true
    account_with_deny DenyPolicyDetail
  = account_with_deny.
Proof.
  destruct (allow_statements_only simple_collaborators no_exclusions true
              (statements deny_document)) as [_ H].
  apply H.
  - intros st Hst. simpl in Hst. destruct Hst as [<- | [<- | []]]; discriminate.
  - reflexivity.
Defined.

(** X16. [add] on anything that is not an entry raises and leaves the
    mapping as it was. On an entry it appends the entry: the entry comes
    last in the one of [users], [groups] and [roles] that has its tag, the
    other two are unchanged, and an entry with another tag joins none of
    them. *)
Theorem add_object_behaviour
    (self : PrincipalPolicyMapping.t) (o : pyobj) (e : Entry.t) :
  PrincipalPolicyMapping.add_object (PrincipalPolicyMapping.NotAnEntry o) self
  = (Raised (Exception PrincipalPolicyMapping.ADD_NOT_ENTRY_MSG), self)
  /\ exists after,
       PrincipalPolicyMapping.add_object (PrincipalPolicyMapping.AnEntry e) self
       = (Returned tt, after)
       /\ PrincipalPolicyMapping.entries after
          = PrincipalPolicyMapping.entries self ++ [e]
       /\ PrincipalPolicyMapping.users after
          = PrincipalPolicyMapping.users self
            ++ (if Entry.principal_type e =? "User" then [e] else [])
       /\ PrincipalPolicyMapping.groups after
          = PrincipalPolicyMapping.groups self
            ++ (if Entry.principal_type e =? "Group" then [e] else [])
       /\ PrincipalPolicyMapping.roles after
          = PrincipalPolicyMapping.roles self
            ++ (if Entry.principal_type e =? "Role" then [e] else []).
Proof.
  split; [reflexivity|].
  exists (PrincipalPolicyMapping.add self e).
  split; [reflexivity|]. split; [reflexivity|].
  unfold PrincipalPolicyMapping.users, PrincipalPolicyMapping.groups,
    PrincipalPolicyMapping.roles.
  rewrite !FilterFacts.of_type_filter. simpl. rewrite !filter_app. simpl.
  repeat split; case_ifs; reflexivity.
Qed.

(* ================================================================= *)
(** ** The resolver on the tags it tests *)

Module ResolverFacts.
Import AuthorizationDetails.

Lemma collect_groups_pairs (l : list PrincipalDetail) (acc : groups_dict) :
  fold_left (fun groups principal =>
    if principal_type principal =? "Users" then
      if truthy (group_member principal) then
        fold_left (fun groups group => groups_append groups group (name principal))
          (group_member principal) groups
      else groups
    else groups) l acc
  = fold_left append_pair (declared_pairs l) acc.
Proof.
  revert acc; induction l as [|p l IH]; intros acc; [reflexivity|].
  unfold declared_pairs in *. cbn [fold_left filter].
  destruct (principal_type p =? "Users"); [|apply IH].
  cbn [flat_map]. rewrite fold_left_app, IH. f_equal.
  destruct (group_member p) as [|g gs]; [reflexivity|].
  cbn [truthy]. generalize (g :: gs) as gm. intros gm. revert acc.
  induction gm as [|g' gm IHg]; intros acc; [reflexivity|].
  simpl. apply IHg.
Qed.

Lemma has_key_app (k : string) (d d' : groups_dict) :
  has_key k (d ++ d') = has_key k d || has_key k d'.
Proof. unfold has_key. apply existsb_app. Qed.

Lemma has_key_update (k g n : string) (d : groups_dict) :
  has_key k
    (map (fun kv => if fst kv =? g then (fst kv, snd kv ++ [n]) else kv) d)
  = has_key k d.
Proof.
  unfold has_key. induction d as [|kv d IH]; [reflexivity|].
  simpl. rewrite IH. now destruct (fst kv =? g).
Qed.

Lemma has_key_false (k : string) (d : groups_dict) (kv : string * list string) :
  has_key k d = false -> In kv d -> fst kv <> k.
Proof.
  unfold has_key. intros H Hin Heq.
  assert (Ht : existsb (fun kv => fst kv =? k) d = true)
    by (apply existsb_exists; exists kv; split; [exact Hin | now apply String.eqb_eq]).
  congruence.
Qed.

Lemma names_for_cons (k g n : string) (pairs : list (string * string)) :
  names_for k ((g, n) :: pairs)
  = if g =? k then n :: names_for k pairs else names_for k pairs.
Proof. unfold names_for. simpl. now destruct (g =? k). Qed.

(** The dict after the pairs [pairs], from the dict [d]. *)
Lemma fold_step (pairs : list (string * string)) (d : groups_dict) :
  fold_left append_pair pairs d
  = map (fun kv => (fst kv, snd kv ++ names_for (fst kv) pairs)) d
    ++ map (fun g => (g, names_for g pairs))
         (filter (fun g => negb (has_key g d))
            (first_occurrences (map fst pairs))).
Proof.
  revert d; induction pairs as [|[g n] pairs IH]; intros d.
  - simpl. rewrite app_nil_r. rewrite <- (map_id d) at 1. apply map_ext.
    intros [k v]. simpl. now rewrite app_nil_r.
  - cbn [fold_left]. rewrite IH. unfold append_pair, groups_append.
    cbn [fst snd map first_occurrences filter].
    destruct (has_key g d) eqn:Hg; cbn [negb].
    + f_equal.
      * rewrite map_map. apply map_ext. intros [k v]. cbn [fst snd].
        rewrite names_for_cons, (String.eqb_sym g k).
        destruct (k =? g); cbn [fst snd]; [|reflexivity].
        now rewrite <- app_assoc.
      * rewrite filter_twice.
        assert (Hext : forall y,
          negb (has_key y d) && negb (y =? g)
          = negb (has_key y
                    (map (fun kv => if fst kv =? g
                                    then (fst kv, snd kv ++ [n]) else kv) d))).
        { intros y. rewrite has_key_update.
          destruct (String.eqb_spec y g) as [-> | Hne]; [|now rewrite andb_true_r].
          now rewrite Hg. }
        rewrite (filter_ext _ _ Hext). apply map_ext_in.
        intros y Hy. apply filter_In in Hy. destruct Hy as [_ Hy].
        rewrite has_key_update in Hy. rewrite names_for_cons.
        destruct (String.eqb_spec g y) as [-> | Hne]; [|reflexivity].
        rewrite Hg in Hy. discriminate.
    + rewrite map_app. cbn [map fst snd]. rewrite <- app_assoc. cbn [app].
      f_equal.
      * apply map_ext_in. intros [k v] Hkv. cbn [fst snd].
        rewrite names_for_cons.
        destruct (String.eqb_spec g k) as [Heq | Hne]; [|reflexivity].
        exfalso. exact (@has_key_false g d (k, v) Hg Hkv (eq_sym Heq)).
      * rewrite names_for_cons, String.eqb_refl. f_equal.
        rewrite filter_twice.
        assert (Hext : forall y,
          negb (has_key y d) && negb (y =? g)
          = negb (has_key y (d ++ [(g, [n])]))).
        { intros y. rewrite has_key_app. unfold has_key at 3. cbn [existsb fst].
          rewrite orb_false_r, negb_orb, (String.eqb_sym g y). reflexivity. }
        rewrite (filter_ext _ _ Hext). apply map_ext_in.
        intros y Hy. apply filter_In in Hy. destruct Hy as [_ Hy].
        rewrite has_key_app in Hy. unfold has_key at 2 in Hy.
        cbn [existsb fst] in Hy. rewrite orb_false_r in Hy.
        rewrite names_for_cons.
        destruct (g =? y); [|reflexivity].
        rewrite orb_true_r in Hy. discriminate.
Qed.

Lemma collect_groups_eq (l : list PrincipalDetail) :
  collect_groups l
  = map (fun g => (g, names_for g (declared_pairs l))) (declared_groups l).
Proof.
  unfold collect_groups. rewrite collect_groups_pairs, fold_step. simpl.
  unfold declared_groups. f_equal. apply FilterMore.filter_keep_all. reflexivity.
Qed.

Lemma resolve_members_eq (d : groups_dict) (p : PrincipalDetail) :
  principal_type p = "Groups" ->
  resolve_members d p
  = set_members p
      (members p
       ++ flat_map snd
            (filter (fun kv => lower (fst kv) =? lower (name p)) d)).
Proof.
  intros Hp. unfold resolve_members. rewrite Hp. cbn [String.eqb Ascii.eqb].
  change ("Groups" =? "Groups") with true. cbn iota.
  assert (Hloop : forall m,
    fold_left (fun principal kv =>
      if lower (fst kv) =? lower (name principal)
      then set_members principal (members principal ++ snd kv)
      else principal) d (set_members p m)
    = set_members p
        (m ++ flat_map snd (filter (fun kv => lower (fst kv) =? lower (name p)) d))).
  { induction d as [|kv d IH]; intros m; cbn [fold_left filter flat_map].
    - now rewrite app_nil_r.
    - cbn [name set_members members]. destruct (lower (fst kv) =? lower (name p)).
      + cbn [flat_map]. rewrite app_assoc. apply (IH (m ++ snd kv)).
      + apply IH. }
  rewrite <- (ScanFacts.set_members_same p) at 1. apply Hloop.
Qed.

End ResolverFacts.

(** X17. What the two resolver loops of [scan_principal_type_details]
    compute on the tags they test. The dict [groups] has one key for each
    group name that a principal tagged ["Users"] declares, in first-seen
    order, with the names of the principals that declare it, once per
    declaration. A principal tagged ["Groups"] gets, after its members,
    the lists of every key that equals its name once both are lower-cased
    (keys that differ in case only both count); any other principal is
    left as it is. *)
Theorem resolver_on_plural_tags (l : list PrincipalDetail) (p : PrincipalDetail) :
  AuthorizationDetails.collect_groups l
  = map (fun g => (g, names_for g (declared_pairs l))) (declared_groups l)
  /\ (principal_type p = "Groups" ->
      AuthorizationDetails.resolve_members (AuthorizationDetails.collect_groups l) p
      = set_members p
          (members p
           ++ flat_map (fun g => names_for g (declared_pairs l))
                (filter (fun g => lower g =? lower (name p)) (declared_groups l))))
  /\ (principal_type p <> "Groups" ->
      AuthorizationDetails.resolve_members (AuthorizationDetails.collect_groups l) p
      = p).
Proof.
  split; [apply ResolverFacts.collect_groups_eq|]. split.
  - intros Hp. rewrite (@ResolverFacts.resolve_members_eq _ p Hp),
      ResolverFacts.collect_groups_eq.
    do 2 f_equal. induction (declared_groups l) as [|g gs IH]; [reflexivity|].
    cbn [map filter fst]. destruct (lower g =? lower (name p)); cbn [flat_map snd];
      now rewrite IH.
  - apply ScanFacts.resolve_members_not_plural.
Qed.

(** The group ["ADMINS"] gets alice for ["Admins"], then bob for
    ["Admins"], then bob for ["admins"]. *)
Lemma resolver_on_plural_tags_witness :
  members
    (AuthorizationDetails.resolve_members
       (AuthorizationDetails.collect_groups plural_users)
       (principal "Groups" "ADMINS" [] [] []))
  = ["alice"; "bob"; "bob"].
Proof.
  destruct (resolver_on_plural_tags plural_users (principal "Groups" "ADMINS" [] [] []))
    as (_ & H & _).
  rewrite (H eq_refl). reflexivity.
Defined.

(** X18. The two partial scans do not reset the aggregator: on an
    [Exclusions] object [scan_policy_details] appends its policy findings
    to the policy findings the object holds, and
    [scan_principal_type_details] appends the findings of its list to the
    user, group and role findings the object holds; the other lists of
    findings and the mapping are left as they were. *)
Theorem partial_scans_accumulate
    (X : Collaborators) (ex : Exclusions.t) (modify_only : bool)
    (r : AuthorizationDetails.detail_list_ref) (self : AuthorizationDetails.t) :
  let before := AuthorizationDetails.findings self in
  let after_policies :=
    AuthorizationDetails.findings
      (snd (AuthorizationDetails.scan_policy_details X (PyExclusions ex)
              modify_only self)) in
  let after_principals :=
    AuthorizationDetails.findings
      (snd (AuthorizationDetails.scan_principal_type_details X r (PyExclusions ex)
              modify_only self)) in
  let found :=
    findings_of X ex modify_only (AuthorizationDetails.deref r self) in
  (Findings.policies after_policies
   = Findings.policies before
     ++ flat_map (policy_finding_of X ex modify_only)
          (AuthorizationDetails.policies self)
   /\ Findings.users after_policies = Findings.users before
   /\ Findings.groups after_policies = Findings.groups before
   /\ Findings.roles after_policies = Findings.roles before)
  /\ (Findings.users after_principals
      = Findings.users before ++ filter is_user_finding found
      /\ Findings.groups after_principals
         = Findings.groups before ++ filter is_group_finding found
      /\ Findings.roles after_principals
         = Findings.roles before ++ filter is_role_finding found
      /\ Findings.policies after_principals = Findings.policies before
      /\ Findings.principal_policy_mapping after_principals
         = Findings.principal_policy_mapping before).
Proof.
  cbv zeta. split.
  - rewrite ScanFacts.scan_policy_details_run. cbn [snd].
    rewrite ScanMore.scan_policies_aggregate. cbn [AuthorizationDetails.findings
      AuthorizationDetails.set_findings].
    apply ScanMore.aggregate_policy_findings.
  - rewrite ScanFacts.scan_principal_type_details_run. cbn [snd].
    rewrite ScanMore.after_principal_scan_eq. cbn [AuthorizationDetails.findings
      AuthorizationDetails.set_findings].
    rewrite ScanMore.aggregate_users, ScanMore.aggregate_groups,
      ScanMore.aggregate_roles, ScanMore.aggregate_mapping,
      ScanMore.aggregate_policies_of_principals.
    repeat split.
Qed.

(* ================================================================= *)
(** ** Exclusions and letter case *)

Module CaseFacts.
Import PrincipalPolicyMapping.

Lemma lower_ascii_idempotent (c : ascii) :
  lower_ascii (lower_ascii c) = lower_ascii c.
Proof.
  destruct c as [b0 b1 b2 b3 b4 b5 b6 b7].
  destruct b0, b1, b2, b3, b4, b5, b6, b7; reflexivity.
Qed.

Lemma lower_idempotent (s : string) : lower (lower s) = lower s.
Proof.
  induction s as [|c s IH]; [reflexivity|].
  simpl. now rewrite lower_ascii_idempotent, IH.
Qed.

(** A lower-cased name is looked up among the lower-cased names only. *)
Lemma in_list_lower_cased (n : string) (l : list string) :
  in_list (lower n) (filter is_lower_cased l) = in_list (lower n) l.
Proof.
  unfold in_list. induction l as [|x l IH]; [reflexivity|].
  cbn [filter existsb]. destruct (is_lower_cased x) eqn:Hx.
  - cbn [existsb]. now rewrite IH.
  - rewrite IH. destruct (String.eqb_spec (lower n) x) as [Heq | Hne];
      [|reflexivity].
    exfalso. unfold is_lower_cased in Hx. apply String.eqb_neq in Hx.
    apply Hx. rewrite <- Heq. apply lower_idempotent.
Qed.

Lemma fold_left_ext (A B : Type) (f g : A -> B -> A) (l : list B) (a : A) :
  (forall a x, f a x = g a x) -> fold_left f l a = fold_left g l a.
Proof.
  intros H. revert a. induction l as [|x l IH]; intros a; [reflexivity|].
  simpl. now rewrite H, IH.
Qed.

(** The filter reads the exclusions through the lookups of lower-cased
    names only. *)
Lemma filtered_mapping_ext (self : t) (ex ex' : Exclusions.t) :
  (forall n, in_list (lower n) (Exclusions.users ex)
             = in_list (lower n) (Exclusions.users ex')) ->
  (forall n, in_list (lower n) (Exclusions.groups ex)
             = in_list (lower n) (Exclusions.groups ex')) ->
  (forall n, in_list (lower n) (Exclusions.roles ex)
             = in_list (lower n) (Exclusions.roles ex')) ->
  (forall n, in_list (lower n) (Exclusions.policies ex)
             = in_list (lower n) (Exclusions.policies ex')) ->
  filtered_mapping self ex = filtered_mapping self ex'.
Proof.
  intros Hu Hg Hr Hp. unfold filtered_mapping.
  assert (Husers : forall acc, filter_users self ex acc = filter_users self ex' acc).
  { intros acc. unfold filter_users. apply fold_left_ext. intros a e.
    rewrite Hu, Hp. case_ifs; try reflexivity.
    apply fold_left_ext. intros a' g. now rewrite Hg. }
  assert (Hgroups : forall acc, filter_groups self ex acc = filter_groups self ex' acc).
  { intros acc. unfold filter_groups, group_loop. apply fold_left_ext.
    intros a e. now rewrite Hg, Hp. }
  assert (Hroles : forall acc, filter_roles self ex acc = filter_roles self ex' acc).
  { intros acc. unfold filter_roles. apply fold_left_ext.
    intros a e. now rewrite Hr, Hp. }
  now rewrite Husers, Hgroups, Hroles.
Qed.

End CaseFacts.

(** X19. The filter lower-cases the names of the entries and leaves the
    exclusions as they are: a name in an exclusion list that holds an
    upper-case letter matches nothing, and the filter gives the same
    mapping with the exclusions as without those names. *)
Theorem upper_case_exclusions_match_nothing
    (self : PrincipalPolicyMapping.t) (ex : Exclusions.t) :
  filtered_mapping self ex = filtered_mapping self (lower_cased_only ex).
Proof.
  apply CaseFacts.filtered_mapping_ext; intros n; simpl;
    symmetry; apply CaseFacts.in_list_lower_cased.
Qed.
